(** * Eurostat cleaning scripts: a shallow embedding and its properties

    The development follows [scripts/clean_eurostat.py] (class
    [EurostatCleaner]) and [scripts/analyze_eurostat.py].

    Modelling conventions.
    - A Python [str] is a Rocq [string]; the characters are read as ASCII
      code points (Eurostat codes, flags and numerals are ASCII).
    - A Python [float] (and a numpy [float64]) is an IEEE-754 binary64
      number, taken from the Standard Library's [SpecFloat] with
      precision 53 and maximal exponent 1024.
    - A call that may raise returns a [result]; a method of the class takes
      the instance's state and returns an [outcome] with the state after. *)

From Stdlib Require Import ZArith List String Ascii Bool Lia.
From Stdlib Require Import Sorting.Sorted Sorting.Permutation.
From Stdlib Require Structures.OrderedTypeEx.
From Stdlib Require Import Floats.SpecFloat.
Import ListNotations.

Local Open Scope string_scope.
Local Open Scope Z_scope.

(* ================================================================== *)
(** * Exceptions and results *)

Inductive exn : Type :=
| ValueError
| AttributeError
| IndexError
| KeyError
| TypeError
| OverflowError.

Inductive result (A : Type) : Type :=
| Ok (a : A)
| Raise (e : exn).
Arguments Ok {A} a.
Arguments Raise {A} e.

Definition bind {A B : Type} (r : result A) (k : A -> result B) : result B :=
  match r with
  | Ok a => k a
  | Raise e => Raise e
  end.

Notation "x <- r ;; k" := (bind r (fun x => k))
  (at level 61, r at next level, right associativity).

Fixpoint mapM {A B : Type} (f : A -> result B) (l : list A) : result (list B) :=
  match l with
  | [] => Ok []
  | a :: l' => b <- f a ;; bs <- mapM f l' ;; Ok (b :: bs)
  end.

(* ================================================================== *)
(** * Python strings *)

Module PyStr.

Definition code (c : ascii) : Z := Z.of_nat (nat_of_ascii c).

Definition between (lo hi : Z) (c : ascii) : bool :=
  (lo <=? code c) && (code c <=? hi).

(** [str.isspace] on ASCII: TAB..CR, FS..US and the space. *)
Definition is_space (c : ascii) : bool := between 9 13 c || between 28 32 c.

(** C-level [Py_ISSPACE], used by [float()] and [int()]: TAB..CR and space. *)
Definition is_cspace (c : ascii) : bool := between 9 13 c || (code c =? 32).

Definition is_digit (c : ascii) : bool := between 48 57 c.
Definition is_lower (c : ascii) : bool := between 97 122 c.
Definition is_upper (c : ascii) : bool := between 65 90 c.

Definition digit_val (c : ascii) : Z := code c - 48.

Fixpoint lstrip_by (p : ascii -> bool) (s : string) : string :=
  match s with
  | String c s' => if p c then lstrip_by p s' else s
  | EmptyString => EmptyString
  end.

(** Removes the trailing characters satisfying [p]. *)
Fixpoint rstrip_by (p : ascii -> bool) (s : string) : string :=
  match s with
  | EmptyString => EmptyString
  | String c s' =>
      match rstrip_by p s' with
      | EmptyString => if p c then EmptyString else String c EmptyString
      | t => String c t
      end
  end.

(** [s.strip()] *)
Definition strip (s : string) : string := rstrip_by is_space (lstrip_by is_space s).

(** [s.split(sep)] for a one-character separator: never empty, keeps empty
    fields. *)
Fixpoint split (sep : ascii) (s : string) : list string :=
  match s with
  | EmptyString => [EmptyString]
  | String c s' =>
      if Ascii.eqb c sep then EmptyString :: split sep s'
      else match split sep s' with
           | f :: fs => String c f :: fs
           | [] => [String c EmptyString]
           end
  end.

(** [c in s] for a one-character [c]. *)
Fixpoint contains (c : ascii) (s : string) : bool :=
  match s with
  | EmptyString => false
  | String d s' => Ascii.eqb d c || contains c s'
  end.

(** [s in l] for a list of strings. *)
Definition str_in (s : string) (l : list string) : bool :=
  existsb (String.eqb s) l.

Fixpoint filter_chars (p : ascii -> bool) (s : string) : string :=
  match s with
  | EmptyString => EmptyString
  | String c s' => if p c then String c (filter_chars p s') else filter_chars p s'
  end.

(** [re.sub(r'[CLASS]+', '', s)]: every maximal run of class characters is
    deleted, which leaves the characters outside the class, in order. *)
Definition re_sub_class (cls : ascii -> bool) (s : string) : string :=
  filter_chars (fun c => negb (cls c)) s.

(** [re.findall(r'[CLASS]', s)]: one one-character match per class
    character, in order. *)
Fixpoint re_findall_class (cls : ascii -> bool) (s : string) : list string :=
  match s with
  | EmptyString => []
  | String c s' =>
      if cls c then String c EmptyString :: re_findall_class cls s'
      else re_findall_class cls s'
  end.

Definition upper_char (c : ascii) : ascii :=
  if is_lower c then ascii_of_nat (nat_of_ascii c - 32) else c.

Definition lower_char (c : ascii) : ascii :=
  if is_upper c then ascii_of_nat (nat_of_ascii c + 32) else c.

Fixpoint map_chars (f : ascii -> ascii) (s : string) : string :=
  match s with
  | EmptyString => EmptyString
  | String c s' => String (f c) (map_chars f s')
  end.

(** [s.upper()] *)
Definition upper (s : string) : string := map_chars upper_char s.
Definition lower (s : string) : string := map_chars lower_char s.

Fixpoint repeat_char (c : ascii) (n : nat) : string :=
  match n with
  | O => EmptyString
  | S n' => String c (repeat_char c n')
  end.

End PyStr.

(* ================================================================== *)
(** * Python floats: binary64 *)

Module PyFloat.
Import PyStr.

Definition prec : Z := 53.
Definition emax : Z := 1024.

Definition float : Type := spec_float.

Definition add : float -> float -> float := SFadd prec emax.
Definition sub : float -> float -> float := SFsub prec emax.
Definition mul : float -> float -> float := SFmul prec emax.
Definition div : float -> float -> float := SFdiv prec emax.
Definition sqrt : float -> float := SFsqrt prec emax.
Definition ltb : float -> float -> bool := SFltb.
Definition leb : float -> float -> bool := SFleb.

Definition is_nan (f : float) : bool :=
  match f with S754_nan => true | _ => false end.

Definition is_inf (f : float) : bool :=
  match f with S754_infinity _ => true | _ => false end.


Definition eqb (f g : float) : bool :=
  match f, g with
  | S754_zero a, S754_zero b => Bool.eqb a b
  | S754_infinity a, S754_infinity b => Bool.eqb a b
  | S754_nan, S754_nan => true
  | S754_finite a m e, S754_finite b n k => Bool.eqb a b && Pos.eqb m n && Z.eqb e k
  | _, _ => false
  end.

(** The float nearest to an integer (ties to even). *)
Definition of_Z (z : Z) : float := binary_normalize prec emax z 0 false.

(** Drops one trailing zero of [m] after the other, counting them onto [e]. *)
Fixpoint strip10 (fuel : nat) (m e : Z) : Z * Z :=
  match fuel with
  | O => (m, e)
  | S fuel' =>
      if (m mod 10 =? 0) && (0 <? m) then strip10 fuel' (m / 10) (e + 1) else (m, e)
  end.

(** The numeral [m * 10^e] without the trailing zeros of [m], which
    [strtod] drops from the digits it has read. *)
Definition normal_decimal (m e : Z) : Z * Z := strip10 (Z.to_nat (Z.log2 m)) m e.

(** The float nearest to [(-1)^neg * m * 10^e], ties to even: the value that
    a correctly rounded [strtod] returns for a decimal numeral.  Too large a
    magnitude gives an infinity, too small a zero. *)
Definition of_decimal (neg : bool) (m : Z) (e : Z) : float :=
  match normal_decimal m e with
  | (Zpos p, e) =>
      if 0 <=? e then binary_round prec emax neg (p * Z.to_pos (10 ^ e)) 0
      else
        let '(q, e', l) := SFdiv_core_binary prec emax (Zpos p) 0 (10 ^ (- e)) 0 in
        binary_round_aux prec emax neg q e' l
  | (_, _) => S754_zero neg
  end.

(** ** [float(s)] for a [str] *)

Definition take_sign (s : string) : bool * string :=
  match s with
  | String "-" t => (true, t)
  | String "+" t => (false, t)
  | _ => (false, s)
  end.

(** Reads the leading decimal digits of [s] onto the accumulator [acc];
    returns the number read, how many digits it had, and the rest. *)
Fixpoint digits (s : string) (acc : Z) (n : Z) : Z * Z * string :=
  match s with
  | String c s' =>
      if is_digit c then digits s' (10 * acc + digit_val c) (n + 1)
      else (acc, n, s)
  | EmptyString => (acc, n, s)
  end.

(** Underscores of a numeric literal: each must stand between two digits.
    [prev_digit] and [prev_us] describe the character before [s]. *)
Fixpoint remove_underscores (prev_digit prev_us : bool) (s : string)
  : option string :=
  match s with
  | EmptyString => if prev_us then None else Some EmptyString
  | String c s' =>
      if Ascii.eqb c "_" then
        if prev_digit then remove_underscores false true s' else None
      else if prev_us && negb (is_digit c) then None
      else option_map (String c) (remove_underscores (is_digit c) false s')
  end.

(** The whole of [s] as a decimal numeral:
    [sign] digits [. digits] [(e|E) [sign] digits], at least one digit in
    the mantissa. *)
Definition strtod (s : string) : option float :=
  let '(neg, r) := take_sign s in
  let '(ip, ni, r1) := digits r 0 0 in
  let '(m, nf, r2) :=
    match r1 with
    | String "." t => digits t ip 0
    | _ => (ip, 0, r1)
    end in
  if ni + nf =? 0 then None
  else
    match r2 with
    | EmptyString => Some (of_decimal neg m (- nf))
    | String c t =>
        if Ascii.eqb c "e" || Ascii.eqb c "E" then
          let '(eneg, t1) := take_sign t in
          let '(ev, ne, t2) := digits t1 0 0 in
          if (ne =? 0) || negb (String.eqb t2 EmptyString) then None
          else Some (of_decimal neg m ((if eneg then - ev else ev) - nf))
        else None
    end.

(** The whole of [s] as an infinity or a NaN, in any letter case. *)
Definition parse_inf_or_nan (s : string) : option float :=
  let '(neg, r) := take_sign s in
  let r := lower r in
  if String.eqb r "inf" || String.eqb r "infinity" then Some (S754_infinity neg)
  else if String.eqb r "nan" then Some S754_nan
  else None.

(** [float(s)]: surrounding white space is ignored, then the whole rest must
    be a numeral; anything else raises [ValueError]. *)
Definition float_of_str (s : string) : result float :=
  let t := rstrip_by is_cspace (lstrip_by is_cspace s) in
  if String.eqb t EmptyString then Raise ValueError
  else
    match remove_underscores false false t with
    | None => Raise ValueError
    | Some u =>
        match strtod u with
        | Some f => Ok f
        | None =>
            match parse_inf_or_nan u with
            | Some f => Ok f
            | None => Raise ValueError
            end
        end
    end.

(** ** [str(x)] and [repr(x)] for a float *)

Fixpoint ndigits10_fuel (fuel : nat) (z : Z) : Z :=
  match fuel with
  | O => 1
  | S fuel' => if z <? 10 then 1 else 1 + ndigits10_fuel fuel' (z / 10)
  end.

(** Number of decimal digits of a positive integer. *)
Definition ndigits10 (z : Z) : Z := ndigits10_fuel (Z.to_nat (Z.log2 z)) z.

Fixpoint digits_of_fuel (fuel : nat) (z : Z) (acc : string) : string :=
  let acc' := String (ascii_of_nat (Z.to_nat (48 + z mod 10))) acc in
  match fuel with
  | O => acc'
  | S fuel' => if z <? 10 then acc' else digits_of_fuel fuel' (z / 10) acc'
  end.

(** Decimal digits of a non-negative integer. *)
Definition digits_of (z : Z) : string :=
  digits_of_fuel (Z.to_nat (Z.log2 z)) z EmptyString.

Fixpoint strip_zeros_fuel (fuel : nat) (z : Z) : Z :=
  match fuel with
  | O => z
  | S fuel' => if (z mod 10 =? 0) && (0 <? z) then strip_zeros_fuel fuel' (z / 10) else z
  end.

(** A positive integer without its trailing decimal zeros. *)
Definition strip_zeros (z : Z) : Z := strip_zeros_fuel (Z.to_nat (Z.log2 z)) z.

(** A positive finite float as the fraction [num / den]. *)
Definition fraction (m : positive) (e : Z) : Z * Z :=
  if 0 <=? e then (Zpos m * 2 ^ e, 1) else (Zpos m, 2 ^ (- e)).

Fixpoint decpt_small (fuel : nat) (num den : Z) (j : Z) : Z :=
  match fuel with
  | O => - j
  | S fuel' => if den <=? num * 10 then - j else decpt_small fuel' (num * 10) den (j + 1)
  end.

(** The decimal point position [p] of [num / den > 0]:
    [10^(p-1) <= num / den < 10^p]. *)
Definition decpt_of (num den : Z) : Z :=
  if den <=? num then ndigits10 (num / den)
  else decpt_small (Z.to_nat (Z.log2 den) + 1) num den 0.

(** The decimal numerals [d * 10^k] with [d] of at most [n] digits next to
    [num / den]: the one below (or equal), the remainder that tells how far
    it is, and the scaled denominator. *)
Definition scaled (num den : Z) (k : Z) : Z * Z * Z :=
  let '(a, b) := if 0 <=? k then (num, den * 10 ^ k) else (num * 10 ^ (- k), den) in
  (a / b, a mod b, b).

(** The digits of the shortest numeral that [float()] reads back as the
    float [S754_finite false m e], and among those of that length the one
    nearest to it: what [repr] prints.  The search goes from one digit
    upwards; for a binary64 number it ends at seventeen digits or before. *)
Fixpoint shortest_from (fuel : nat) (n : Z) (m : positive) (e : Z) (p : Z)
  : Z * Z :=
  let '(num, den) := fraction m e in
  let k := p - n in
  let '(lo, r, b) := scaled num den k in
  let v := S754_finite false m e in
  let lo_ok := eqb (of_decimal false lo k) v in
  let hi_ok := negb (r =? 0) && eqb (of_decimal false (lo + 1) k) v in
  let lo_near := (2 * r <? b) || ((2 * r =? b) && Z.even lo) in
  match fuel with
  | O => (if lo_near then lo else lo + 1, k)
  | S fuel' =>
      if lo_ok && (lo_near || negb hi_ok) then (lo, k)
      else if hi_ok then (lo + 1, k)
      else shortest_from fuel' (n + 1) m e p
  end.

(** The search is bounded by the length of the decimal expansion of the
    float, which is exact and so read back as the float itself. *)
Definition shortest (m : positive) (e : Z) : string * Z :=
  let '(num, den) := fraction m e in
  let p := decpt_of num den in
  let '(d, k) := shortest_from (Z.to_nat (Z.max 16 (p - Z.min e 0))) 1 m e p in
  (digits_of (strip_zeros d), ndigits10 d + k).

Definition substring_from (n : nat) (s : string) : string :=
  String.substring n (String.length s - n) s.

(** The layout of [repr]: scientific notation when the decimal point
    position is above 16 or below -3, positional notation otherwise, with
    [.0] added to an integral value. *)
Definition format_repr (ds : string) (decpt : Z) : string :=
  let nd := Z.of_nat (String.length ds) in
  if (decpt <=? -4) || (16 <? decpt) then
    let ex := decpt - 1 in
    let es := digits_of (Z.abs ex) in
    (String.substring 0 1 ds
     ++ (if (1 <? nd)%Z then "." ++ substring_from 1 ds else "")
     ++ "e" ++ (if (ex <? 0)%Z then "-" else "+")
     ++ (if (Z.abs ex <? 10)%Z then "0" else "") ++ es)%string
  else if decpt <=? 0 then
    ("0." ++ repeat_char "0" (Z.to_nat (- decpt)) ++ ds)%string
  else if nd <=? decpt then
    (ds ++ repeat_char "0" (Z.to_nat (decpt - nd)) ++ ".0")%string
  else
    (String.substring 0 (Z.to_nat decpt) ds ++ "."
     ++ substring_from (Z.to_nat decpt) ds)%string.

(** [str(x)] (the same as [repr(x)]) *)
Definition str_of_float (x : float) : string :=
  match x with
  | S754_nan => "nan"
  | S754_infinity s => if s then "-inf" else "inf"
  | S754_zero s => if s then "-0.0" else "0.0"
  | S754_finite s m e =>
      let '(ds, decpt) := shortest m e in
      ((if s then "-" else "") ++ format_repr ds decpt)%string
  end.

End PyFloat.

(* ================================================================== *)
(** * Python integers from strings *)

Module PyInt.
Import PyStr.

(** [int(s)] in base 10: white space around, an optional sign, digits with
    single underscores between them. *)
Definition int_of_str (s : string) : result Z :=
  let t := rstrip_by is_cspace (lstrip_by is_cspace s) in
  let '(neg, r) := PyFloat.take_sign t in
  match PyFloat.remove_underscores false false r with
  | None => Raise ValueError
  | Some u =>
      let '(v, n, rest) := PyFloat.digits u 0 0 in
      if (n =? 0) || negb (String.eqb rest EmptyString) then Raise ValueError
      else Ok (if neg then - v else v)
  end.

(** [astype(int)] on one string label: [int(s)], which must fit the 64-bit
    integer of the column. *)
Definition to_int64 (s : string) : result Z :=
  z <- int_of_str s ;;
  if (- 2 ^ 63 <=? z) && (z <? 2 ^ 63) then Ok z else Raise OverflowError.

(** [str(z)] *)
Definition str_of_int (z : Z) : string :=
  if z <? 0 then String "-" (PyFloat.digits_of (- z)) else PyFloat.digits_of z.

End PyInt.

(* ================================================================== *)
(** * Reductions of pandas and numpy on a column without missing values

    The reductions are numpy's, which pandas calls on the values of a
    column: [add.reduce] starts from [+0.0] and adds the pairwise sum of the
    array; [minimum.reduce] and [maximum.reduce] keep the later of two equal
    values; the median is the mean of the one or two middle elements. *)

Module Stats.
Import PyFloat.

Fixpoint insert {A : Type} (le : A -> A -> bool) (x : A) (l : list A) : list A :=
  match l with
  | [] => [x]
  | y :: l' => if le x y then x :: l else y :: insert le x l'
  end.

(** Stable insertion sort, ascending for [le]. *)
Fixpoint sort {A : Type} (le : A -> A -> bool) (l : list A) : list A :=
  match l with
  | [] => []
  | x :: l' => insert le x (sort le l')
  end.

(** [r[j] += a[i + j]] for the eight accumulators. *)
Fixpoint add_lanes (r a : list float) : list float :=
  match r, a with
  | x :: r', y :: a' => add x y :: add_lanes r' a'
  | _, _ => r
  end.

(** The unrolled loop over the blocks of eight that are left. *)
Fixpoint unrolled (fuel : nat) (r a : list float) : list float * list float :=
  match fuel with
  | O => (r, a)
  | S fuel' =>
      if (8 <=? List.length a)%nat
      then unrolled fuel' (add_lanes r (firstn 8 a)) (skipn 8 a)
      else (r, a)
  end.

(** A block of 8 to 128 values: eight accumulators, added in pairs, then
    the values beyond the last full block of eight. *)
Definition block_sum (a : list float) : float :=
  match unrolled (List.length a) (firstn 8 a) (skipn 8 a) with
  | ([r0; r1; r2; r3; r4; r5; r6; r7], rest) =>
      fold_left add rest
        (add (add (add r0 r1) (add r2 r3)) (add (add r4 r5) (add r6 r7)))
  | (_, _) => fold_left add a (S754_zero false)
  end.

(** numpy's [pairwise_sum]: fewer than 8 values are added from left to
    right onto [0.]; up to 128 values form one block; a longer array is cut
    in two at a multiple of eight.  [fuel] bounds the depth of the cuts. *)
Fixpoint pairwise_sum (fuel : nat) (a : list float) : float :=
  let n := List.length a in
  if (n <? 8)%nat then fold_left add a (S754_zero false)
  else if (n <=? 128)%nat then block_sum a
  else
    match fuel with
    | O => block_sum a
    | S fuel' =>
        let n2 := (n / 2 - (n / 2) mod 8)%nat in
        add (pairwise_sum fuel' (firstn n2 a)) (pairwise_sum fuel' (skipn n2 a))
    end.

(** [add.reduce]: the identity [+0.0] plus the pairwise sum. *)
Definition sum (l : list float) : float :=
  add (S754_zero false) (pairwise_sum (List.length l) l).

Definition count (l : list float) : float := of_Z (Z.of_nat (List.length l)).

(** [mean()]: NaN on an empty column. *)
Definition mean (l : list float) : float := div (sum l) (count l).

(** [median()]: numpy takes the mean of the middle element of the sorted
    column, or of the two middle ones; NaN on an empty column. *)
Definition median (l : list float) : float :=
  let s := sort leb l in
  let n := List.length s in
  if (n =? 0)%nat then S754_nan
  else if Nat.even n then mean [nth (n / 2 - 1) s S754_nan; nth (n / 2) s S754_nan]
  else mean [nth (n / 2) s S754_nan].

(** [min()]: the accumulator is kept only where it is strictly smaller. *)
Definition min (l : list float) : float :=
  match l with
  | [] => S754_nan
  | x :: l' => fold_left (fun a b => if ltb a b then a else b) l' x
  end.

(** [max()]: the accumulator is kept only where it is strictly larger. *)
Definition max (l : list float) : float :=
  match l with
  | [] => S754_nan
  | x :: l' => fold_left (fun a b => if ltb b a then a else b) l' x
  end.

Definition sq (x : float) : float := mul x x.

(** [var(ddof)]: the squared deviations from the mean, summed and divided
    by [count - ddof]; NaN when [count <= ddof]. *)
Definition var (ddof : Z) (l : list float) : float :=
  let n := Z.of_nat (List.length l) in
  if n <=? ddof then S754_nan
  else
    let avg := mean l in
    div (sum (map (fun x => sq (sub avg x)) l)) (of_Z (n - ddof)).

(** [Series.std()]: pandas' default is [ddof = 1]. *)
Definition std (l : list float) : float := sqrt (var 1 l).

End Stats.

(* ================================================================== *)
(** * Cells of the source table *)

(** A cell as [read_csv] hands it over: missing, text, or a number where
    pandas found a numeric column. *)
Inductive pyvalue : Type :=
| NA
| Str (s : string)
| Flt (f : PyFloat.float)
| Int (z : Z).

(** [pd.isna(value)] *)
Definition isna (v : pyvalue) : bool :=
  match v with
  | NA => true
  | Flt f => PyFloat.is_nan f
  | _ => false
  end.

(** [str(value)] *)
Definition py_str (v : pyvalue) : string :=
  match v with
  | NA => "nan"
  | Str s => s
  | Flt f => PyFloat.str_of_float f
  | Int z => PyInt.str_of_int z
  end.

(** A cleaned cell: [None] and NaN both stand for a missing value. *)
Definition notna (c : option PyFloat.float) : bool :=
  match c with
  | Some f => negb (PyFloat.is_nan f)
  | None => false
  end.

(** [dropna()] on a column of cleaned cells. *)
Fixpoint dropna (col : list (option PyFloat.float)) : list PyFloat.float :=
  match col with
  | [] => []
  | c :: col' =>
      match c with
      | Some f => if PyFloat.is_nan f then dropna col' else f :: dropna col'
      | None => dropna col'
      end
  end.

(** The four fields of the metadata key. *)
Record dims : Type := mk_dims {
  freq : string;
  unit : string;
  tra_mode : string;
  geo : string
}.

(* ================================================================== *)
(** * [clean_eurostat.py]: class [EurostatCleaner] *)

Module EurostatCleaner.
Import PyStr PyFloat.

(** The class constant [FLAGS]: flag character and meaning. *)
Definition FLAGS : list (string * string) :=
  [ ("e", "estimated"); ("p", "provisional"); ("b", "break in time series");
    ("n", "not significant"); ("c", "confidential"); ("d", "definition differs");
    ("u", "low reliability"); ("s", "Eurostat estimate"); ("i", "see metadata");
    ("r", "revised"); ("z", "not applicable"); (":", "not available");
    ("m", "missing") ].

(** One line of the source file: the metadata key and the period cells. *)
Record raw_row : Type := mk_raw_row {
  key : pyvalue;
  raw_cells : list pyvalue
}.

(** A row of [meta_df], and of [cleaned_df] with its period cells.  The
    period columns of [cleaned_df] are the ones [year_cols] names, in that
    order ([clean_data] makes one per entry); [cells] keeps a row's values in
    that order, and a period without a column is a [KeyError]. *)
Record meta_row : Type := mk_meta_row {
  row_idx : Z;
  id_vars : dims
}.

Record cleaned_row : Type := mk_cleaned_row {
  meta : meta_row;
  cells : list (option float)
}.

(** A row of [long_df]. *)
Record long_row : Type := mk_long_row {
  long_id : dims;
  year : Z;
  value : float
}.

(** The instance attributes. *)
Record t : Type := mk_t {
  csv_path : string;
  df : option (list raw_row);
  metadata_col : option string;
  year_cols : option (list string);
  cleaned_df : option (list cleaned_row);
  long_df : option (list long_row)
}.

(** [__init__] *)
Definition init (path : string) : t :=
  mk_t path None None None None None.

Definition set_cleaned_df (c : list cleaned_row) (self : t) : t :=
  mk_t (csv_path self) (df self) (metadata_col self) (year_cols self)
       (Some c) (long_df self).

Definition set_long_df (l : list long_row) (self : t) : t :=
  mk_t (csv_path self) (df self) (metadata_col self) (year_cols self)
       (cleaned_df self) (Some l).

(** ** [parse_metadata] *)

(** The body of the loop for one row: [parsed] grows by one record when the
    key has four parts or more, and is left as it is otherwise. *)
Definition parse_metadata_step (parsed : list meta_row) (idx : Z) (meta_str : string)
  : list meta_row :=
  let parts := split "," meta_str in
  if (4 <=? List.length parts)%nat then
    parsed ++ [ mk_meta_row idx
                  (mk_dims (strip (nth 0 parts ""))
                           (strip (nth 1 parts ""))
                           (strip (nth 2 parts ""))
                           (strip (nth 3 parts ""))) ]
  else parsed.

(** The loop over [df.iterrows()]; a key that is not a string has no
    [split]. *)
Fixpoint parse_metadata_loop (rows : list raw_row) (idx : Z) (parsed : list meta_row)
  : result (list meta_row) :=
  match rows with
  | [] => Ok parsed
  | r :: rows' =>
      match key r with
      | Str meta_str =>
          parse_metadata_loop rows' (idx + 1) (parse_metadata_step parsed idx meta_str)
      | _ => Raise AttributeError
      end
  end.

(** Returns [meta_df]; the instance is only read. *)
Definition parse_metadata (self : t) : result (list meta_row) * t :=
  match df self with
  | None => (Raise AttributeError, self)
  | Some rows => (parse_metadata_loop rows 0 [], self)
  end.

(** ** [clean_value] and [extract_flags] *)

Definition missing_tokens : list string := [""; ":"; ": m"; ": c"; ": z"].

(** The character class [[a-zA-Z :]]. *)
Definition flag_class (c : ascii) : bool :=
  is_lower c || is_upper c || Ascii.eqb c " " || Ascii.eqb c ":".

Definition clean_value (v : pyvalue) : option float :=
  if isna v then None
  else
    let value_str := strip (py_str v) in
    if str_in value_str missing_tokens then None
    else
      let cleaned := re_sub_class flag_class value_str in
      if String.eqb cleaned "" then None
      else
        match float_of_str cleaned with
        | Ok f => Some f
        | Raise _ => None
        end.

Definition extract_flags (v : pyvalue) : list string :=
  if isna v then []
  else re_findall_class is_lower (strip (py_str v)).

(** ** [filter_geo] and [filter_mode] *)

Definition filter_geo (countries : list string) (self : t) : result Datatypes.unit * t :=
  match cleaned_df self with
  | None => (Raise ValueError, self)
  | Some c =>
      let countries_upper := map upper countries in
      let mask := fun r => str_in (upper (geo (id_vars (meta r)))) countries_upper in
      (Ok tt, set_cleaned_df (filter mask c) self)
  end.

Definition filter_mode (modes : list string) (self : t) : result Datatypes.unit * t :=
  match cleaned_df self with
  | None => (Raise ValueError, self)
  | Some c =>
      let modes_upper := map upper modes in
      let mask := fun r => str_in (upper (tra_mode (id_vars (meta r)))) modes_upper in
      (Ok tt, set_cleaned_df (filter mask c) self)
  end.

(** ** [to_long_format] *)

(** One period column of [melt]: a row per row of the table, with the
    period label and the cell at position [j]. *)
Definition melt_column (j : nat) (y : string) (c : list cleaned_row)
  : result (list (dims * string * option float)) :=
  mapM (fun r =>
          match nth_error (cells r) j with
          | Some v => Ok (id_vars (meta r), y, v)
          | None => Raise KeyError
          end) c.

(** [melt(id_vars, value_vars)]: the columns of [value_vars] one after the
    other, each over all rows. *)
Fixpoint melt_from (j : nat) (value_vars : list string) (c : list cleaned_row)
  : result (list (dims * string * option float)) :=
  match value_vars with
  | [] => Ok []
  | y :: ys =>
      col <- melt_column j y c ;;
      rest <- melt_from (S j) ys c ;;
      Ok (col ++ rest)%list
  end.

Definition melt (value_vars : list string) (c : list cleaned_row)
  : result (list (dims * string * option float)) :=
  melt_from 0 value_vars c.

(** [long_df['year'].astype(int)] *)
Definition year_astype_int (l : list (dims * string * option float))
  : result (list (dims * Z * option float)) :=
  mapM (fun '(d, y, v) => yi <- PyInt.to_int64 y ;; Ok (d, yi, v)) l.

(** [dropna(subset=['value'])] *)
Fixpoint dropna_value (l : list (dims * Z * option float)) : list long_row :=
  match l with
  | [] => []
  | (d, y, v) :: l' =>
      match v with
      | Some f => if is_nan f then dropna_value l' else mk_long_row d y f :: dropna_value l'
      | None => dropna_value l'
      end
  end.

Definition str_leb (a b : string) : bool :=
  match String.compare a b with Gt => false | _ => true end.

(** The order of [sort_values(['geo', 'tra_mode', 'year'])]. *)
Definition sort_key_leb (a b : long_row) : bool :=
  match String.compare (geo (long_id a)) (geo (long_id b)) with
  | Lt => true
  | Gt => false
  | Eq =>
      match String.compare (tra_mode (long_id a)) (tra_mode (long_id b)) with
      | Lt => true
      | Gt => false
      | Eq => year a <=? year b
      end
  end.

Definition sort_values (l : list long_row) : list long_row :=
  Stats.sort sort_key_leb l.

Definition to_long_format (self : t) : result (list long_row) * t :=
  match cleaned_df self with
  | None => (Raise ValueError, self)
  | Some c =>
      let melted :=
        match year_cols self with
        | Some ys => melt ys c
        | None =>
            (* value_vars=None melts every other column, [row_idx] first,
               whose label is no integer *)
            match c with
            | [] => Ok []
            | _ :: _ => Raise ValueError
            end
        end in
      match (m <- melted ;; year_astype_int m) with
      | Raise e => (Raise e, self)
      | Ok l =>
          let long := sort_values (dropna_value l) in
          (Ok long, set_long_df long self)
      end
  end.

(** ** [summary_stats] *)

(** One line of [country_stats] or [mode_stats]. *)
Record stats_row : Type := mk_stats_row {
  Group : string;
  Data_Points : nat;
  Mean : float;
  Median : float;
  Min : float;
  Max : float
}.

(** What [summary_stats] prints; the frame it returns is [country_stats]. *)
Record summary : Type := mk_summary {
  Countries : nat;
  Transport_modes : nat;
  Years : nat;
  country_stats : list stats_row;
  mode_stats : list stats_row
}.

(** [frame[self.year_cols]]: the period cells of every row. *)
Definition select_years (n : nat) (c : list cleaned_row)
  : result (list (list (option float))) :=
  mapM (fun r =>
          if (n <=? List.length (cells r))%nat then Ok (firstn n (cells r))
          else Raise KeyError) c.

(** [sorted(column.unique())] *)
Definition sorted_unique (l : list string) : list string :=
  Stats.sort str_leb (nodup string_dec l).

(** The loop over the values of one dimension: the rows of the group, their
    period cells flattened row by row, the missing ones dropped, and a
    record only when something is left. *)
Definition group_stats (dim : dims -> string) (n : nat) (c : list cleaned_row)
  : result (list stats_row) :=
  rows <- mapM (fun k =>
            let data := filter (fun r => String.eqb (dim (id_vars (meta r))) k) c in
            sel <- select_years n data ;;
            let values := dropna (List.concat sel) in
            Ok (match values with
                | [] => []
                | _ :: _ =>
                    [ mk_stats_row k (List.length values) (Stats.mean values)
                        (Stats.median values) (Stats.min values) (Stats.max values) ]
                end))
          (sorted_unique (map (fun r => dim (id_vars (meta r))) c)) ;;
  Ok (List.concat rows).

Definition summary_stats (self : t) : result summary * t :=
  match cleaned_df self with
  | None => (Raise ValueError, self)
  | Some c =>
      match year_cols self with
      | None => (Raise TypeError, self)
      | Some ys =>
          let n := List.length ys in
          (cs <- group_stats geo n c ;;
           ms <- group_stats tra_mode n c ;;
           Ok (mk_summary
                 (List.length (nodup string_dec (map (fun r => geo (id_vars (meta r))) c)))
                 (List.length (nodup string_dec (map (fun r => tra_mode (id_vars (meta r))) c)))
                 n cs ms),
           self)
      end
  end.

(** ** [analyze_trends] *)

(** One line of the year-over-year table. *)
Record year_stats : Type := mk_year_stats {
  Year : string;
  Count : nat;
  Year_Mean : float;
  Year_Median : float;
  Std_Dev : float
}.

(** The overall trend block, when it is printed. *)
Record trend : Type := mk_trend {
  first_year : string;
  last_year : string;
  first_mean : float;
  last_mean : float;
  change : float;
  pct_change : float
}.

(** [self.cleaned_df[year]] for the period at position [j]. *)
Definition column (j : nat) (c : list cleaned_row) : result (list (option float)) :=
  mapM (fun r =>
          match nth_error (cells r) j with
          | Some v => Ok v
          | None => Raise KeyError
          end) c.

Fixpoint yearly_from (j : nat) (ys : list string) (c : list cleaned_row)
  : result (list year_stats) :=
  match ys with
  | [] => Ok []
  | y :: ys' =>
      col <- column j c ;;
      let values := dropna col in
      rest <- yearly_from (S j) ys' c ;;
      Ok (match values with
          | [] => rest
          | _ :: _ =>
              mk_year_stats y (List.length values) (Stats.mean values)
                (Stats.median values) (Stats.std values) :: rest
          end)
  end.

(** Lines 297-304: the guard on the two means and the figures printed. *)
Definition overall_trend (fy ly : string) (fm lm : float) : option trend :=
  if negb (is_nan fm) && negb (is_nan lm) then
    let change := sub lm fm in
    let pct_change := mul (div change fm) (of_Z 100) in
    Some (mk_trend fy ly fm lm change pct_change)
  else None.

(** What [analyze_trends] prints: the year-over-year lines and, under the
    guard, the overall trend.  It returns nothing and only reads the
    instance. *)
Definition analyze_trends (self : t) : result (list year_stats * option trend) * t :=
  match cleaned_df self with
  | None => (Raise ValueError, self)
  | Some c =>
      match year_cols self with
      | None => (Raise TypeError, self)
      | Some ys =>
          (yearly <- yearly_from 0 ys c ;;
           match ys with
           | [] => Raise IndexError
           | fy :: _ =>
               let ly := last ys fy in
               fcol <- column 0 c ;;
               lcol <- column (List.length ys - 1) c ;;
               Ok (yearly,
                   overall_trend fy ly (Stats.mean (dropna fcol)) (Stats.mean (dropna lcol)))
           end,
           self)
      end
  end.

(** ** [export_wide] and [export_long] *)

(** The writer that the suffix of the output path selects. *)
Inductive writer : Type :=
| to_excel
| to_csv.

Definition writer_for (suffix : string) : writer :=
  if String.eqb suffix ".xlsx" then to_excel else to_csv.

(** [export_wide], given [output_path.suffix]: the writer called and the
    frame handed to it (the file itself is outside the model). *)
Definition export_wide (suffix : string) (self : t)
  : result (writer * list cleaned_row) * t :=
  match cleaned_df self with
  | None => (Raise ValueError, self)
  | Some c => (Ok (writer_for suffix, c), self)
  end.

(** [export_long]: [to_long_format] is called only while [long_df] is
    [None]; the frame written is [long_df]. *)
Definition export_long (suffix : string) (self : t)
  : result (writer * list long_row) * t :=
  match long_df self with
  | Some l => (Ok (writer_for suffix, l), self)
  | None =>
      match to_long_format self with
      | (Raise e, self') => (Raise e, self')
      | (Ok _, self') =>
          match long_df self' with
          | Some l => (Ok (writer_for suffix, l), self')
          | None => (Raise AttributeError, self')
          end
      end
  end.

(** ** [load_data] *)


(** ** [clean_data] *)

(** The columns that [meta_df] brings into [cleaned]. *)
Definition id_columns : list string := ["row_idx"; "freq"; "unit"; "tra_mode"; "geo"].

Fixpoint distinct (l : list string) : bool :=
  match l with
  | [] => true
  | x :: l' => negb (str_in x l') && distinct l'
  end.

(** Where the frame that [clean_data] builds is a list of [cleaned_row]:
    some key was parsed (the frame has the key columns), there is a period
    and the period labels are distinct and none is the label of a key column
    (each period gets a column of its own), and every source row has one
    cell per period. *)
Definition frame_in_model (ys : list string) (rows : list raw_row)
  (meta_df : list meta_row) : bool :=
  match meta_df, ys with
  | _ :: _, _ :: _ =>
      distinct ys
      && forallb (fun y => negb (str_in y id_columns)) ys
      && forallb (fun r => (List.length (raw_cells r) =? List.length ys)%nat) rows
  | _, _ => false
  end.

(** The figures that [clean_data] prints. *)
Record clean_report : Type := mk_clean_report {
  total_cells : Z;
  valid_values : Z;
  pct_complete : float
}.

(** [cleaned[year] = self.df[year].apply(self.clean_value)]: pandas aligns
    the new column on the index of [cleaned], which numbers the parsed keys
    from 0; the row at position [i] of [cleaned] receives the cleaned cells
    of the source row at position [i]. *)
Definition assign_years (meta_df : list meta_row) (rows : list raw_row)
  : list cleaned_row :=
  map (fun mr => mk_cleaned_row (fst mr) (map clean_value (raw_cells (snd mr))))
      (combine meta_df rows).

(** [clean_data] after [load_data]: the frame returned with the figures
    printed, and the instance with [cleaned_df] set.  [None] where the frame
    is no list of [cleaned_row] (see [frame_in_model]). *)
Definition clean_data (self : t)
  : option (result (list cleaned_row * clean_report) * t) :=
  match df self with
  | None => Some (Raise AttributeError, self)
  | Some rows =>
      match parse_metadata_loop rows 0 [] with
      | Raise e => Some (Raise e, self)
      | Ok meta_df =>
          match year_cols self with
          | None => None
          | Some ys =>
              if frame_in_model ys rows meta_df then
                let cleaned := assign_years meta_df rows in
                let total := Z.of_nat (List.length cleaned) * Z.of_nat (List.length ys) in
                let non_null :=
                  Z.of_nat (List.length
                              (filter notna (List.concat (map cells cleaned)))) in
                Some (Ok (cleaned,
                          mk_clean_report total non_null
                            (mul (div (of_Z non_null) (of_Z total)) (of_Z 100))),
                      set_cleaned_df cleaned self)
              else None
          end
      end
  end.

End EurostatCleaner.

(* ================================================================== *)
(** * [main] of [clean_eurostat.py] *)

Module Main.
Import PyStr PyFloat EurostatCleaner.



Definition values (o : option (list string)) : list string :=
  match o with
  | Some l => l
  | None => []
  end.







End Main.

(* ================================================================== *)
(** * [analyze_eurostat.py] *)

Module AnalyzeEurostat.
Import PyStr PyFloat.

(** [parse_eurostat_header]: exactly four parts, the last one cut at the
    first backslash; [None] otherwise. *)
Definition parse_eurostat_header (header_str : string) : option dims :=
  match split "," header_str with
  | [freq; unit; tra_mode; geo] =>
      Some (mk_dims freq unit tra_mode (hd "" (split "\" geo)))
  | _ => None
  end.

(** The character class [[a-z :]]. *)
Definition flag_class (c : ascii) : bool :=
  is_lower c || Ascii.eqb c " " || Ascii.eqb c ":".

(** [clean_eurostat_value]: only a string has [strip]. *)
Definition clean_eurostat_value (v : pyvalue) : result (option float) :=
  if isna v then Ok None
  else
    match v with
    | Str s =>
        if String.eqb (strip s) "" || contains ":" s then Ok None
        else
          match float_of_str (re_sub_class flag_class (strip s)) with
          | Ok f => Ok (Some f)
          | Raise _ => Ok None
          end
    | _ => Raise AttributeError
    end.

(** Lines 159-168 of [analyze_eurostat_file]: the trend between the first
    and the last period column of [numeric_df]. *)
Definition analyze_eurostat_file_trend (first_col last_col : list (option float))
  : option (float * float * float * float) :=
  let first_year_values := dropna first_col in
  let last_year_values := dropna last_col in
  match first_year_values, last_year_values with
  | _ :: _, _ :: _ =>
      let change := sub (Stats.mean last_year_values) (Stats.mean first_year_values) in
      let pct_change := mul (div change (Stats.mean first_year_values)) (of_Z 100) in
      Some (Stats.mean first_year_values, Stats.mean last_year_values, change, pct_change)
  | _, _ => None
  end.

(** Lines 57-67 of [analyze_eurostat_file]: the fields of the keys with
    four parts or more, as they stand. *)
Fixpoint analyze_eurostat_file_meta (keys : list string) : list dims :=
  match keys with
  | [] => []
  | meta_str :: keys' =>
      let parts := split "," meta_str in
      if (4 <=? List.length parts)%nat then
        mk_dims (nth 0 parts "") (nth 1 parts "") (nth 2 parts "") (nth 3 parts "")
        :: analyze_eurostat_file_meta keys'
      else analyze_eurostat_file_meta keys'
  end.

(** The four counters of lines 90-108. *)
Record quality : Type := mk_quality {
  missing_count : nat;
  estimated_count : nat;
  break_count : nat;
  valid_count : nat
}.

(** The body of the inner loop for one cell. *)
Definition quality_step (q : quality) (val : pyvalue) : quality :=
  let val_str := strip (py_str val) in
  if contains ":" val_str || String.eqb val_str "nan" || String.eqb val_str "" then
    mk_quality (S (missing_count q)) (estimated_count q) (break_count q) (valid_count q)
  else if contains "e" val_str then
    mk_quality (missing_count q) (S (estimated_count q)) (break_count q) (S (valid_count q))
  else if contains "b" val_str then
    mk_quality (missing_count q) (estimated_count q) (S (break_count q)) (S (valid_count q))
  else
    mk_quality (missing_count q) (estimated_count q) (break_count q) (S (valid_count q)).

(** Lines 90-108 of [analyze_eurostat_file]: the loop over the period
    columns and, in each, over its cells. *)
Definition analyze_eurostat_file_quality (year_columns : list (list pyvalue)) : quality :=
  fold_left (fun q col => fold_left quality_step col q) year_columns
            (mk_quality 0 0 0 0).

(** ** [analyze_eurostat_file] as a whole *)

(** [f"{val:>8s}"]: the format code [s] is for strings only; the model
    keeps the string that is padded. *)
Definition format_s (val : pyvalue) : result string :=
  match val with
  | Str s => Ok s
  | _ => Raise ValueError
  end.

(** [row[year]] for the period column at position [j]. *)
Definition cell (j : nat) (row : EurostatCleaner.raw_row) : result pyvalue :=
  match nth_error (EurostatCleaner.raw_cells row) j with
  | Some v => Ok v
  | None => Raise KeyError
  end.

(** Lines 123-135 for one row: the country and, for the last three
    periods, the label and the cell as printed. *)
Definition sample_line (year_cols : list string) (row : EurostatCleaner.raw_row)
  : result (string * list (string * string)) :=
  match EurostatCleaner.key row with
  | Str meta =>
      let country := if contains "," meta then last (split "," meta) "" else "Unknown" in
      let n := List.length year_cols in
      let recent_years := skipn (n - 3) (combine (seq 0 n) year_cols) in
      recent_values <- mapM (fun jy => cell (fst jy) row) recent_years ;;
      shown <- mapM format_s recent_values ;;
      Ok (country, combine (map snd recent_years) shown)
  | _ => Raise TypeError
  end.

(** One line of the year-by-year statistics (lines 148-152). *)
Record year_row : Type := mk_year_row {
  Year : string;
  Count : nat;
  Mean : float;
  Median : float;
  Min : float;
  Max : float
}.

Definition year_line (yc : string * list (option float)) : list year_row :=
  match dropna (snd yc) with
  | [] => []
  | (_ :: _) as values =>
      [ mk_year_row (fst yc) (List.length values) (Stats.mean values)
          (Stats.median values) (Stats.min values) (Stats.max values) ]
  end.

(** What the function prints and returns; [numeric_df] by columns. *)
Record analysis : Type := mk_analysis {
  meta_df : list dims;
  counts : quality;
  total_cells : nat;
  sample : list (string * list (string * string));
  numeric_df : list (list (option float));
  year_lines : list year_row;
  trend : option (float * float * float * float)
}.

(** [analyze_eurostat_file], given the frame that [pd.read_csv] returns:
    its column labels and its rows. *)
Definition analyze_eurostat_file (columns : list string)
  (rows : list EurostatCleaner.raw_row) : result analysis :=
  match columns with
  | [] => Raise IndexError
  | metadata_col :: year_cols =>
      match year_cols with
      | [] => Raise IndexError
      | _ :: _ =>
          keys <- mapM (fun row =>
                          match EurostatCleaner.key row with
                          | Str meta_str => Ok meta_str
                          | _ => Raise AttributeError
                          end) rows ;;
          match analyze_eurostat_file_meta keys with
          | [] => Raise KeyError
          | (_ :: _) as parsed_data =>
              year_columns <- mapM (fun j => mapM (cell j) rows)
                                   (seq 0 (List.length year_cols)) ;;
              let q := analyze_eurostat_file_quality year_columns in
              let total := (List.length rows * List.length year_cols)%nat in
              lines <- mapM (sample_line year_cols) (firstn 10 rows) ;;
              numeric <- mapM (mapM clean_eurostat_value) year_columns ;;
              Ok (mk_analysis parsed_data q total lines numeric
                    (flat_map year_line (combine year_cols numeric))
                    (analyze_eurostat_file_trend (hd [] numeric) (last numeric [])))
          end
      end
  end.

End AnalyzeEurostat.

(* ================================================================== *)
(** * Notions used in the statements *)

Import PyStr PyFloat EurostatCleaner.

(** An instance after [load_data] and [clean_data]. *)
Definition cleaned_instance (path : string) (rows : list raw_row)
  (ys : list string) (c : list cleaned_row) : t :=
  mk_t path (Some rows) (Some "key") (Some ys) (Some c) None.

(** An instance after [load_data] on a file with the given lines. *)
Definition loaded_instance (path : string) (header : string)
  (ys : list string) (rows : list raw_row) : t :=
  mk_t path (Some rows) (Some header) (Some ys) None None.

(** The rows of a source file whose keys are the given strings. *)
Definition rows_of_keys (l : list (string * list pyvalue)) : list raw_row :=
  map (fun kc => mk_raw_row (Str (fst kc)) (snd kc)) l.

(** The keys of a file with the index of their row. *)
Definition indexed_keys (l : list (string * list pyvalue)) : list (Z * string) :=
  combine (map Z.of_nat (seq 0 (List.length l))) (map fst l).

(** The record of a key with four parts or more. *)
Definition record_of_key (ik : Z * string) : meta_row :=
  let parts := split "," (snd ik) in
  mk_meta_row (fst ik)
    (mk_dims (strip (nth 0 parts "")) (strip (nth 1 parts ""))
             (strip (nth 2 parts "")) (strip (nth 3 parts ""))).

Definition has_four_parts (ik : Z * string) : bool :=
  (4 <=? List.length (split "," (snd ik)))%nat.

(** A cleaned table over the periods [ys]: every row has one cell per
    period. *)
Definition well_formed (ys : list string) (c : list cleaned_row) : Prop :=
  Forall (fun r => List.length (cells r) = List.length ys) c.

(** The period column at position [j] of a cleaned table. *)
Definition col (j : nat) (c : list cleaned_row) : list (option float) :=
  map (fun r => nth j (cells r) None) c.


(** The population standard deviation, as the specification names it: the
    squared deviations are divided by the count itself. *)
Definition population_std (l : list float) : float := sqrt (Stats.var 0 l).

(** The sample standard deviation: the squared deviations are divided by the
    count less one, and one value alone has none. *)
Definition sample_std (l : list float) : float :=
  match l with
  | [] | [_] => S754_nan
  | _ =>
      sqrt (div (Stats.sum (map (fun x => Stats.sq (sub (Stats.mean l) x)) l))
                (of_Z (Z.of_nat (List.length l) - 1)))
  end.

(** The line of the year-over-year table for the period [y] at position
    [j], if the column has a value. *)
Definition year_line (c : list cleaned_row) (jy : nat * string) : list year_stats :=
  match dropna (col (fst jy) c) with
  | [] => []
  | v => [mk_year_stats (snd jy) (List.length v) (Stats.mean v) (Stats.median v)
            (sample_std v)]
  end.

(** The values of the rows whose dimension [dim] is [k], row after row. *)
Definition group_values (dim : dims -> string) (c : list cleaned_row) (k : string)
  : list float :=
  dropna (List.concat
            (map cells (filter (fun r => String.eqb (dim (id_vars (meta r))) k) c))).

(** The line of a dimension table for the group [k], if it has a value. *)
Definition group_line (dim : dims -> string) (c : list cleaned_row) (k : string)
  : list stats_row :=
  match group_values dim c k with
  | [] => []
  | v => [mk_stats_row k (List.length v) (Stats.mean v) (Stats.median v)
            (Stats.min v) (Stats.max v)]
  end.

(** The periods are written as integers that fit the column of years. *)
Definition integer_labels (ys : list string) : Prop :=
  Forall (fun y => exists z, PyInt.to_int64 y = Ok z) ys.

(** The integer of a period label (0 for a label that is none). *)
Definition period_of (y : string) : Z :=
  match PyInt.to_int64 y with
  | Ok z => z
  | Raise _ => 0
  end.

(** The number of cells of a cleaned table that hold a value. *)
Definition non_missing (c : list cleaned_row) : nat :=
  List.length (filter notna (List.concat (map cells c))).

(** The observation a cleaned cell stands for, if it holds a value. *)
Definition observation (d : dims) (y : string) (v : option float) : list long_row :=
  match v with
  | Some f => if is_nan f then [] else [mk_long_row d (period_of y) f]
  | None => []
  end.

(** The observations of a cleaned table, row after row and period after
    period. *)
Definition observations (ys : list string) (c : list cleaned_row) : list long_row :=
  flat_map (fun r =>
              flat_map (fun yv => observation (id_vars (meta r)) (fst yv) (snd yv))
                       (combine ys (cells r))) c.

Definition dims_eqb (a b : dims) : bool :=
  String.eqb (freq a) (freq b) && String.eqb (unit a) (unit b)
  && String.eqb (tra_mode a) (tra_mode b) && String.eqb (geo a) (geo b).

(** The values of the long rows grouped under the dimensions [d] and the
    period [p]. *)
Definition long_values_at (d : dims) (p : Z) (l : list long_row) : list float :=
  map value (filter (fun r => dims_eqb (long_id r) d && (year r =? p)) l).

(** The values that the cleaned table holds for the dimensions [d] in the
    periods whose integer is [p]. *)
Definition cleaned_values_at (ys : list string) (c : list cleaned_row) (d : dims) (p : Z)
  : list float :=
  dropna
    (flat_map (fun r =>
                 if dims_eqb (id_vars (meta r)) d then
                   map snd (filter (fun yv => period_of (fst yv) =? p)
                                   (combine ys (cells r)))
                 else []) c).

(** The order of the long table: by [geo], then [tra_mode], then [year]. *)
Definition key_le (a b : long_row) : Prop :=
  String.compare (geo (long_id a)) (geo (long_id b)) = Lt \/
  (geo (long_id a) = geo (long_id b) /\
   (String.compare (tra_mode (long_id a)) (tra_mode (long_id b)) = Lt \/
    (tra_mode (long_id a) = tra_mode (long_id b) /\ year a <= year b))).

(** The table that [melt] builds: period after period from position [j],
    and under each period row after row. *)
Definition melted (j : nat) (ys : list string) (c : list cleaned_row)
  : list (dims * string * option float) :=
  flat_map (fun jy =>
              map (fun r => (id_vars (meta r), snd jy, nth (fst jy) (cells r) None)) c)
           (combine (seq j (List.length ys)) ys).

(** A float whose [str] is written in positional notation: a zero, or a
    finite number whose decimal point position lies between -3 and 16. *)
Definition positional (v : float) : bool :=
  match v with
  | S754_zero _ => true
  | S754_finite _ m e =>
      negb ((snd (shortest m e) <=? -4) || (16 <? snd (shortest m e)))
  | _ => false
  end.

Fixpoint all_chars (p : ascii -> bool) (s : string) : bool :=
  match s with
  | EmptyString => true
  | String c s' => p c && all_chars p s'
  end.

(** The characters of a numeral in positional notation. *)
Definition plain_char (c : ascii) : bool :=
  is_digit c || Ascii.eqb c "." || Ascii.eqb c "-".

(** A file whose only row has a key of three parts, and a file without
    rows. *)
Definition short_key_instance : t :=
  loaded_instance "estat.csv" "key" ["2020"] [mk_raw_row (Str "A,B,C") [Str "10"]].

Definition no_row_instance : t :=
  loaded_instance "estat.csv" "key" ["2020"] [].

(** Sample tables. *)
Definition row_of (g m : string) (i : Z) (vs : list (option float)) : cleaned_row :=
  mk_cleaned_row (mk_meta_row i (mk_dims "A" "PC" m g)) vs.

Definition sample_geo : list cleaned_row :=
  [ row_of "BE" "IWW" 0 [Some (of_Z 10); Some (of_Z 10); None];
    row_of "NL" "RAIL" 1 [Some (of_Z 20); None; Some (of_Z 30)];
    row_of "DE" "ROAD" 2 [None; Some (of_Z 5); Some (of_Z 7)] ].

Definition sample_instance : t :=
  cleaned_instance "estat.csv" [] ["2020"; "2021"; "2022"] sample_geo.


Definition spread_instance : t :=
  cleaned_instance "estat.csv" [] ["2020"; "2021"]
    [ row_of "BE" "IWW" 0 [Some (of_Z 0); Some (of_Z 5)];
      row_of "NL" "IWW" 1 [Some (of_Z 2); None];
      row_of "DE" "IWW" 2 [Some (of_Z 4); None] ].

(** ** Notions for the further properties *)

(** How often the character [c] stands in [s]. *)
Fixpoint count_char (c : ascii) (s : string) : nat :=
  match s with
  | EmptyString => O
  | String d s' => if Ascii.eqb d c then S (count_char c s') else count_char c s'
  end.

(** A field as [parse_metadata] leaves it: no white space at either end and
    no comma. *)
Definition trimmed_field (f : string) : Prop :=
  strip f = f /\ contains "," f = false.

Definition trimmed_dims (d : dims) : Prop :=
  trimmed_field (freq d) /\ trimmed_field (unit d) /\
  trimmed_field (tra_mode d) /\ trimmed_field (geo d).

Definition strip_dims (d : dims) : dims :=
  mk_dims (strip (freq d)) (strip (unit d)) (strip (tra_mode d)) (strip (geo d)).

(** The key of a source row, when it is a string. *)
Definition key_string (r : raw_row) : option string :=
  match key r with
  | Str k => Some k
  | _ => None
  end.

Definition is_letter (c : ascii) : bool := is_lower c || is_upper c.

(** The sum of a list of counts. *)
Definition total (l : list nat) : nat := fold_right Nat.add O l.

(** A file whose second row has an empty key cell. *)
Definition missing_key_rows : list raw_row :=
  [mk_raw_row (Str "A,PC,IWW,BE") [Str "10"]; mk_raw_row NA [Str "11"]].

Definition missing_key_instance : t :=
  loaded_instance "estat.csv" "key" ["2020"] missing_key_rows.

(** A table whose first period holds no value. *)
Definition empty_first_period_instance : t :=
  cleaned_instance "estat.csv" [] ["2020"; "2021"]
    [row_of "BE" "IWW" 0 [None; Some (of_Z 10)]].

(** A file whose first key has three parts only, after [load_data]. *)
Definition skipped_first_rows : list raw_row :=
  [mk_raw_row (Str "A,PC,IWW") [Str "1"]; mk_raw_row (Str "A,PC,IWW,BE") [Str "2"]].

Definition skipped_first_instance : t :=
  loaded_instance "estat.csv" "key" ["2020"] skipped_first_rows.

(** The frame of the file of one row [A,PC,IWW,BE] with the cells [10],
    [10 e] and [:] under the periods 2020 to 2022. *)
Definition example_columns : list string := ["key"; "2020 "; "2021 "; "2022"].


(** A cleaned table in which one country has no value at all. *)
Definition silent_country_instance : t :=
  cleaned_instance "estat.csv" [] ["2020"; "2021"]
    [ row_of "NL" "RAIL" 0 [Some (of_Z 20); None];
      row_of "XK" "RAIL" 1 [None; None];
      row_of "BE" "IWW" 2 [None; Some (of_Z 10)] ].




(** A file of two countries and the call
    [clean_eurostat.py estat.csv -g be -o out.csv --long --stats]. *)
Definition two_country_rows : list raw_row :=
  [ mk_raw_row (Str "A,PC,IWW,BE") [Str "10"; Str "10 e"; Str ":"];
    mk_raw_row (Str "A,PC,RAIL,NL") [Str "20"; Str ":"; Str "30 p"] ].


(** The frame of a file: every row has one cell per period column. *)
Definition rectangular (columns : list string) (rows : list raw_row) : Prop :=
  Forall (fun r => List.length (raw_cells r) = (List.length columns - 1)%nat) rows.

(** A cell that [read_csv] left as text. *)
Definition is_text (v : pyvalue) : Prop := exists s, v = Str s.

(** The cells of a row under the last three periods. *)
Definition recent_cells (r : raw_row) : list pyvalue :=
  skipn (List.length (raw_cells r) - 3) (raw_cells r).

(** The two-country file with the cell of NL under 2021 left empty. *)
Definition empty_cell_rows : list raw_row :=
  [ mk_raw_row (Str "A,PC,IWW,BE") [Str "10"; Str "10 e"; Str ":"];
    mk_raw_row (Str "A,PC,RAIL,NL") [Str "20"; NA; Str "30 p"] ].

(** A file of three rows whose second key has three parts only, the third
    one padded fields and a fifth part. *)
Definition mixed_keys_rows : list raw_row :=
  [ mk_raw_row (Str "A,PC,IWW,BE") [Str "10"];
    mk_raw_row (Str "A,B,C") [Str "20"];
    mk_raw_row (Str " A , PC , RAIL , NL ,x") [Str "30"] ].

Definition mixed_keys_instance : t :=
  loaded_instance "estat.csv" "key" ["2020"] mixed_keys_rows.

(** The numeral [M * 10^E] is the number [m * 2^e], written without
    fractions. *)
Definition same_value (m : positive) (e : Z) (M E : Z) : Prop :=
  Zpos m * 2 ^ Z.max e 0 * 10 ^ Z.max (- E) 0 = M * 10 ^ Z.max E 0 * 2 ^ Z.max (- e) 0.

(** The number that the digits of [s] write after the digits of [acc]. *)
Fixpoint read_digits (s : string) (acc : Z) : Z :=
  match s with
  | String c s' => read_digits s' (10 * acc + digit_val c)
  | EmptyString => acc
  end.

(* ================================================================== *)
(** * Properties *)

(** ** Before [clean_data] *)

(** C10. On an instance whose [cleaned_df] is still [None], each of
    [filter_geo], [filter_mode], [to_long_format], [summary_stats] and
    [analyze_trends] raises [ValueError] and leaves the instance as it
    was. *)
Theorem not_cleaned_raises_ValueError :
  forall (self : t) (countries modes : list string),
    cleaned_df self = None ->
    filter_geo countries self = (Raise ValueError, self) /\
    filter_mode modes self = (Raise ValueError, self) /\
    to_long_format self = (Raise ValueError, self) /\
    summary_stats self = (Raise ValueError, self) /\
    analyze_trends self = (Raise ValueError, self).
Proof.
  intros self countries modes H.
  unfold filter_geo, filter_mode, to_long_format, summary_stats, analyze_trends.
  rewrite H. repeat split.
Qed.

Lemma not_cleaned_raises_ValueError_witness :
  cleaned_df (init "estat.csv") = None /\
  to_long_format (init "estat.csv") = (Raise ValueError, init "estat.csv") /\
  filter_geo ["BE"] (init "estat.csv") = (Raise ValueError, init "estat.csv").
Proof.
  split; [reflexivity|].
  destruct (not_cleaned_raises_ValueError (init "estat.csv") ["BE"] ["IWW"] eq_refl)
    as (Hg & _ & Hl & _).
  split; assumption.
Defined.

(** ** Unavailable cells *)

(** [clean_eurostat_value] of the analysis script returns [None] for every
    string with the marker [:]. *)
Lemma clean_eurostat_value_marker :
  forall s : string,
    contains ":" s = true ->
    AnalyzeEurostat.clean_eurostat_value (Str s) = Ok None.
Proof.
  intros s H. unfold AnalyzeEurostat.clean_eurostat_value. simpl.
  rewrite H, orb_true_r. reflexivity.
Qed.

(** C1. [EurostatCleaner.clean_value] on the cell [1:2], which contains the
    marker [:], returns the number 12.0 and not [None]; the sibling
    [clean_eurostat_value] returns [None] there. *)
Theorem clean_value_marker_parsed :
  contains ":" "1:2" = true /\
  clean_value (Str "1:2") = Some (of_Z 12) /\
  AnalyzeEurostat.clean_eurostat_value (Str "1:2") = Ok None.
Proof.
  repeat split; vm_compute; reflexivity.
Qed.

(** ** Decomposition of the key *)

(** [parse_eurostat_header] on a key of exactly four parts keeps of the
    fourth what stands before the first backslash. *)
Lemma parse_eurostat_header_four :
  forall key a b c g : string,
    split "," key = [a; b; c; g] ->
    AnalyzeEurostat.parse_eurostat_header key =
      Some (mk_dims a b c (hd "" (split "\" g))).
Proof.
  intros key a b c g H. unfold AnalyzeEurostat.parse_eurostat_header.
  rewrite H. reflexivity.
Qed.

(** C2. [EurostatCleaner.parse_metadata] on the key [A,B,C,GEO\2023] keeps
    the whole fourth field [GEO\2023] as [geo]; [parse_eurostat_header]
    cuts it to [GEO]. *)
Theorem parse_metadata_keeps_suffix :
  fst (parse_metadata
         (loaded_instance "estat.csv" "key" ["2023"]
            [mk_raw_row (Str "A,B,C,GEO\2023") [Str "10"]])) =
    Ok [mk_meta_row 0 (mk_dims "A" "B" "C" "GEO\2023")] /\
  AnalyzeEurostat.parse_eurostat_header "A,B,C,GEO\2023" =
    Some (mk_dims "A" "B" "C" "GEO").
Proof.
  split; vm_compute; reflexivity.
Qed.

(** One pass of the loop of [parse_metadata]: a key of four parts or more
    adds its record, any other key adds nothing, and the loop goes on. *)
Lemma parse_metadata_loop_keys :
  forall (l : list (string * list pyvalue)) (idx : Z) (parsed : list meta_row),
    parse_metadata_loop (rows_of_keys l) idx parsed =
    Ok (parsed ++
        map record_of_key
          (filter has_four_parts
             (combine (map (fun i => idx + Z.of_nat i) (seq 0 (List.length l)))
                      (map fst l))))%list.
Proof.
  induction l as [|[k cs] l IH]; intros idx parsed.
  - simpl. rewrite app_nil_r. reflexivity.
  - cbn [rows_of_keys map parse_metadata_loop key fst snd List.length seq combine].
    fold (rows_of_keys l). rewrite IH.
    rewrite <- seq_shift, map_map.
    replace (map (fun i => idx + 1 + Z.of_nat i) (seq 0 (List.length l)))
      with (map (fun i => idx + Z.of_nat (S i)) (seq 0 (List.length l)))
      by (apply map_ext; intros; lia).
    rewrite Z.add_0_r.
    cbn [filter]. unfold parse_metadata_step, has_four_parts at 2. cbn [snd].
    destruct (4 <=? List.length (split "," k))%nat.
    + rewrite <- app_assoc. reflexivity.
    + reflexivity.
Qed.

(** C3, the claim as stated fails: skipping a row counts nothing.  On a file
    whose only key [A,B,C] has three parts, [parse_metadata] returns what it
    returns on the file without that row, the empty frame, and the instance
    is as before; the loop body leaves its list as it was.  Nowhere is the
    skipped row counted. *)
Lemma parse_metadata_counts_no_skip :
  parse_metadata short_key_instance = (Ok [], short_key_instance) /\
  fst (parse_metadata short_key_instance) = fst (parse_metadata no_row_instance) /\
  parse_metadata_step [] 0 "A,B,C" = [].
Proof.
  repeat split.
Qed.

(** C3, amended.  Whatever the keys of the file, [parse_metadata] returns
    the records of exactly the keys with four comma-separated parts or more,
    in the order of the file, each with the index of its row and the first
    four parts trimmed; a key with fewer parts is left out and the rows
    after it are still parsed.  The instance is unchanged: no count of the
    skipped rows is kept. *)
Theorem parse_metadata_skips_and_continues :
  forall (path header : string) (ys : list string) (l : list (string * list pyvalue)),
    let self := loaded_instance path header ys (rows_of_keys l) in
    parse_metadata self =
      (Ok (map record_of_key (filter has_four_parts (indexed_keys l))), self).
Proof.
  intros path header ys l self. unfold parse_metadata, self, loaded_instance. cbn [df].
  rewrite parse_metadata_loop_keys. cbn [app]. unfold indexed_keys.
  do 4 f_equal. 
Qed.

(** The two cases of a key, read off the theorem on a file of one row
    followed by more rows. *)
Lemma parse_metadata_step_cases :
  forall (parsed : list meta_row) (idx : Z) (k : string),
    ((4 <= List.length (split "," k))%nat ->
       parse_metadata_step parsed idx k = (parsed ++ [record_of_key (idx, k)])%list) /\
    ((List.length (split "," k) < 4)%nat ->
       parse_metadata_step parsed idx k = parsed).
Proof.
  intros parsed idx k. unfold parse_metadata_step, record_of_key. cbn [fst snd].
  split; intros H.
  - apply Nat.leb_le in H. rewrite H. reflexivity.
  - apply Nat.leb_gt in H. rewrite H. reflexivity.
Qed.

(** ** Filters *)

Lemma str_in_In :
  forall (s : string) (l : list string), str_in s l = true <-> In s l.
Proof.
  intros s l. unfold str_in. rewrite existsb_exists. split.
  - intros (x & Hx & E). apply String.eqb_eq in E. subst. assumption.
  - intros H. exists s. split; [assumption | apply String.eqb_refl].
Qed.

(** Letter case does not matter: [upper] sends a lower-case letter to its
    capital and leaves the capital where it is. *)
Lemma upper_idempotent : forall s : string, upper (upper s) = upper s.
Proof.
  induction s as [|c s IH]; [reflexivity|].
  unfold upper in *. cbn [map_chars]. rewrite IH. f_equal.
  unfold upper_char at 1.
  destruct (is_lower (upper_char c)) eqn:E; [|reflexivity].
  exfalso. revert E. unfold upper_char.
  destruct c as [[] [] [] [] [] [] [] []]; vm_compute; discriminate.
Qed.

(** Two lists of allowed strings that differ in letter case only filter
    alike. *)
Lemma filter_geo_case_insensitive :
  forall (self : t) (a1 a2 : list string),
    map upper a1 = map upper a2 -> filter_geo a1 self = filter_geo a2 self.
Proof.
  intros self a1 a2 H. unfold filter_geo. rewrite H. reflexivity.
Qed.

(** C7. On a cleaned table, [filter_geo] (for the dimension [geo]) and
    [filter_mode] (for [tra_mode]) keep the rows, in their order, whose
    value in that dimension, put in upper case, is among the allowed strings
    put in upper case, and no other row; with no allowed string at all the
    table left is empty. *)
Theorem filter_retains_iff_allowed :
  forall (self : t) (c : list cleaned_row) (allowed : list string),
    cleaned_df self = Some c ->
    (exists keep : cleaned_row -> bool,
        (forall r, keep r = true <->
                   In (upper (geo (id_vars (meta r)))) (map upper allowed)) /\
        filter_geo allowed self = (Ok tt, set_cleaned_df (filter keep c) self) /\
        (forall r, In r (filter keep c) <->
                   In r c /\ In (upper (geo (id_vars (meta r)))) (map upper allowed)) /\
        (allowed = [] -> filter keep c = [])) /\
    (exists keep : cleaned_row -> bool,
        (forall r, keep r = true <->
                   In (upper (tra_mode (id_vars (meta r)))) (map upper allowed)) /\
        filter_mode allowed self = (Ok tt, set_cleaned_df (filter keep c) self) /\
        (forall r, In r (filter keep c) <->
                   In r c /\ In (upper (tra_mode (id_vars (meta r)))) (map upper allowed)) /\
        (allowed = [] -> filter keep c = [])).
Proof.
  intros self c allowed H. split.
  - exists (fun r => str_in (upper (geo (id_vars (meta r)))) (map upper allowed)).
    split; [intros r; apply str_in_In|].
    split; [unfold filter_geo; rewrite H; reflexivity|].
    split.
    + intros r. rewrite filter_In, str_in_In. reflexivity.
    + intros ->. clear H. induction c as [|r c IH]; [reflexivity|]. cbn. apply IH.
  - exists (fun r => str_in (upper (tra_mode (id_vars (meta r)))) (map upper allowed)).
    split; [intros r; apply str_in_In|].
    split; [unfold filter_mode; rewrite H; reflexivity|].
    split.
    + intros r. rewrite filter_In, str_in_In. reflexivity.
    + intros ->. clear H. induction c as [|r c IH]; [reflexivity|]. cbn. apply IH.
Qed.

Lemma filter_retains_iff_allowed_witness :
  cleaned_df sample_instance = Some sample_geo /\
  exists keep : cleaned_row -> bool,
    filter_geo ["be"; "nl"] sample_instance =
      (Ok tt, set_cleaned_df (filter keep sample_geo) sample_instance) /\
    (keep (row_of "DE" "ROAD" 2 [None; Some (of_Z 5); Some (of_Z 7)]) = true <->
     In "DE" ["BE"; "NL"]).
Proof.
  split; [reflexivity|].
  destruct (filter_retains_iff_allowed sample_instance sample_geo ["be"; "nl"] eq_refl)
    as [(keep & Hk & Hf & _) _].
  exists keep. split; [exact Hf|]. apply Hk.
Defined.

(** ** Loops that may raise *)

Lemma mapM_ok :
  forall (A B : Type) (f : A -> result B) (g : A -> B) (l : list A),
    (forall a, In a l -> f a = Ok (g a)) ->
    mapM f l = Ok (map g l).
Proof.
  intros A B f g l. induction l as [|a l IH]; intros H; [reflexivity|].
  cbn [mapM map]. rewrite (H a (or_introl eq_refl)). cbn [bind].
  rewrite IH by (intros b Hb; apply H; right; exact Hb). reflexivity.
Qed.

Lemma column_ok :
  forall (j : nat) (c : list cleaned_row),
    Forall (fun r => (j < List.length (cells r))%nat) c ->
    column j c = Ok (col j c).
Proof.
  intros j c H. unfold column, col. apply mapM_ok.
  intros r Hr. rewrite Forall_forall in H. specialize (H r Hr).
  destruct (nth_error (cells r) j) as [v|] eqn:E.
  - rewrite (nth_error_nth _ _ None E). reflexivity.
  - apply nth_error_None in E. lia.
Qed.

Lemma std_sample : forall l : list float, l <> [] -> Stats.std l = sample_std l.
Proof.
  intros [|x [|y l]] H; [contradiction H; reflexivity | reflexivity |].
  unfold Stats.std, Stats.var, sample_std.
  replace (Z.of_nat (List.length (x :: y :: l)) <=? 1) with false; [reflexivity|].
  symmetry. apply Z.leb_gt. cbn [List.length]. lia.
Qed.

Lemma yearly_from_ok :
  forall (ys : list string) (j : nat) (c : list cleaned_row),
    Forall (fun r => (j + List.length ys <= List.length (cells r))%nat) c ->
    yearly_from j ys c =
      Ok (flat_map (year_line c) (combine (seq j (List.length ys)) ys)).
Proof.
  induction ys as [|y ys IH]; intros j c H; [reflexivity|].
  cbn [yearly_from List.length seq combine flat_map].
  rewrite column_ok.
  2:{ eapply Forall_impl; [|exact H]. cbn. intros r Hr. cbn in Hr. lia. }
  cbn [bind]. rewrite IH.
  2:{ eapply Forall_impl; [|exact H]. cbn. intros r Hr. cbn in Hr. lia. }
  cbn [bind].
  assert (Hl : year_line c (j, y) =
               match dropna (col j c) with
               | [] => []
               | v => [mk_year_stats y (List.length v) (Stats.mean v)
                         (Stats.median v) (sample_std v)]
               end) by reflexivity.
  rewrite Hl. clear Hl.
  destruct (dropna (col j c)) as [|v vs] eqn:E; [reflexivity|].
  rewrite std_sample by discriminate. reflexivity.
Qed.

(** ** Trend *)





(** The trend block of [analyze_eurostat_file] divides in the same way. *)
Lemma analyze_eurostat_file_trend_zero_baseline :
  AnalyzeEurostat.analyze_eurostat_file_trend [Some (of_Z 0)] [Some (of_Z 10)] =
    Some (S754_zero false, of_Z 10, of_Z 10, S754_infinity false).
Proof. vm_compute. reflexivity. Qed.

(** ** Aggregates *)

Lemma select_years_ok :
  forall (n : nat) (c : list cleaned_row),
    Forall (fun r => List.length (cells r) = n) c ->
    select_years n c = Ok (map cells c).
Proof.
  intros n c H. unfold select_years. apply mapM_ok.
  intros r Hr. rewrite Forall_forall in H. specialize (H r Hr).
  rewrite <- H, Nat.leb_refl, firstn_all. reflexivity.
Qed.

Lemma group_stats_ok :
  forall (dim : dims -> string) (n : nat) (c : list cleaned_row),
    Forall (fun r => List.length (cells r) = n) c ->
    group_stats dim n c =
      Ok (flat_map (group_line dim c)
            (sorted_unique (map (fun r => dim (id_vars (meta r))) c))).
Proof.
  intros dim n c H. unfold group_stats.
  rewrite (mapM_ok _ _ _ (group_line dim c)).
  - cbn [bind]. rewrite <- flat_map_concat_map. reflexivity.
  - intros k _. rewrite select_years_ok.
    + cbn [bind]. unfold group_line, group_values.
      destruct (dropna _); reflexivity.
    + rewrite Forall_forall in *. intros r Hr. apply H.
      apply filter_In in Hr. tauto.
Qed.

(** A lone value has no sample deviation: [std] gives NaN, where the
    population deviation is zero. *)
Lemma std_single : forall x : float, Stats.std [x] = S754_nan.
Proof. reflexivity. Qed.

(** C6, the claim as stated fails: the deviation printed is not the
    population one.  With the values 0, 2, 4 in 2020 and the single value 5
    in 2021, [analyze_trends] prints the deviations 2.0 and NaN; the
    population deviations are the square root of 8/3 and 0. *)
Lemma std_dev_is_not_population :
  exists l1 l2 tr,
    analyze_trends spread_instance = (Ok ([l1; l2], tr), spread_instance) /\
    Std_Dev l1 = of_Z 2 /\
    population_std (dropna (col 0 (row_of "BE" "IWW" 0 [Some (of_Z 0); Some (of_Z 5)]
                                   :: row_of "NL" "IWW" 1 [Some (of_Z 2); None]
                                   :: row_of "DE" "IWW" 2 [Some (of_Z 4); None] :: nil)))
      <> of_Z 2 /\
    Std_Dev l2 = S754_nan /\
    population_std [of_Z 5] = S754_zero false.
Proof.
  do 3 eexists. split; [vm_compute; reflexivity|].
  cbn [Std_Dev]. repeat split.
  vm_compute. discriminate.
Qed.

(** C6, amended.  On a cleaned table with at least one period,
    [analyze_trends] prints for each period with a value, in the order of
    the periods, the count, the mean, the median and the sample standard
    deviation (divisor: count less one, NaN for a single value), and
    [summary_stats] gives for each country and for each transport mode with
    a value, in sorted order, the count, the mean, the median, the minimum
    and the maximum, without a standard deviation. *)
Theorem aggregation_reports :
  forall (self : t) (c : list cleaned_row) (ys : list string),
    cleaned_df self = Some c ->
    year_cols self = Some ys ->
    ys <> [] ->
    well_formed ys c ->
    (exists tr,
        analyze_trends self =
          (Ok (flat_map (year_line c) (combine (seq 0 (List.length ys)) ys), tr), self)) /\
    (exists nc nm,
        summary_stats self =
          (Ok (mk_summary nc nm (List.length ys)
                 (flat_map (group_line geo c)
                    (sorted_unique (map (fun r => geo (id_vars (meta r))) c)))
                 (flat_map (group_line tra_mode c)
                    (sorted_unique (map (fun r => tra_mode (id_vars (meta r))) c)))),
           self)) /\
    (forall x, sample_std [x] = S754_nan).
Proof.
  intros self c ys Hc Hy Hne Hwf. split; [|split; [|reflexivity]].
  - unfold analyze_trends. rewrite Hc, Hy.
    rewrite yearly_from_ok.
    2:{ eapply Forall_impl; [|exact Hwf]. cbn. intros r Hr. lia. }
    cbn [bind].
    destruct ys as [|fy ys']; [contradiction Hne; reflexivity|].
    rewrite !column_ok.
    2,3: eapply Forall_impl; [|exact Hwf]; cbn; intros r Hr; lia.
    cbn [bind]. eexists. reflexivity.
  - unfold summary_stats. rewrite Hc, Hy.
    rewrite !group_stats_ok by exact Hwf.
    cbn [bind]. do 2 eexists. reflexivity.
Qed.

Lemma aggregation_reports_witness :
  exists tr,
    analyze_trends spread_instance =
      (Ok ([mk_year_stats "2020" 3 (of_Z 2) (of_Z 2) (of_Z 2);
            mk_year_stats "2021" 1 (of_Z 5) (of_Z 5) S754_nan], tr),
       spread_instance).
Proof.
  assert (Hwf : well_formed ["2020"; "2021"]
                  [row_of "BE" "IWW" 0 [Some (of_Z 0); Some (of_Z 5)];
                   row_of "NL" "IWW" 1 [Some (of_Z 2); None];
                   row_of "DE" "IWW" 2 [Some (of_Z 4); None]])
    by (repeat constructor).
  destruct (aggregation_reports spread_instance _ ["2020"; "2021"]
              eq_refl eq_refl ltac:(discriminate) Hwf) as ((tr & Ha) & _).
  exists tr. exact Ha.
Defined.

(** ** Sorting *)

Section Sort.
Variable A : Type.
Variable le : A -> A -> bool.
Hypothesis le_total : forall a b, le a b = false -> le b a = true.
Hypothesis le_trans : forall a b c, le a b = true -> le b c = true -> le a c = true.

Lemma insert_perm : forall (x : A) (l : list A), Permutation (Stats.insert le x l) (x :: l).
Proof.
  intros x l. induction l as [|y l IH]; [reflexivity|].
  cbn [Stats.insert]. destruct (le x y); [reflexivity|].
  rewrite IH. apply perm_swap.
Qed.

Lemma sort_perm : forall l : list A, Permutation (Stats.sort le l) l.
Proof.
  induction l as [|x l IH]; [reflexivity|].
  cbn [Stats.sort]. rewrite insert_perm. constructor. exact IH.
Qed.

Lemma insert_sorted :
  forall (x : A) (l : list A),
    StronglySorted (fun a b => le a b = true) l ->
    StronglySorted (fun a b => le a b = true) (Stats.insert le x l).
Proof.
  intros x l H. induction H as [|y l Hs IH Hy]; cbn [Stats.insert].
  - repeat constructor.
  - destruct (le x y) eqn:E.
    + constructor; [constructor; assumption|].
      constructor; [exact E|].
      eapply Forall_impl; [|exact Hy]. intros z Hz. eapply le_trans; eassumption.
    + constructor; [exact IH|].
      rewrite (insert_perm x l). constructor; [apply le_total; exact E | exact Hy].
Qed.

Lemma sort_sorted :
  forall l : list A, StronglySorted (fun a b => le a b = true) (Stats.sort le l).
Proof.
  induction l as [|x l IH]; [constructor|].
  cbn [Stats.sort]. apply insert_sorted. exact IH.
Qed.
End Sort.

(** ** The order of the long table *)

Lemma str_compare_refl : forall s : string, String.compare s s = Eq.
Proof. intros s. apply OrderedTypeEx.String_as_OT.cmp_eq. reflexivity. Qed.

Lemma str_compare_cases :
  forall a b : string,
    (String.compare a b = Lt /\ String.compare b a = Gt) \/
    (a = b /\ String.compare a b = Eq) \/
    (String.compare a b = Gt /\ String.compare b a = Lt).
Proof.
  intros a b. destruct (String.compare a b) eqn:E.
  - right; left. split; [apply String.compare_eq_iff; exact E | reflexivity].
  - left. split; [reflexivity|]. rewrite String.compare_antisym, E. reflexivity.
  - right; right. split; [reflexivity|]. rewrite String.compare_antisym, E. reflexivity.
Qed.

Lemma str_lt_trans :
  forall a b c : string,
    String.compare a b = Lt -> String.compare b c = Lt -> String.compare a c = Lt.
Proof.
  intros a b c H1 H2.
  apply OrderedTypeEx.String_as_OT.cmp_lt.
  apply OrderedTypeEx.String_as_OT.lt_trans with b;
    apply OrderedTypeEx.String_as_OT.cmp_lt; assumption.
Qed.

Lemma str_lt_irrefl : forall a : string, String.compare a a <> Lt.
Proof. intros a. rewrite str_compare_refl. discriminate. Qed.

Lemma sort_key_leb_le :
  forall a b : long_row, sort_key_leb a b = true <-> key_le a b.
Proof.
  intros a b. unfold sort_key_leb, key_le.
  destruct (str_compare_cases (geo (long_id a)) (geo (long_id b)))
    as [(E & _) | [(Eg & E) | (E & _)]]; rewrite E.
  - tauto.
  - destruct (str_compare_cases (tra_mode (long_id a)) (tra_mode (long_id b)))
      as [(F & _) | [(Em & F) | (F & _)]]; rewrite F.
    + tauto.
    + rewrite Z.leb_le. split; [tauto|].
      intros [H | (_ & [H | (_ & H)])]; try discriminate. exact H.
    + split; [discriminate|].
      intros [H | (_ & [H | (Em & _)])]; try discriminate.
      rewrite Em, str_compare_refl in F. discriminate.
  - split; [discriminate|].
    intros [H | (Eg & _)]; try discriminate.
    rewrite Eg, str_compare_refl in E. discriminate.
Qed.

Lemma key_le_total :
  forall a b : long_row, sort_key_leb a b = false -> sort_key_leb b a = true.
Proof.
  intros a b. unfold sort_key_leb.
  destruct (str_compare_cases (geo (long_id a)) (geo (long_id b)))
    as [(E & E') | [(Eg & E) | (E & E')]]; rewrite E; try discriminate.
  - rewrite <- Eg, str_compare_refl.
    destruct (str_compare_cases (tra_mode (long_id a)) (tra_mode (long_id b)))
      as [(F & F') | [(Em & F) | (F & F')]]; rewrite F; try discriminate.
    + rewrite <- Em, str_compare_refl. rewrite Z.leb_gt, Z.leb_le. lia.
    + rewrite F'. reflexivity.
  - rewrite E'. reflexivity.
Qed.

Lemma key_le_trans :
  forall a b c : long_row, key_le a b -> key_le b c -> key_le a c.
Proof.
  intros a b c. unfold key_le.
  intros [H1 | (G1 & H1)] [H2 | (G2 & H2)].
  - left. eapply str_lt_trans; eassumption.
  - left. rewrite <- G2. exact H1.
  - left. rewrite G1. exact H2.
  - right. split; [congruence|].
    destruct H1 as [H1 | (M1 & H1)], H2 as [H2 | (M2 & H2)].
    + left. eapply str_lt_trans; eassumption.
    + left. rewrite <- M2. exact H1.
    + left. rewrite M1. exact H2.
    + right. split; [congruence | lia].
Qed.

Lemma sort_values_sorted :
  forall l : list long_row, StronglySorted key_le (sort_values l).
Proof.
  intros l. unfold sort_values.
  assert (H : StronglySorted (fun a b => sort_key_leb a b = true)
                (Stats.sort sort_key_leb l)).
  { apply sort_sorted.
    - apply key_le_total.
    - intros a b c Hab Hbc. apply sort_key_leb_le.
      apply key_le_trans with b; apply sort_key_leb_le; assumption. }
  induction H as [|x s Hs IH Hx]; constructor.
  - exact IH.
  - eapply Forall_impl; [|exact Hx]. intros y Hy. apply sort_key_leb_le. exact Hy.
Qed.

Lemma sort_values_perm :
  forall l : list long_row, Permutation (sort_values l) l.
Proof. intros l. apply sort_perm. Qed.

(** ** Wide to long *)

Lemma flat_map_nil_fun :
  forall (A B : Type) (l : list A), flat_map (fun _ : A => @nil B) l = [].
Proof. intros A B l. induction l as [|a l IH]; [reflexivity | exact IH]. Qed.

Lemma flat_map_app_perm :
  forall (A B : Type) (g h : A -> list B) (l : list A),
    Permutation (flat_map (fun a => g a ++ h a)%list l) (flat_map g l ++ flat_map h l).
Proof.
  intros A B g h l. induction l as [|a l IH]; [reflexivity|].
  cbn [flat_map]. rewrite IH, <- !app_assoc. apply Permutation_app_head.
  rewrite !app_assoc. apply Permutation_app_tail. apply Permutation_app_comm.
Qed.

(** Rows first or periods first: the same observations. *)
Lemma flat_map_swap :
  forall (A B C : Type) (f : A -> B -> list C) (la : list A) (lb : list B),
    Permutation (flat_map (fun a => flat_map (f a) lb) la)
                (flat_map (fun b => flat_map (fun a => f a b) la) lb).
Proof.
  intros A B C f la lb. induction la as [|a la IH].
  - cbn [flat_map]. rewrite flat_map_nil_fun. reflexivity.
  - cbn [flat_map]. rewrite IH. symmetry. apply flat_map_app_perm.
Qed.

Lemma flat_map_flat_map :
  forall (A B C : Type) (f : B -> list C) (g : A -> list B) (l : list A),
    flat_map f (flat_map g l) = flat_map (fun a => flat_map f (g a)) l.
Proof.
  intros A B C f g l. induction l as [|a l IH]; [reflexivity|].
  cbn [flat_map]. rewrite flat_map_app, IH. reflexivity.
Qed.

Lemma flat_map_map :
  forall (A B C : Type) (f : B -> list C) (g : A -> B) (l : list A),
    flat_map f (map g l) = flat_map (fun a => f (g a)) l.
Proof.
  intros A B C f g l. induction l as [|a l IH]; [reflexivity|].
  cbn [flat_map map]. rewrite IH. reflexivity.
Qed.

Lemma melt_from_ok :
  forall (ys : list string) (j : nat) (c : list cleaned_row),
    Forall (fun r => (j + List.length ys <= List.length (cells r))%nat) c ->
    melt_from j ys c = Ok (melted j ys c).
Proof.
  induction ys as [|y ys IH]; intros j c H; [reflexivity|].
  cbn [melt_from]. unfold melt_column.
  rewrite (mapM_ok _ _ _ (fun r => (id_vars (meta r), y, nth j (cells r) None))).
  - cbn [bind]. rewrite IH.
    + reflexivity.
    + eapply Forall_impl; [|exact H]. cbn. intros r Hr. cbn in Hr. lia.
  - intros r Hr. rewrite Forall_forall in H. specialize (H r Hr). cbn in H.
    destruct (nth_error (cells r) j) as [v|] eqn:E.
    + rewrite (nth_error_nth _ _ None E). reflexivity.
    + apply nth_error_None in E. lia.
Qed.

Lemma melted_label :
  forall (ys : list string) (j : nat) (c : list cleaned_row) (d : dims) (y : string)
         (v : option float),
    In (d, y, v) (melted j ys c) -> In y ys.
Proof.
  intros ys j c d y v H. unfold melted in H.
  apply in_flat_map in H. destruct H as ([i y'] & Hi & Hr).
  apply in_map_iff in Hr. destruct Hr as (r & E & _). cbn in E.
  inversion E; subst. eapply in_combine_r. exact Hi.
Qed.

Lemma year_astype_int_ok :
  forall (ys : list string) (j : nat) (c : list cleaned_row),
    integer_labels ys ->
    year_astype_int (melted j ys c) =
      Ok (map (fun t => (fst (fst t), period_of (snd (fst t)), snd t)) (melted j ys c)).
Proof.
  intros ys j c H. unfold year_astype_int. apply mapM_ok.
  intros [[d y] v] Hin. apply melted_label in Hin.
  unfold integer_labels in H. rewrite Forall_forall in H.
  destruct (H y Hin) as (z & Hz). unfold period_of. cbn [fst snd]. rewrite Hz. reflexivity.
Qed.

Lemma dropna_value_observation :
  forall l : list (dims * string * option float),
    dropna_value (map (fun t => (fst (fst t), period_of (snd (fst t)), snd t)) l) =
    flat_map (fun t => observation (fst (fst t)) (snd (fst t)) (snd t)) l.
Proof.
  induction l as [|[[d y] v] l IH]; [reflexivity|].
  cbn [map dropna_value flat_map fst snd]. rewrite IH. unfold observation.
  destruct v as [f|]; [destruct (is_nan f)|]; reflexivity.
Qed.

(** [to_long_format] on a cleaned table with integer periods: no exception,
    and the long table is the sorted list of the melted observations. *)
Lemma to_long_format_ok :
  forall (self : t) (c : list cleaned_row) (ys : list string),
    cleaned_df self = Some c ->
    year_cols self = Some ys ->
    well_formed ys c ->
    integer_labels ys ->
    let long :=
      sort_values
        (flat_map (fun t => observation (fst (fst t)) (snd (fst t)) (snd t))
                  (melted 0 ys c)) in
    to_long_format self = (Ok long, set_long_df long self).
Proof.
  intros self c ys Hc Hy Hwf Hint long. unfold to_long_format.
  rewrite Hc, Hy. unfold melt. rewrite melt_from_ok.
  2:{ eapply Forall_impl; [|exact Hwf]. cbn. intros r Hr. lia. }
  cbn [bind]. rewrite year_astype_int_ok by exact Hint.
  rewrite dropna_value_observation. reflexivity.
Qed.

Lemma skipn_nth_cons :
  forall (A : Type) (d : A) (l : list A) (j : nat),
    (j < List.length l)%nat -> skipn j l = nth j l d :: skipn (S j) l.
Proof.
  intros A d l. induction l as [|a l IH]; intros j H; [cbn in H; lia|].
  destruct j as [|j]; [reflexivity|].
  cbn [skipn nth]. apply IH. cbn in H. lia.
Qed.

(** The cells of a row, taken by position or zipped with the labels. *)
Lemma row_by_position :
  forall (B : Type) (F : string -> option float -> list B)
         (ys : list string) (j : nat) (cs : list (option float)),
    (j + List.length ys <= List.length cs)%nat ->
    flat_map (fun yv => F (fst yv) (snd yv)) (combine ys (skipn j cs)) =
    flat_map (fun jy => F (snd jy) (nth (fst jy) cs None))
             (combine (seq j (List.length ys)) ys).
Proof.
  intros B F ys. induction ys as [|y ys IH]; intros j cs H; [reflexivity|].
  cbn [List.length] in H.
  rewrite (skipn_nth_cons _ None cs j) by lia.
  cbn [List.length seq combine flat_map fst snd].
  rewrite IH by lia. reflexivity.
Qed.

Lemma melted_observations :
  forall (ys : list string) (c : list cleaned_row),
    well_formed ys c ->
    Permutation
      (flat_map (fun t => observation (fst (fst t)) (snd (fst t)) (snd t)) (melted 0 ys c))
      (observations ys c).
Proof.
  intros ys c Hwf. unfold melted, observations.
  rewrite flat_map_flat_map.
  rewrite (flat_map_ext _
             (fun jy => flat_map
                          (fun r => observation (id_vars (meta r)) (snd jy)
                                      (nth (fst jy) (cells r) None)) c)).
  2:{ intros jy. rewrite flat_map_map. reflexivity. }
  rewrite (flat_map_swap _ _ _
             (fun jy r => observation (id_vars (meta r)) (snd jy)
                            (nth (fst jy) (cells r) None))).
  clear -Hwf. induction Hwf as [|r c Hr Hc IH]; [reflexivity|].
  cbn [flat_map]. apply Permutation_app; [|exact IH].
  rewrite <- (row_by_position _ (fun y v => observation (id_vars (meta r)) y v) ys 0 (cells r))
    by lia.
  reflexivity.
Qed.

Lemma observations_of_row_length :
  forall (d : dims) (ys : list string) (cs : list (option float)),
    List.length cs = List.length ys ->
    List.length (flat_map (fun yv => observation d (fst yv) (snd yv)) (combine ys cs)) =
    List.length (filter notna cs).
Proof.
  intros d ys. induction ys as [|y ys IH]; intros [|v cs] H; try discriminate H;
    [reflexivity|].
  cbn [combine flat_map filter fst snd]. rewrite length_app, IH by (cbn in H; lia).
  unfold observation, notna. destruct v as [f|]; [destruct (is_nan f)|]; reflexivity.
Qed.

Lemma observations_length :
  forall (ys : list string) (c : list cleaned_row),
    well_formed ys c -> List.length (observations ys c) = non_missing c.
Proof.
  intros ys c Hwf. unfold observations, non_missing.
  induction Hwf as [|r c Hr Hc IH]; [reflexivity|].
  cbn [flat_map map List.concat]. rewrite filter_app, !length_app, IH.
  rewrite observations_of_row_length by exact Hr. reflexivity.
Qed.

Lemma Permutation_filter_same :
  forall (A : Type) (f : A -> bool) (l l' : list A),
    Permutation l l' -> Permutation (filter f l) (filter f l').
Proof.
  intros A f l l' H. induction H as [|x l l' H IH|x y l|l l' l'' H1 IH1 H2 IH2].
  - reflexivity.
  - cbn [filter]. destruct (f x); [constructor|]; exact IH.
  - cbn [filter]. destruct (f x), (f y); try reflexivity. apply perm_swap.
  - etransitivity; eassumption.
Qed.

Lemma dropna_app :
  forall a b : list (option float), dropna (a ++ b) = (dropna a ++ dropna b)%list.
Proof.
  induction a as [|v a IH]; intros b; [reflexivity|].
  cbn [app dropna]. rewrite IH.
  destruct v as [f|]; [destruct (is_nan f)|]; reflexivity.
Qed.

(** Grouping the observations of the table by dimensions and period gives
    the values the table holds there. *)
Lemma observations_grouped :
  forall (ys : list string) (c : list cleaned_row) (d : dims) (p : Z),
    long_values_at d p (observations ys c) = cleaned_values_at ys c d p.
Proof.
  intros ys c d p. unfold long_values_at, observations, cleaned_values_at.
  induction c as [|r c IH]; [reflexivity|].
  cbn [flat_map]. rewrite filter_app, map_app, dropna_app, IH. f_equal.
  clear IH. generalize (combine ys (cells r)) as l.
  induction l as [|[y v] l IH].
  - destruct (dims_eqb (id_vars (meta r)) d); reflexivity.
  - cbn [flat_map fst snd]. rewrite filter_app, map_app, IH. clear IH.
    unfold observation.
    destruct (dims_eqb (id_vars (meta r)) d) eqn:E.
    + cbn [filter fst].
      destruct v as [f|]; [destruct (is_nan f) eqn:N|];
        cbn [filter map app long_id year value]; rewrite ?E; cbn [andb];
        destruct (period_of y =? p); cbn [map app snd dropna]; rewrite ?N; reflexivity.
    + destruct v as [f|]; [destruct (is_nan f) eqn:N|];
        cbn [filter map app long_id year value]; rewrite ?E; reflexivity.
Qed.

(** C5. On a cleaned table of N rows with one cell per period and M cells
    that hold a value, the periods being written as integers,
    [to_long_format] raises nothing, returns a long table of exactly M rows
    (and keeps it in [long_df]), and the long rows are the observations of
    the table: grouped back by dimensions and period they give, for every
    dimensions and period, the values the cleaned table holds there. *)
Theorem to_long_format_round_trip :
  forall (self : t) (c : list cleaned_row) (ys : list string),
    cleaned_df self = Some c ->
    year_cols self = Some ys ->
    well_formed ys c ->
    integer_labels ys ->
    exists long : list long_row,
      to_long_format self = (Ok long, set_long_df long self) /\
      List.length long = non_missing c /\
      Permutation long (observations ys c) /\
      forall (d : dims) (p : Z),
        Permutation (long_values_at d p long) (cleaned_values_at ys c d p).
Proof.
  intros self c ys Hc Hy Hwf Hint.
  pose proof (to_long_format_ok self c ys Hc Hy Hwf Hint) as Hok. cbv zeta in Hok.
  eexists. split; [exact Hok|].
  assert (Hp : Permutation
                 (sort_values
                    (flat_map (fun t => observation (fst (fst t)) (snd (fst t)) (snd t))
                              (melted 0 ys c)))
                 (observations ys c)).
  { rewrite sort_values_perm. apply melted_observations. exact Hwf. }
  split; [|split].
  - rewrite (Permutation_length Hp). apply observations_length. exact Hwf.
  - exact Hp.
  - intros d p. rewrite <- observations_grouped. unfold long_values_at.
    apply Permutation_map. apply Permutation_filter_same. exact Hp.
Qed.

(** C9. On a cleaned table with one cell per period and integer periods,
    the long table that [to_long_format] returns is sorted by [geo], then by
    [tra_mode], then by [year], all ascending: each row comes before every
    later row in that order. *)
Theorem to_long_format_sorted :
  forall (self : t) (c : list cleaned_row) (ys : list string),
    cleaned_df self = Some c ->
    year_cols self = Some ys ->
    well_formed ys c ->
    integer_labels ys ->
    exists long : list long_row,
      to_long_format self = (Ok long, set_long_df long self) /\
      StronglySorted key_le long.
Proof.
  intros self c ys Hc Hy Hwf Hint.
  pose proof (to_long_format_ok self c ys Hc Hy Hwf Hint) as Hok. cbv zeta in Hok.
  eexists. split; [exact Hok|]. apply sort_values_sorted.
Qed.

(** Whenever [to_long_format] returns at all, what it returns is sorted. *)
Lemma to_long_format_sorted_if_returns :
  forall (self : t) (long : list long_row),
    fst (to_long_format self) = Ok long -> StronglySorted key_le long.
Proof.
  intros self long. unfold to_long_format.
  destruct (cleaned_df self) as [c|]; [|discriminate].
  destruct (m <- _ ;; year_astype_int m) as [l|e]; [|discriminate].
  cbn [fst]. intros H. inversion H. apply sort_values_sorted.
Qed.

Lemma sample_well_formed : well_formed ["2020"; "2021"; "2022"] sample_geo.
Proof. repeat constructor. Qed.

Lemma sample_integer_labels : integer_labels ["2020"; "2021"; "2022"].
Proof.
  repeat constructor; [exists 2020 | exists 2021 | exists 2022]; reflexivity.
Qed.

Lemma to_long_format_round_trip_witness :
  exists long : list long_row,
    to_long_format sample_instance = (Ok long, set_long_df long sample_instance) /\
    List.length long = 6%nat.
Proof.
  destruct (to_long_format_round_trip sample_instance sample_geo
              ["2020"; "2021"; "2022"] eq_refl eq_refl
              sample_well_formed sample_integer_labels)
    as (long & Hl & Hn & _).
  exists long. split; [exact Hl | exact Hn].
Defined.

Lemma to_long_format_sorted_witness :
  exists long : list long_row,
    to_long_format sample_instance = (Ok long, set_long_df long sample_instance) /\
    StronglySorted key_le long.
Proof.
  exact (to_long_format_sorted sample_instance sample_geo
           ["2020"; "2021"; "2022"] eq_refl eq_refl
           sample_well_formed sample_integer_labels).
Defined.

(** ** Cleaning again *)

Lemma all_chars_app :
  forall (p : ascii -> bool) (a b : string),
    all_chars p (a ++ b) = all_chars p a && all_chars p b.
Proof.
  intros p a b. induction a as [|c a IH]; [reflexivity|].
  cbn [append all_chars]. rewrite IH, andb_assoc. reflexivity.
Qed.

Lemma all_chars_impl :
  forall (p q : ascii -> bool) (s : string),
    (forall c, p c = true -> q c = true) ->
    all_chars p s = true -> all_chars q s = true.
Proof.
  intros p q s H. induction s as [|c s IH]; [reflexivity|].
  cbn [all_chars]. intros E. apply andb_prop in E. destruct E as [E1 E2].
  rewrite (H c E1), (IH E2). reflexivity.
Qed.

Lemma all_chars_repeat :
  forall (p : ascii -> bool) (c : ascii) (n : nat),
    p c = true -> all_chars p (repeat_char c n) = true.
Proof.
  intros p c n H. induction n as [|n IH]; [reflexivity|].
  cbn [repeat_char all_chars]. rewrite H, IH. reflexivity.
Qed.

Lemma all_chars_substring :
  forall (p : ascii -> bool) (s : string) (n m : nat),
    all_chars p s = true -> all_chars p (String.substring n m s) = true.
Proof.
  intros p s. induction s as [|c s IH]; intros n m H.
  - destruct n, m; reflexivity.
  - cbn [all_chars] in H. apply andb_prop in H. destruct H as [H1 H2].
    destruct n as [|n].
    + destruct m as [|m]; [reflexivity|].
      cbn [String.substring all_chars]. rewrite H1, (IH 0%nat m H2). reflexivity.
    + cbn [String.substring]. apply IH. exact H2.
Qed.

Lemma digit_char :
  forall k : Z, 0 <= k < 10 -> is_digit (ascii_of_nat (Z.to_nat (48 + k))) = true.
Proof.
  intros k H.
  assert (E : k = 0 \/ k = 1 \/ k = 2 \/ k = 3 \/ k = 4 \/ k = 5 \/ k = 6 \/ k = 7
              \/ k = 8 \/ k = 9) by lia.
  repeat (destruct E as [-> | E]; [reflexivity|]). subst. reflexivity.
Qed.

Lemma digits_of_fuel_digits :
  forall (fuel : nat) (z : Z) (acc : string),
    all_chars is_digit acc = true ->
    all_chars is_digit (digits_of_fuel fuel z acc) = true.
Proof.
  induction fuel as [|fuel IH]; intros z acc H; cbn [digits_of_fuel].
  - cbn [all_chars]. rewrite digit_char, H by (apply Z.mod_pos_bound; lia). reflexivity.
  - destruct (z <? 10).
    + cbn [all_chars]. rewrite digit_char, H by (apply Z.mod_pos_bound; lia). reflexivity.
    + apply IH. cbn [all_chars].
      rewrite digit_char, H by (apply Z.mod_pos_bound; lia). reflexivity.
Qed.

Lemma digits_of_digits : forall z : Z, all_chars is_digit (digits_of z) = true.
Proof. intros z. apply digits_of_fuel_digits. reflexivity. Qed.

Lemma is_digit_plain : forall c : ascii, is_digit c = true -> plain_char c = true.
Proof. intros c H. unfold plain_char. rewrite H. reflexivity. Qed.

(** In positional notation [repr] writes digits, one point and nothing
    else. *)
Lemma format_repr_positional :
  forall (ds : string) (decpt : Z),
    all_chars is_digit ds = true ->
    (decpt <=? -4) || (16 <? decpt) = false ->
    all_chars plain_char (format_repr ds decpt) = true /\
    format_repr ds decpt <> EmptyString.
Proof.
  intros ds decpt Hd Hp. unfold format_repr. rewrite Hp.
  pose proof (all_chars_impl _ _ _ is_digit_plain Hd) as Hd'.
  destruct (decpt <=? 0).
  - split; [|discriminate].
    change ("0." ++ repeat_char "0" (Z.to_nat (- decpt)) ++ ds)%string
      with (String "0" (String "." (repeat_char "0" (Z.to_nat (- decpt)) ++ ds)%string)).
    cbn [all_chars]. rewrite all_chars_app, all_chars_repeat, Hd' by reflexivity.
    reflexivity.
  - destruct (Z.of_nat (String.length ds) <=? decpt).
    + split.
      * rewrite !all_chars_app, all_chars_repeat, Hd' by reflexivity. reflexivity.
      * destruct ds; [|discriminate].
        destruct (repeat_char "0" _); discriminate.
    + split.
      * unfold substring_from.
        rewrite !all_chars_app, !all_chars_substring by exact Hd'. reflexivity.
      * destruct (String.substring 0 (Z.to_nat decpt) ds); discriminate.
Qed.

Lemma str_of_float_positional :
  forall v : float,
    positional v = true ->
    all_chars plain_char (str_of_float v) = true /\ str_of_float v <> EmptyString.
Proof.
  intros [s|s| |s m e] H; try discriminate H.
  - destruct s; split; (reflexivity || discriminate).
  - cbn [positional] in H. apply negb_true_iff in H.
    unfold str_of_float. unfold shortest in *.
    destruct (fraction m e) as [num den].
    destruct (shortest_from _ 1 m e (decpt_of num den)) as [d k].
    cbn [snd] in H.
    destruct (format_repr_positional (digits_of (strip_zeros d)) (ndigits10 d + k)
                (digits_of_digits _) H) as [Ha Hn].
    destruct s.
    + split; [|discriminate]. cbn [append all_chars]. rewrite Ha. reflexivity.
    + split; assumption.
Qed.

Lemma lstrip_by_none :
  forall (p : ascii -> bool) (s : string),
    all_chars (fun c => negb (p c)) s = true -> lstrip_by p s = s.
Proof.
  intros p [|c s] H; [reflexivity|].
  cbn [all_chars] in H. apply andb_prop in H. destruct H as [H _].
  apply negb_true_iff in H. cbn [lstrip_by]. rewrite H. reflexivity.
Qed.

Lemma rstrip_by_none :
  forall (p : ascii -> bool) (s : string),
    all_chars (fun c => negb (p c)) s = true -> rstrip_by p s = s.
Proof.
  intros p s. induction s as [|c s IH]; intros H; [reflexivity|].
  cbn [all_chars] in H. apply andb_prop in H. destruct H as [H1 H2].
  apply negb_true_iff in H1. cbn [rstrip_by]. rewrite (IH H2), H1.
  destruct s; reflexivity.
Qed.

Lemma filter_chars_all :
  forall (p : ascii -> bool) (s : string),
    all_chars p s = true -> filter_chars p s = s.
Proof.
  intros p s. induction s as [|c s IH]; intros H; [reflexivity|].
  cbn [all_chars] in H. apply andb_prop in H. destruct H as [H1 H2].
  cbn [filter_chars]. rewrite H1, (IH H2). reflexivity.
Qed.

Lemma re_findall_class_none :
  forall (p : ascii -> bool) (s : string),
    all_chars (fun c => negb (p c)) s = true -> re_findall_class p s = [].
Proof.
  intros p s. induction s as [|c s IH]; intros H; [reflexivity|].
  cbn [all_chars] in H. apply andb_prop in H. destruct H as [H1 H2].
  apply negb_true_iff in H1. cbn [re_findall_class]. rewrite H1. apply IH. exact H2.
Qed.

Lemma plain_char_facts :
  forall c : ascii,
    plain_char c = true ->
    negb (is_space c) = true /\ negb (flag_class c) = true /\
    negb (is_lower c) = true /\ Ascii.eqb c ":" = false.
Proof.
  intros c. destruct c as [[] [] [] [] [] [] [] []]; vm_compute; intros H;
    try discriminate H; repeat split.
Qed.

(** [clean_value] on a numeral in positional notation is [float] of it, and
    no flag is found in it. *)
Lemma clean_value_plain :
  forall s : string,
    all_chars plain_char s = true -> s <> EmptyString ->
    clean_value (Str s) =
      match float_of_str s with Ok f => Some f | Raise _ => None end /\
    extract_flags (Str s) = [].
Proof.
  intros s Hs Hne.
  assert (Hstrip : strip s = s).
  { unfold strip. rewrite lstrip_by_none, rstrip_by_none; try reflexivity;
      (eapply all_chars_impl; [|exact Hs]); intros c Hc; apply plain_char_facts, Hc. }
  unfold clean_value, extract_flags. cbn [isna py_str]. rewrite Hstrip. split.
  - assert (Hin : str_in s missing_tokens = false).
    { destruct s as [|c s]; [contradiction Hne; reflexivity|].
      cbn [all_chars] in Hs. apply andb_prop in Hs. destruct Hs as [Hc _].
      apply plain_char_facts in Hc. destruct Hc as (_ & _ & _ & Hc).
      unfold str_in, missing_tokens. cbn [existsb String.eqb]. rewrite Hc. reflexivity. }
    rewrite Hin. unfold re_sub_class. rewrite filter_chars_all.
    + destruct s; [contradiction Hne; reflexivity | reflexivity].
    + eapply all_chars_impl; [|exact Hs]. intros c Hc. apply plain_char_facts, Hc.
  - apply re_findall_class_none.
    eapply all_chars_impl; [|exact Hs]. intros c Hc. apply plain_char_facts, Hc.
Qed.

(** C8, the claim as stated fails: a value whose [str] has an exponent does
    not survive a second cleaning.  The cells [10000000000000000] and
    [0.00001] clean to the floats printed [1e+16] and [1e-05]; cleaning
    these strings deletes the letter, leaves [1+16] and [1-05], which are no
    numerals, and returns [None]; the letter is found as the flag [e]. *)
Lemma clean_value_not_idempotent :
  (exists v, clean_value (Str "10000000000000000") = Some v /\
             str_of_float v = "1e+16" /\
             clean_value (Str (str_of_float v)) = None /\
             clean_value (Flt v) = None /\
             extract_flags (Str (str_of_float v)) = ["e"]) /\
  (exists v, clean_value (Str "0.00001") = Some v /\
             str_of_float v = "1e-05" /\
             clean_value (Str (str_of_float v)) = None /\
             extract_flags (Str (str_of_float v)) = ["e"]).
Proof.
  split; eexists; (split; [vm_compute; reflexivity|]); repeat split.
Qed.

(** ** Binary64 numbers and exact decimal numerals *)

Lemma digits2_bounds :
  forall p : positive,
    2 ^ (Zpos (digits2_pos p) - 1) <= Zpos p < 2 ^ Zpos (digits2_pos p).
Proof.
  induction p as [p IH|p IH|]; cbn [digits2_pos]; [| |cbn; lia].
  - rewrite Pos2Z.inj_succ.
    replace (Z.succ (Zpos (digits2_pos p)) - 1) with (Z.succ (Zpos (digits2_pos p) - 1)) by lia.
    rewrite !Z.pow_succ_r by lia. lia.
  - rewrite Pos2Z.inj_succ.
    replace (Z.succ (Zpos (digits2_pos p)) - 1) with (Z.succ (Zpos (digits2_pos p) - 1)) by lia.
    rewrite !Z.pow_succ_r by lia. lia.
Qed.

Lemma digits2_unique :
  forall (p : positive) (d : Z),
    2 ^ (d - 1) <= Zpos p < 2 ^ d -> Zpos (digits2_pos p) = d.
Proof.
  intros p d [H1 H2]. pose proof (digits2_bounds p) as [B1 B2].
  assert (Hd : 0 < d).
  { destruct (Z.ltb_spec 0 d) as [|Hle]; [assumption|].
    assert (2 ^ d <= 1); [|lia].
    destruct (Z.eq_dec d 0) as [->|]; [cbn; lia|].
    rewrite Z.pow_neg_r by lia. lia. }
  destruct (Z.lt_trichotomy (Zpos (digits2_pos p)) d) as [Hlt | [Heq | Hgt]];
    [|exact Heq|].
  - assert (2 ^ Zpos (digits2_pos p) <= 2 ^ (d - 1)) by (apply Z.pow_le_mono_r; lia). lia.
  - assert (2 ^ d <= 2 ^ (Zpos (digits2_pos p) - 1)) by (apply Z.pow_le_mono_r; lia). lia.
Qed.

Lemma digits2_shift :
  forall (m q : positive) (n : Z),
    0 <= n -> Zpos q = Zpos m * 2 ^ n ->
    Zpos (digits2_pos q) = Zpos (digits2_pos m) + n.
Proof.
  intros m q n Hn Hq. apply digits2_unique. rewrite Hq.
  pose proof (digits2_bounds m) as [B1 B2].
  replace (Zpos (digits2_pos m) + n - 1) with (Zpos (digits2_pos m) - 1 + n) by lia.
  rewrite !Z.pow_add_r by lia.
  assert (0 < 2 ^ n) by (apply Z.pow_pos_nonneg; lia). nia.
Qed.

Lemma iter_pos_nat :
  forall (A : Type) (f : A -> A) (p : positive) (x : A),
    iter_pos f p x = Nat.iter (Pos.to_nat p) f x.
Proof.
  intros A f p. induction p as [p IH|p IH|]; intros x; cbn [iter_pos].
  - rewrite !IH, Pos2Nat.inj_xI, <- Nat.iter_add, <- Nat.iter_succ_r.
    f_equal. lia.
  - rewrite !IH, Pos2Nat.inj_xO, <- Nat.iter_add. f_equal. lia.
  - reflexivity.
Qed.

Lemma shr_exact_nat :
  forall (k : nat) (m q : positive),
    Zpos q = Zpos m * 2 ^ Z.of_nat k ->
    Nat.iter k shr_1 {| shr_m := Zpos q; shr_r := false; shr_s := false |} =
    {| shr_m := Zpos m; shr_r := false; shr_s := false |}.
Proof.
  induction k as [|k IH]; intros m q H.
  - cbn [Z.of_nat] in H. rewrite Z.pow_0_r, Z.mul_1_r in H. inversion H. reflexivity.
  - rewrite Nat.iter_succ_r.
    rewrite Nat2Z.inj_succ, Z.pow_succ_r in H by lia.
    assert (Hm' : 0 < Zpos m * 2 ^ Z.of_nat k)
      by (apply Z.mul_pos_pos; [lia | apply Z.pow_pos_nonneg; lia]).
    destruct (Zpos m * 2 ^ Z.of_nat k) as [|m'|m'] eqn:E; try lia.
    assert (Hq : q = xO m') by lia. subst q. cbn [shr_1 orb].
    apply IH. symmetry. exact E.
Qed.

Lemma shr_fexp_exact :
  forall (m q : positive) (e e' : Z),
    canonical_mantissa prec emax m e = true ->
    e' <= e ->
    Zpos q = Zpos m * 2 ^ (e - e') ->
    shr_fexp prec emax (Zpos q) e' loc_Exact =
    ({| shr_m := Zpos m; shr_r := false; shr_s := false |}, e).
Proof.
  intros m q e e' Hc He Hq. unfold shr_fexp. cbn [Zdigits2 shr_record_of_loc].
  unfold canonical_mantissa in Hc. apply Z.eqb_eq in Hc.
  rewrite (digits2_shift m q (e - e')) by (lia || exact Hq).
  replace (Zpos (digits2_pos m) + (e - e') + e') with (Zpos (digits2_pos m) + e) by lia.
  rewrite Hc. unfold shr.
  destruct (e - e') as [|n|n] eqn:En; try lia.
  - rewrite Z.pow_0_r, Z.mul_1_r in Hq. inversion Hq. f_equal. lia.
  - rewrite iter_pos_nat. f_equal; [|lia].
    apply shr_exact_nat. rewrite positive_nat_Z. exact Hq.
Qed.

(** A numeral whose value is a binary64 number is rounded to that number. *)
Lemma round_exact :
  forall (sx : bool) (m q : positive) (e e' : Z),
    bounded prec emax m e = true ->
    e' <= e ->
    Zpos q = Zpos m * 2 ^ (e - e') ->
    binary_round_aux prec emax sx (Zpos q) e' loc_Exact = S754_finite sx m e.
Proof.
  intros sx m q e e' Hb He Hq. unfold bounded in Hb.
  apply andb_prop in Hb. destruct Hb as [Hc Hmax].
  unfold binary_round_aux. rewrite (shr_fexp_exact m q e e' Hc He Hq).
  cbn [shr_m loc_of_shr_record round_nearest_even].
  rewrite (shr_fexp_exact m m e e Hc) by (rewrite ?Z.sub_diag, ?Z.pow_0_r; lia).
  cbn [shr_m]. rewrite Hmax. reflexivity.
Qed.

Lemma nat_iter_xO :
  forall (k : nat) (p : positive), Zpos (Nat.iter k xO p) = Zpos p * 2 ^ Z.of_nat k.
Proof.
  induction k as [|k IH]; intros p.
  - change (Nat.iter 0 xO p) with p. cbn [Z.of_nat]. rewrite Z.pow_0_r. lia.
  - change (Nat.iter (S k) xO p) with (xO (Nat.iter k xO p)).
    rewrite Nat2Z.inj_succ, Z.pow_succ_r by lia.
    rewrite Pos2Z.inj_xO, IH. lia.
Qed.

Lemma pos_iter_xO :
  forall (d p : positive), Zpos (Pos.iter xO p d) = Zpos p * 2 ^ Zpos d.
Proof.
  intros d p. rewrite Pos2Nat.inj_iter, <- (positive_nat_Z d).
  exact (nat_iter_xO (Pos.to_nat d) p).
Qed.

Lemma strip10_spec :
  forall (fuel : nat) (m e : Z),
    0 < m -> m < 2 ^ (Z.of_nat fuel + 1) ->
    0 < fst (strip10 fuel m e) /\
    fst (strip10 fuel m e) mod 10 <> 0 /\
    e <= snd (strip10 fuel m e) /\
    m = fst (strip10 fuel m e) * 10 ^ (snd (strip10 fuel m e) - e).
Proof.
  induction fuel as [|fuel IH]; intros m e Hm Hb; cbn [strip10].
  - cbn in Hb. assert (m = 1) by lia. subst m. cbn [fst snd].
    rewrite Z.sub_diag. repeat split; try lia. cbn. lia.
  - destruct (m mod 10 =? 0) eqn:E10; cbn [andb].
    + apply Z.eqb_eq in E10. assert (H0 : (0 <? m) = true) by (apply Z.ltb_lt; exact Hm).
      rewrite H0.
      pose proof (Z.div_mod m 10 ltac:(lia)) as Hdm.
      assert (Hq : 0 < m / 10) by lia.
      assert (Hq2 : m / 10 < 2 ^ (Z.of_nat fuel + 1)).
      { rewrite Nat2Z.inj_succ in Hb.
        replace (Z.succ (Z.of_nat fuel) + 1) with (Z.succ (Z.of_nat fuel + 1)) in Hb by lia.
        rewrite Z.pow_succ_r in Hb by lia. lia. }
      destruct (IH (m / 10) (e + 1) Hq Hq2) as (H1 & H2 & H3 & H4).
      repeat split; try assumption; try lia.
      replace (snd (strip10 fuel (m / 10) (e + 1)) - e)
        with (Z.succ (snd (strip10 fuel (m / 10) (e + 1)) - (e + 1))) by lia.
      rewrite Z.pow_succ_r by lia. lia.
    + cbn [fst snd]. apply Z.eqb_neq in E10. rewrite Z.sub_diag.
      repeat split; try lia.
Qed.

Lemma normal_decimal_spec :
  forall m e : Z,
    0 < m ->
    0 < fst (normal_decimal m e) /\
    fst (normal_decimal m e) mod 10 <> 0 /\
    e <= snd (normal_decimal m e) /\
    m = fst (normal_decimal m e) * 10 ^ (snd (normal_decimal m e) - e).
Proof.
  intros m e Hm. unfold normal_decimal. apply strip10_spec; [exact Hm|].
  rewrite Z2Nat.id by apply Z.log2_nonneg.
  replace (Z.log2 m + 1) with (Z.succ (Z.log2 m)) by lia.
  apply Z.log2_spec. exact Hm.
Qed.

(** Two numerals without trailing zeros that have the same value are the
    same. *)
Lemma decimal_unique :
  forall m1 m2 a b : Z,
    0 < m1 -> 0 < m2 -> m1 mod 10 <> 0 -> m2 mod 10 <> 0 ->
    0 <= a -> 0 <= b ->
    m1 * 10 ^ a = m2 * 10 ^ b -> m1 = m2 /\ a = b.
Proof.
  assert (G : forall m1 m2 a b : Z,
             0 < m1 -> 0 < m2 -> m1 mod 10 <> 0 ->
             0 <= a -> a <= b -> m1 * 10 ^ a = m2 * 10 ^ b -> m1 = m2 /\ a = b).
  { intros m1 m2 a b H1 H2 N1 Ha Hab E.
    replace b with (a + (b - a)) in E by lia.
    rewrite Z.pow_add_r in E by lia.
    assert (Hp : 0 < 10 ^ a) by (apply Z.pow_pos_nonneg; lia).
    assert (E' : m1 = m2 * 10 ^ (b - a)) by nia.
    destruct (Z.eq_dec a b) as [->|Hne].
    - rewrite Z.sub_diag, Z.pow_0_r in E'. lia.
    - exfalso. apply N1.
      replace (b - a) with (Z.succ (b - a - 1)) in E' by lia.
      rewrite Z.pow_succ_r in E' by lia.
      rewrite E'. replace (m2 * (10 * 10 ^ (b - a - 1))) with (m2 * 10 ^ (b - a - 1) * 10) by lia.
      apply Z.mod_mul. lia. }
  intros m1 m2 a b H1 H2 N1 N2 Ha Hb E.
  destruct (Z.le_ge_cases a b) as [Hab|Hab].
  - apply G; assumption.
  - destruct (G m2 m1 b a H2 H1 N2 Hb Hab (eq_sym E)) as [-> ->]. split; reflexivity.
Qed.

(** Numerals of the same value have the same normal form. *)
Lemma normal_decimal_eq :
  forall m1 e1 m2 e2 c : Z,
    0 < m1 -> 0 < m2 -> c <= e1 -> c <= e2 ->
    m1 * 10 ^ (e1 - c) = m2 * 10 ^ (e2 - c) ->
    normal_decimal m1 e1 = normal_decimal m2 e2.
Proof.
  intros m1 e1 m2 e2 c H1 H2 C1 C2 E.
  destruct (normal_decimal_spec m1 e1 H1) as (P1 & N1 & L1 & V1).
  destruct (normal_decimal_spec m2 e2 H2) as (P2 & N2 & L2 & V2).
  destruct (normal_decimal m1 e1) as [a1 b1]. destruct (normal_decimal m2 e2) as [a2 b2].
  cbn [fst snd] in *.
  assert (Ev : a1 * 10 ^ (b1 - c) = a2 * 10 ^ (b2 - c)).
  { replace (b1 - c) with ((b1 - e1) + (e1 - c)) by lia.
    replace (b2 - c) with ((b2 - e2) + (e2 - c)) by lia.
    rewrite !Z.pow_add_r by lia. rewrite !Z.mul_assoc, <- V1, <- V2. exact E. }
  destruct (decimal_unique a1 a2 (b1 - c) (b2 - c)) as [-> Hb]; try assumption; try lia.
  f_equal. lia.
Qed.

Lemma same_value_normal :
  forall (m : positive) (e M E : Z),
    0 < M -> same_value m e M E ->
    same_value m e (fst (normal_decimal M E)) (snd (normal_decimal M E)).
Proof.
  intros m e M E HM H. unfold same_value in *.
  destruct (normal_decimal_spec M E HM) as (P & _ & L & V).
  set (M' := fst (normal_decimal M E)) in *. set (E' := snd (normal_decimal M E)) in *.
  assert (Hp : 10 ^ (E' - E) * 10 ^ Z.max E 0 * 10 ^ Z.max (- E') 0 =
               10 ^ Z.max E' 0 * 10 ^ Z.max (- E) 0).
  { rewrite <- !Z.pow_add_r by lia. f_equal. lia. }
  assert (Hpos : 0 < 10 ^ Z.max (- E) 0) by (apply Z.pow_pos_nonneg; lia).
  apply (Z.mul_reg_r _ _ (10 ^ Z.max (- E) 0)); [lia|].
  transitivity (Z.pos m * 2 ^ Z.max e 0 * 10 ^ Z.max (- E) 0 * 10 ^ Z.max (- E') 0); [ring|].
  rewrite H, V.
  transitivity (M' * 2 ^ Z.max (- e) 0 *
                (10 ^ (E' - E) * 10 ^ Z.max E 0 * 10 ^ Z.max (- E') 0)); [ring|].
  rewrite Hp. ring.
Qed.

Lemma new_location_exact : forall nb_steps : Z, new_location nb_steps 0 = loc_Exact.
Proof.
  intros n. unfold new_location, new_location_even, new_location_odd.
  destruct (Z.even n); reflexivity.
Qed.

(** The value of a numeral that is a binary64 number is read as that
    number: the integer numerals. *)
Lemma binary_round_exact :
  forall (sx : bool) (m N : positive) (e : Z),
    bounded prec emax m e = true ->
    Zpos m * 2 ^ Z.max e 0 = Zpos N * 2 ^ Z.max (- e) 0 ->
    binary_round prec emax sx N 0 = S754_finite sx m e.
Proof.
  intros sx m N e Hb H.
  assert (Hc : canonical_mantissa prec emax m e = true)
    by (unfold bounded in Hb; apply andb_prop in Hb; tauto).
  assert (Hd : Zpos (digits2_pos N) + 0 = Zpos (digits2_pos m) + e).
  { destruct (Z.le_ge_cases 0 e) as [He|He].
    - rewrite Z.max_l, (Z.max_r (- e) 0), Z.pow_0_r, Z.mul_1_r in H by lia.
      rewrite (digits2_shift m N e He (eq_sym H)). lia.
    - rewrite Z.max_r, (Z.max_l (- e) 0), Z.pow_0_r, Z.mul_1_r in H by lia.
      rewrite (digits2_shift N m (- e) ltac:(lia) H). lia. }
  unfold binary_round. rewrite Hd.
  unfold canonical_mantissa in Hc. apply Z.eqb_eq in Hc. rewrite Hc.
  unfold shl_align. rewrite Z.sub_0_r.
  destruct e as [|pe|ne].
  - apply round_exact; [exact Hb | lia |]. cbn in H |- *. lia.
  - apply round_exact; [exact Hb | lia |].
    rewrite Z.max_l, (Z.max_r (- Zpos pe) 0), Z.pow_0_r, Z.mul_1_r in H by lia.
    rewrite Z.sub_0_r. symmetry. exact H.
  - apply round_exact; [exact Hb | lia |].
    rewrite Z.sub_diag, Z.pow_0_r, Z.mul_1_r.
    rewrite pos_iter_xO.
    rewrite Z.max_r, (Z.max_l (- Zneg ne) 0), Z.pow_0_r, Z.mul_1_r in H by lia.
    rewrite H. reflexivity.
Qed.

(** The numerals with a fraction. *)
Lemma div_round_exact :
  forall (sx : bool) (m P T : positive) (e : Z),
    bounded prec emax m e = true ->
    Zpos m * 2 ^ Z.max e 0 * Zpos T = Zpos P * 2 ^ Z.max (- e) 0 ->
    (let '(q, e', l) := SFdiv_core_binary prec emax (Zpos P) 0 (Zpos T) 0 in
     binary_round_aux prec emax sx q e' l) = S754_finite sx m e.
Proof.
  intros sx m P T e Hb H.
  assert (Hc : canonical_mantissa prec emax m e = true)
    by (unfold bounded in Hb; apply andb_prop in Hb; tauto).
  unfold canonical_mantissa in Hc. apply Z.eqb_eq in Hc.
  unfold SFdiv_core_binary. cbn [Zdigits2].
  rewrite !Z.add_0_r, Z.sub_diag.
  set (e' := Z.min (fexp prec emax (Zpos (digits2_pos P) - Zpos (digits2_pos T))) 0).
  assert (He0 : e' <= 0) by (unfold e'; lia).
  assert (Hee : e' <= e).
  { destruct (Z.le_ge_cases 0 e) as [He|He]; [lia|].
    rewrite Z.max_r, (Z.max_l (- e) 0), Z.pow_0_r, Z.mul_1_r in H by lia.
    pose proof (digits2_bounds m) as [_ Bm].
    pose proof (digits2_bounds T) as [_ BT].
    pose proof (digits2_bounds P) as [BP _].
    assert (Hlt : 2 ^ (Zpos (digits2_pos P) - 1 + - e) <
                  2 ^ (Zpos (digits2_pos m) + Zpos (digits2_pos T))).
    { rewrite !Z.pow_add_r by lia.
      assert (0 < 2 ^ (- e)) by (apply Z.pow_pos_nonneg; lia). nia. }
    apply Z.pow_lt_mono_r_iff in Hlt; [|lia|lia].
    assert (Hf : fexp prec emax (Zpos (digits2_pos P) - Zpos (digits2_pos T)) <=
                 fexp prec emax (Zpos (digits2_pos m) + e)) by (unfold fexp; lia).
    unfold e'. lia. }
  assert (Hm' : match 0 - e' with
                | 0 => Zpos P
                | Zpos _ => Z.shiftl (Zpos P) (0 - e')
                | Zneg _ => 0
                end = Zpos m * 2 ^ (e - e') * Zpos T).
  { assert (Hv : Zpos P * 2 ^ (- e') = Zpos m * 2 ^ (e - e') * Zpos T).
    { destruct (Z.le_ge_cases 0 e) as [He|He].
      - rewrite Z.max_l, (Z.max_r (- e) 0), Z.pow_0_r, Z.mul_1_r in H by lia.
        rewrite <- H. replace (e - e') with (e + - e') by lia.
        rewrite Z.pow_add_r by lia. ring.
      - rewrite Z.max_r, (Z.max_l (- e) 0), Z.pow_0_r, Z.mul_1_r in H by lia.
        replace (- e') with (- e + (e - e')) by lia.
        rewrite Z.pow_add_r by lia. rewrite Z.mul_assoc, <- H. ring. }
    destruct (0 - e') as [|s|s] eqn:Es; try lia.
    - replace (- e') with 0 in Hv by lia. rewrite Z.pow_0_r, Z.mul_1_r in Hv. exact Hv.
    - rewrite Z.shiftl_mul_pow2 by lia. rewrite <- Es.
      replace (0 - e') with (- e') by lia. exact Hv. }
  rewrite Hm'.
  assert (Hq : 0 < Zpos m * 2 ^ (e - e'))
    by (apply Z.mul_pos_pos; [lia | apply Z.pow_pos_nonneg; lia]).
  destruct (Zpos m * 2 ^ (e - e')) as [|q|q] eqn:Eq; try lia.
  assert (Hdiv : Z.div_eucl (Zpos q * Zpos T) (Zpos T) = (Zpos q, 0)).
  { pose proof (Z_div_mod (Zpos q * Zpos T) (Zpos T) ltac:(lia)) as Hdm.
    destruct (Z.div_eucl (Zpos q * Zpos T) (Zpos T)) as [a b].
    destruct Hdm as [Hab Hb']. assert (a = Zpos q) by nia. subst a.
    f_equal. lia. }
  rewrite Hdiv, new_location_exact.
  apply round_exact; [exact Hb | exact Hee | symmetry; exact Eq].
Qed.

(** A numeral whose value is a binary64 number is read as that number. *)
Lemma of_decimal_exact :
  forall (sx : bool) (m : positive) (e M E : Z),
    bounded prec emax m e = true ->
    0 < M -> same_value m e M E ->
    of_decimal sx M E = S754_finite sx m e.
Proof.
  intros sx m e M E Hb HM H.
  pose proof (same_value_normal m e M E HM H) as Hn.
  destruct (normal_decimal_spec M E HM) as (P & _).
  unfold of_decimal. destruct (normal_decimal M E) as [M' E']. cbn [fst snd] in *.
  destruct M' as [|p|p]; try lia.
  unfold same_value in Hn.
  destruct (0 <=? E') eqn:E0.
  - apply Z.leb_le in E0.
    rewrite (Z.max_l E' 0), (Z.max_r (- E') 0), Z.pow_0_r, Z.mul_1_r in Hn by lia.
    apply binary_round_exact; [exact Hb|].
    rewrite Pos2Z.inj_mul, Z2Pos.id by (apply Z.pow_pos_nonneg; lia).
    rewrite Hn. ring.
  - apply Z.leb_gt in E0.
    rewrite (Z.max_r E' 0), (Z.max_l (- E') 0), Z.pow_0_r, Z.mul_1_r in Hn by lia.
    assert (HT : 0 < 10 ^ (- E')) by (apply Z.pow_pos_nonneg; lia).
    destruct (10 ^ (- E')) as [|T|T] eqn:ET; try lia.
    apply div_round_exact; [exact Hb | exact Hn].
Qed.

Lemma eqb_eq : forall f g : float, eqb f g = true -> f = g.
Proof.
  intros [a|a| |a m e] [b|b| |b n k] H; cbn [eqb] in H; try discriminate H;
    try reflexivity.
  - apply Bool.eqb_prop in H. subst. reflexivity.
  - apply Bool.eqb_prop in H. subst. reflexivity.
  - apply andb_prop in H. destruct H as [H H3]. apply andb_prop in H. destruct H as [H1 H2].
    apply Bool.eqb_prop in H1. apply Pos.eqb_eq in H2. apply Z.eqb_eq in H3.
    subst. reflexivity.
Qed.

Lemma eqb_refl_finite :
  forall (s : bool) (m : positive) (e : Z),
    eqb (S754_finite s m e) (S754_finite s m e) = true.
Proof.
  intros s m e. cbn [eqb]. rewrite Bool.eqb_reflx, Pos.eqb_refl, Z.eqb_refl. reflexivity.
Qed.

Lemma strip10_nonpos :
  forall (fuel : nat) (m e : Z), m <= 0 -> strip10 fuel m e = (m, e).
Proof.
  intros [|fuel] m e H; [reflexivity|]. cbn [strip10].
  assert (E : (0 <? m) = false) by (apply Z.ltb_ge; exact H).
  rewrite E, andb_false_r. reflexivity.
Qed.

Lemma of_decimal_finite_pos :
  forall (sx s : bool) (M E : Z) (m : positive) (e : Z),
    of_decimal sx M E = S754_finite s m e -> 0 < M.
Proof.
  intros sx s M E m e H. destruct (Z.ltb_spec 0 M) as [|Hle]; [assumption|].
  unfold of_decimal, normal_decimal in H. rewrite strip10_nonpos in H by exact Hle.
  destruct M; try lia; discriminate H.
Qed.

(** From some length on the numeral next to a binary64 number is the
    number itself: its decimal expansion. *)
Lemma scaled_exact :
  forall (m : positive) (e p n : Z),
    p - Z.min e 0 <= n ->
    snd (fst (scaled (fst (fraction m e)) (snd (fraction m e)) (p - n))) = 0 /\
    0 < snd (scaled (fst (fraction m e)) (snd (fraction m e)) (p - n)) /\
    0 < fst (fst (scaled (fst (fraction m e)) (snd (fraction m e)) (p - n))) /\
    same_value m e (fst (fst (scaled (fst (fraction m e)) (snd (fraction m e)) (p - n))))
               (p - n).
Proof.
  intros m e p n H. unfold fraction, scaled, same_value.
  destruct (0 <=? e) eqn:Ee; cbn [fst snd].
  - apply Z.leb_le in Ee. rewrite Z.min_r in H by lia.
    assert (Hk : p - n <= 0) by lia.
    assert (H2 : 0 < 2 ^ e) by (apply Z.pow_pos_nonneg; lia).
    rewrite (Z.max_l e 0), (Z.max_r (- e) 0), Z.pow_0_r, Z.mul_1_r by lia.
    destruct (0 <=? p - n) eqn:Ek; cbn [fst snd].
    + apply Z.leb_le in Ek. replace (p - n) with 0 by lia.
      rewrite ?Z.opp_0, ?Z.max_id, ?Z.pow_0_r, ?Z.mul_1_r. rewrite Z.mod_1_r, Z.div_1_r.
      repeat split; try lia.
    + rewrite Z.mod_1_r, Z.div_1_r.
      assert (H10 : 0 < 10 ^ (- (p - n))) by (apply Z.pow_pos_nonneg; lia).
      rewrite (Z.max_l (- (p - n)) 0), (Z.max_r (p - n) 0), Z.pow_0_r by lia.
      repeat split; try lia.
  - apply Z.leb_gt in Ee. rewrite Z.min_l in H by lia.
    assert (Hk : p - n <= e) by lia.
    assert (Ek : (0 <=? p - n) = false) by (apply Z.leb_gt; lia).
    rewrite Ek. cbn [fst snd].
    rewrite (Z.max_r e 0), (Z.max_l (- e) 0), Z.pow_0_r, Z.mul_1_r by lia.
    rewrite (Z.max_l (- (p - n)) 0), (Z.max_r (p - n) 0), Z.pow_0_r, Z.mul_1_r by lia.
    assert (H2 : 0 < 2 ^ (- e)) by (apply Z.pow_pos_nonneg; lia).
    assert (H5 : 0 < 5 ^ (- e)) by (apply Z.pow_pos_nonneg; lia).
    assert (H10 : 0 < 10 ^ (e - (p - n))) by (apply Z.pow_pos_nonneg; lia).
    assert (Hpow : 10 ^ (- (p - n)) = 5 ^ (- e) * 10 ^ (e - (p - n)) * 2 ^ (- e)).
    { replace (- (p - n)) with (- e + (e - (p - n))) by lia.
      rewrite Z.pow_add_r by lia.
      change 10 with (2 * 5) at 1. rewrite Z.pow_mul_l. ring. }
    rewrite Hpow.
    replace (Z.pos m * (5 ^ (- e) * 10 ^ (e - (p - n)) * 2 ^ (- e)))
      with (Z.pos m * 5 ^ (- e) * 10 ^ (e - (p - n)) * 2 ^ (- e)) by ring.
    rewrite Z.mod_mul, Z.div_mul by lia.
    repeat split; try lia.
Qed.

(** The search of [repr] ends on a numeral that is read back as the
    number. *)
Lemma shortest_from_reads_back :
  forall (fuel : nat) (n : Z) (m : positive) (e p : Z),
    bounded prec emax m e = true ->
    (1 <= fuel)%nat ->
    p - Z.min e 0 <= n + Z.of_nat fuel - 1 ->
    of_decimal false (fst (shortest_from fuel n m e p)) (snd (shortest_from fuel n m e p))
    = S754_finite false m e.
Proof.
  induction fuel as [|fuel IH]; intros n m e p Hb Hf Hn; [lia|].
  pose proof (scaled_exact m e p n) as Hex.
  cbn [shortest_from].
  destruct (fraction m e) as [num den]. cbn [fst snd] in Hex.
  destruct (scaled num den (p - n)) as [[lo r] b]. cbn [fst snd] in Hex.
  destruct (eqb (of_decimal false lo (p - n)) (S754_finite false m e)) eqn:Elo.
  - cbn [andb].
    destruct ((2 * r <? b) || (2 * r =? b) && Z.even lo
              || negb (negb (r =? 0) &&
                       eqb (of_decimal false (lo + 1) (p - n)) (S754_finite false m e)))
      eqn:Ec.
    + cbn [fst snd]. apply eqb_eq. exact Elo.
    + apply orb_false_iff in Ec. destruct Ec as [_ Ec]. apply negb_false_iff in Ec.
      rewrite Ec. cbn [fst snd]. apply andb_prop in Ec. apply eqb_eq. tauto.
  - cbn [andb].
    destruct (negb (r =? 0) && eqb (of_decimal false (lo + 1) (p - n)) (S754_finite false m e))
      eqn:Ehi.
    + cbn [fst snd]. apply andb_prop in Ehi. apply eqb_eq. tauto.
    + destruct (Z.le_gt_cases (p - Z.min e 0) n) as [Hle|Hgt].
      * exfalso. destruct (Hex Hle) as (_ & _ & Hlo & Hv).
        rewrite (of_decimal_exact false m e lo (p - n) Hb Hlo Hv), eqb_refl_finite in Elo.
        discriminate Elo.
      * apply IH; [exact Hb | lia | lia].
Qed.

(** ** Digits written and digits read *)

Lemma digits_app :
  forall (a rest : string) (acc n : Z),
    all_chars is_digit a = true ->
    digits (a ++ rest) acc n =
    digits rest (read_digits a acc) (n + Z.of_nat (String.length a)).
Proof.
  induction a as [|c a IH]; intros rest acc n H.
  - cbn [append read_digits String.length Z.of_nat]. rewrite Z.add_0_r. reflexivity.
  - cbn [all_chars] in H. apply andb_prop in H. destruct H as [Hc Ha].
    cbn [append digits read_digits]. rewrite Hc, (IH rest _ _ Ha).
    f_equal. cbn [String.length]. lia.
Qed.

Lemma append_empty : forall s : string, (s ++ "")%string = s.
Proof. induction s as [|c s IH]; [reflexivity|]. cbn [append]. rewrite IH. reflexivity. Qed.

Lemma digits_all :
  forall (a : string) (acc n : Z),
    all_chars is_digit a = true ->
    digits a acc n = (read_digits a acc, n + Z.of_nat (String.length a), "").
Proof.
  intros a acc n H. rewrite <- (append_empty a) at 1. rewrite (digits_app a "" acc n H).
  reflexivity.
Qed.

Lemma read_digits_app :
  forall (a b : string) (acc : Z),
    read_digits (a ++ b) acc = read_digits b (read_digits a acc).
Proof.
  induction a as [|c a IH]; intros b acc; [reflexivity|].
  cbn [append read_digits]. apply IH.
Qed.

Lemma read_digits_zeros :
  forall (j : nat) (acc : Z),
    read_digits (repeat_char "0" j) acc = acc * 10 ^ Z.of_nat j.
Proof.
  induction j as [|j IH]; intros acc.
  - cbn [repeat_char read_digits Z.of_nat]. rewrite Z.pow_0_r. lia.
  - cbn [repeat_char read_digits]. rewrite IH, Nat2Z.inj_succ, Z.pow_succ_r by lia.
    change (digit_val "0") with 0. ring.
Qed.

Lemma length_append :
  forall a b : string,
    String.length (a ++ b) = (String.length a + String.length b)%nat.
Proof.
  induction a as [|c a IH]; intros b; [reflexivity|].
  cbn [append String.length]. rewrite IH. reflexivity.
Qed.

Lemma length_repeat_char :
  forall (c : ascii) (j : nat), String.length (repeat_char c j) = j.
Proof.
  intros c j. induction j as [|j IH]; [reflexivity|].
  cbn [repeat_char String.length]. rewrite IH. reflexivity.
Qed.

Lemma digit_val_char :
  forall k : Z, 0 <= k < 10 -> digit_val (ascii_of_nat (Z.to_nat (48 + k))) = k.
Proof.
  intros k H.
  assert (E : k = 0 \/ k = 1 \/ k = 2 \/ k = 3 \/ k = 4 \/ k = 5 \/ k = 6 \/ k = 7
              \/ k = 8 \/ k = 9) by lia.
  repeat (destruct E as [-> | E]; [reflexivity|]). subst. reflexivity.
Qed.

Lemma ndigits10_fuel_pos : forall (fuel : nat) (z : Z), 1 <= ndigits10_fuel fuel z.
Proof.
  induction fuel as [|fuel IH]; intros z; cbn [ndigits10_fuel]; [lia|].
  destruct (z <? 10); [lia|]. specialize (IH (z / 10)). lia.
Qed.

Lemma fuel_step :
  forall (fuel : nat) (z : Z),
    z < 10 * 2 ^ Z.of_nat (S fuel) -> z / 10 < 10 * 2 ^ Z.of_nat fuel.
Proof.
  intros fuel z H. rewrite Nat2Z.inj_succ, Z.pow_succ_r in H by lia.
  assert (0 < 2 ^ Z.of_nat fuel) by (apply Z.pow_pos_nonneg; lia).
  apply Z.div_lt_upper_bound; lia.
Qed.

Lemma read_digits_of_fuel :
  forall (fuel : nat) (z : Z) (s : string) (a : Z),
    0 <= z -> z < 10 * 2 ^ Z.of_nat fuel ->
    read_digits (digits_of_fuel fuel z s) a =
    read_digits s (a * 10 ^ ndigits10_fuel fuel z + z).
Proof.
  induction fuel as [|fuel IH]; intros z s a Hz Hb.
  - cbn [Z.of_nat] in Hb. rewrite Z.pow_0_r in Hb.
    cbn [digits_of_fuel ndigits10_fuel read_digits].
    rewrite digit_val_char by (apply Z.mod_pos_bound; lia).
    rewrite Z.mod_small by lia. f_equal. rewrite Z.pow_1_r. ring.
  - cbn [digits_of_fuel ndigits10_fuel]. destruct (z <? 10) eqn:E.
    + apply Z.ltb_lt in E. cbn [read_digits].
      rewrite digit_val_char by (apply Z.mod_pos_bound; lia).
      rewrite Z.mod_small by lia. f_equal. rewrite Z.pow_1_r. ring.
    + apply Z.ltb_ge in E.
      rewrite IH by (try (apply Z.div_pos; lia); apply fuel_step; exact Hb).
      cbn [read_digits]. rewrite digit_val_char by (apply Z.mod_pos_bound; lia).
      f_equal. pose proof (ndigits10_fuel_pos fuel (z / 10)).
      rewrite Z.pow_add_r, Z.pow_1_r by lia.
      pose proof (Z.div_mod z 10 ltac:(lia)). lia.
Qed.

Lemma log2_fuel : forall z : Z, 0 <= z -> z < 10 * 2 ^ Z.of_nat (Z.to_nat (Z.log2 z)).
Proof.
  intros z Hz. rewrite Z2Nat.id by apply Z.log2_nonneg.
  destruct (Z.eq_dec z 0) as [->|Hne]; [cbn; lia|].
  pose proof (Z.log2_spec z ltac:(lia)) as [_ H].
  rewrite Z.pow_succ_r in H by apply Z.log2_nonneg. lia.
Qed.

Lemma read_digits_of :
  forall z a : Z,
    0 <= z -> read_digits (digits_of z) a = a * 10 ^ ndigits10 z + z.
Proof.
  intros z a Hz. unfold digits_of, ndigits10.
  rewrite read_digits_of_fuel by (try exact Hz; apply log2_fuel; exact Hz).
  reflexivity.
Qed.

Lemma length_digits_of_fuel :
  forall (fuel : nat) (z : Z) (s : string),
    Z.of_nat (String.length (digits_of_fuel fuel z s)) =
    ndigits10_fuel fuel z + Z.of_nat (String.length s).
Proof.
  induction fuel as [|fuel IH]; intros z s; cbn [digits_of_fuel ndigits10_fuel].
  - cbn [String.length]. lia.
  - destruct (z <? 10); [cbn [String.length]; lia|].
    rewrite IH. cbn [String.length]. lia.
Qed.

Lemma length_digits_of :
  forall z : Z, Z.of_nat (String.length (digits_of z)) = ndigits10 z.
Proof.
  intros z. unfold digits_of, ndigits10. rewrite length_digits_of_fuel.
  cbn [String.length Z.of_nat]. lia.
Qed.

Lemma ndigits10_fuel_bounds :
  forall (fuel : nat) (z : Z),
    0 < z -> z < 10 * 2 ^ Z.of_nat fuel ->
    10 ^ (ndigits10_fuel fuel z - 1) <= z < 10 ^ ndigits10_fuel fuel z.
Proof.
  induction fuel as [|fuel IH]; intros z Hz Hb.
  - cbn [Z.of_nat] in Hb. rewrite Z.pow_0_r in Hb. cbn [ndigits10_fuel]. cbn. lia.
  - cbn [ndigits10_fuel]. destruct (z <? 10) eqn:E.
    + apply Z.ltb_lt in E. cbn. lia.
    + apply Z.ltb_ge in E.
      assert (Hq : 0 < z / 10) by (apply Z.div_str_pos; lia).
      destruct (IH (z / 10) Hq (fuel_step fuel z Hb)) as [L U].
      pose proof (ndigits10_fuel_pos fuel (z / 10)) as Hp.
      pose proof (Z.div_mod z 10 ltac:(lia)) as Hdm.
      pose proof (Z.mod_pos_bound z 10 ltac:(lia)) as Hm.
      replace (1 + ndigits10_fuel fuel (z / 10) - 1)
        with (Z.succ (ndigits10_fuel fuel (z / 10) - 1)) by lia.
      replace (1 + ndigits10_fuel fuel (z / 10))
        with (Z.succ (ndigits10_fuel fuel (z / 10))) by lia.
      rewrite !Z.pow_succ_r by lia. lia.
Qed.

Lemma ndigits10_bounds :
  forall z : Z, 0 < z -> 10 ^ (ndigits10 z - 1) <= z < 10 ^ ndigits10 z.
Proof.
  intros z Hz. unfold ndigits10. apply ndigits10_fuel_bounds; [exact Hz|].
  apply log2_fuel. lia.
Qed.

Lemma ndigits10_shift :
  forall D j : Z, 0 < D -> 0 <= j -> ndigits10 (D * 10 ^ j) = ndigits10 D + j.
Proof.
  intros D j HD Hj.
  assert (Hp : 0 < 10 ^ j) by (apply Z.pow_pos_nonneg; lia).
  destruct (ndigits10_bounds D HD) as [L U].
  destruct (ndigits10_bounds (D * 10 ^ j) ltac:(nia)) as [L' U'].
  pose proof (ndigits10_fuel_pos (Z.to_nat (Z.log2 D)) D) as P1.
  pose proof (ndigits10_fuel_pos (Z.to_nat (Z.log2 (D * 10 ^ j))) (D * 10 ^ j)) as P2.
  fold (ndigits10 D) in P1. fold (ndigits10 (D * 10 ^ j)) in P2.
  set (a := ndigits10 (D * 10 ^ j)) in *. set (b := ndigits10 D) in *.
  assert (U2 : D * 10 ^ j < 10 ^ (b + j)) by (rewrite Z.pow_add_r by lia; nia).
  assert (L2 : 10 ^ (b - 1 + j) <= D * 10 ^ j) by (rewrite Z.pow_add_r by lia; nia).
  destruct (Z.lt_trichotomy a (b + j)) as [Hlt | [Heq | Hgt]]; [|exact Heq|].
  - assert (10 ^ a <= 10 ^ (b - 1 + j)) by (apply Z.pow_le_mono_r; lia). lia.
  - assert (10 ^ (b + j) <= 10 ^ (a - 1)) by (apply Z.pow_le_mono_r; lia). lia.
Qed.

Lemma strip_zeros_fuel_strip10 :
  forall (fuel : nat) (z e : Z), strip_zeros_fuel fuel z = fst (strip10 fuel z e).
Proof.
  induction fuel as [|fuel IH]; intros z e; [reflexivity|].
  cbn [strip_zeros_fuel strip10].
  destruct ((z mod 10 =? 0) && (0 <? z)); [apply IH | reflexivity].
Qed.

Lemma strip_zeros_normal :
  forall z e : Z, strip_zeros z = fst (normal_decimal z e).
Proof. intros z e. apply strip_zeros_fuel_strip10. Qed.

Lemma substring_split :
  forall (s : string) (n : nat),
    (n <= String.length s)%nat ->
    (String.substring 0 n s ++ String.substring n (String.length s - n) s)%string = s /\
    String.length (String.substring 0 n s) = n.
Proof.
  induction s as [|c s IH]; intros n H.
  - cbn [String.length] in H. assert (n = O) by lia. subst n. split; reflexivity.
  - destruct n as [|n].
    + cbn [String.substring String.length Nat.sub append].
      split; [|reflexivity]. f_equal.
      destruct (IH O ltac:(lia)) as [E _]. rewrite Nat.sub_0_r in E.
      destruct s; [reflexivity|]. cbn [String.substring append] in E |- *. exact E.
    + cbn [String.length] in H. destruct (IH n ltac:(lia)) as [E L].
      cbn [String.substring String.length Nat.sub append]. rewrite E, L.
      split; reflexivity.
Qed.

(** ** [float] of what [repr] prints *)

Lemma plain_char_numeral :
  forall c : ascii,
    plain_char c = true ->
    negb (is_cspace c) = true /\ Ascii.eqb c "_" = false /\
    (is_digit c = false -> Ascii.eqb c "." = true \/ Ascii.eqb c "-" = true).
Proof.
  intros c. destruct c as [[] [] [] [] [] [] [] []]; vm_compute; intros H;
    try discriminate H; repeat split; intros; try discriminate; tauto.
Qed.

Lemma take_sign_digit :
  forall (c : ascii) (t : string),
    is_digit c = true -> take_sign (String c t) = (false, String c t).
Proof.
  intros c t. destruct c as [[] [] [] [] [] [] [] []]; vm_compute; intros H;
    try discriminate H; reflexivity.
Qed.

Lemma digits_stop :
  forall (c : ascii) (t : string) (acc n : Z),
    is_digit c = false -> digits (String c t) acc n = (acc, n, String c t).
Proof. intros c t acc n H. cbn [digits]. rewrite H. reflexivity. Qed.

Lemma remove_underscores_plain :
  forall (s : string) (pd : bool),
    all_chars plain_char s = true -> remove_underscores pd false s = Some s.
Proof.
  induction s as [|c s IH]; intros pd H; [reflexivity|].
  cbn [all_chars] in H. apply andb_prop in H. destruct H as [Hc Hs].
  destruct (plain_char_numeral c Hc) as (_ & Hu & _).
  cbn [remove_underscores]. rewrite Hu. cbn [andb]. rewrite (IH _ Hs). reflexivity.
Qed.

Lemma string_append_assoc :
  forall a b c : string, ((a ++ b) ++ c)%string = (a ++ (b ++ c))%string.
Proof.
  induction a as [|x a IH]; intros b c; [reflexivity|].
  cbn [append]. rewrite IH. reflexivity.
Qed.

Lemma of_decimal_normal :
  forall (sx : bool) (M1 E1 M2 E2 : Z),
    normal_decimal M1 E1 = normal_decimal M2 E2 ->
    of_decimal sx M1 E1 = of_decimal sx M2 E2.
Proof. intros sx M1 E1 M2 E2 H. unfold of_decimal. rewrite H. reflexivity. Qed.

Lemma digits_of_first :
  forall D : Z, exists c t, digits_of D = String c t /\ is_digit c = true.
Proof.
  intros D. pose proof (digits_of_digits D) as H.
  pose proof (length_digits_of D) as L.
  pose proof (ndigits10_fuel_pos (Z.to_nat (Z.log2 D)) D) as P. fold (ndigits10 D) in P.
  destruct (digits_of D) as [|c t].
  - cbn [String.length Z.of_nat] in L. lia.
  - cbn [all_chars] in H. apply andb_prop in H. exists c, t. tauto.
Qed.

(** What [strtod] reads in the positional layout of [repr]. *)
Lemma strtod_format_repr :
  forall (neg : bool) (D decpt : Z) (s0 : string),
    0 < D ->
    (decpt <=? -4) || (16 <? decpt) = false ->
    take_sign s0 = (neg, format_repr (digits_of D) decpt) ->
    strtod s0 = Some (of_decimal neg D (decpt - ndigits10 D)).
Proof.
  intros neg D decpt s0 HD Hp Hs. unfold strtod. rewrite Hs. clear Hs.
  unfold format_repr. rewrite Hp.
  pose proof (digits_of_digits D) as Hd.
  pose proof (length_digits_of D) as Hl.
  assert (Hr : read_digits (digits_of D) 0 = D) by (rewrite read_digits_of by lia; lia).
  set (ds := digits_of D) in *. rewrite Hl.
  destruct (decpt <=? 0) eqn:E0.
  - apply Z.leb_le in E0.
    change ("0." ++ repeat_char "0" (Z.to_nat (- decpt)) ++ ds)%string
      with ("0" ++ String "." (repeat_char "0" (Z.to_nat (- decpt)) ++ ds))%string.
    rewrite digits_app by reflexivity. rewrite digits_stop by reflexivity.
    rewrite digits_all
      by (rewrite all_chars_app, all_chars_repeat, Hd by reflexivity; reflexivity).
    rewrite read_digits_app, length_append, length_repeat_char.
    change (read_digits "0" 0) with 0. rewrite read_digits_zeros, Z.mul_0_l, Hr.
    change (Z.of_nat (String.length "0")) with 1.
    rewrite Nat2Z.inj_add, Z2Nat.id, Hl by lia.
    pose proof (ndigits10_fuel_pos (Z.to_nat (Z.log2 D)) D) as P. fold (ndigits10 D) in P.
    match goal with
    | |- (if ?c then _ else _) = _ =>
        destruct c eqn:E; [apply Z.eqb_eq in E; exfalso; lia|]
    end.
    f_equal. f_equal; lia.
  - apply Z.leb_gt in E0. destruct (ndigits10 D <=? decpt) eqn:E1.
    + apply Z.leb_le in E1.
      rewrite <- string_append_assoc.
      rewrite digits_app
        by (rewrite all_chars_app, all_chars_repeat, Hd by reflexivity; reflexivity).
      rewrite digits_stop by reflexivity.
      rewrite digits_all by reflexivity.
      rewrite read_digits_app, read_digits_zeros, Hr, length_append, length_repeat_char.
      rewrite Nat2Z.inj_add, Z2Nat.id, Hl by lia.
      change (Z.of_nat (String.length "0")) with 1.
      pose proof (ndigits10_fuel_pos (Z.to_nat (Z.log2 D)) D) as P. fold (ndigits10 D) in P.
      match goal with
      | |- (if ?c then _ else _) = _ =>
          destruct c eqn:E; [apply Z.eqb_eq in E; exfalso; lia|]
      end.
      cbn [read_digits]. change (digit_val "0") with 0.
      f_equal. apply of_decimal_normal.
      assert (H10 : 0 < 10 ^ (decpt - ndigits10 D)) by (apply Z.pow_pos_nonneg; lia).
      apply (normal_decimal_eq _ _ _ _ (-1)); try lia.
      replace (- (0 + 1) - -1) with 0 by lia.
      replace (decpt - ndigits10 D - -1) with (Z.succ (decpt - ndigits10 D)) by lia.
      rewrite Z.pow_0_r, Z.pow_succ_r by lia. ring.
    + apply Z.leb_gt in E1.
      destruct (substring_split ds (Z.to_nat decpt) ltac:(lia)) as [Esp Elen].
      unfold substring_from.
      set (pre := String.substring 0 (Z.to_nat decpt) ds) in *.
      set (suf := String.substring (Z.to_nat decpt) (String.length ds - Z.to_nat decpt) ds) in *.
      assert (Hpre : all_chars is_digit pre = true) by (apply all_chars_substring; exact Hd).
      assert (Hsuf : all_chars is_digit suf = true) by (apply all_chars_substring; exact Hd).
      rewrite digits_app by exact Hpre.
      change ("." ++ suf)%string with (String "." suf).
      rewrite digits_stop by reflexivity.
      rewrite digits_all by exact Hsuf.
      rewrite <- read_digits_app, Esp, Hr, Elen.
      assert (Hls : Z.of_nat (String.length suf) = ndigits10 D - decpt).
      { rewrite <- Hl, <- Esp at 1. rewrite length_append, Elen. lia. }
      rewrite Hls, Z2Nat.id by lia.
      match goal with
      | |- (if ?c then _ else _) = _ =>
          destruct c eqn:E; [apply Z.eqb_eq in E; exfalso; lia|]
      end.
      f_equal. f_equal; lia.
Qed.

Lemma binary_round_aux_sign :
  forall (sx : bool) (q ex : Z) (l : location) (m : positive) (e : Z),
    binary_round_aux prec emax false q ex l = S754_finite false m e ->
    binary_round_aux prec emax sx q ex l = S754_finite sx m e.
Proof.
  intros sx q ex l m e. unfold binary_round_aux.
  destruct (shr_fexp prec emax q ex l) as [mrs' e'].
  destruct (shr_fexp prec emax _ e' loc_Exact) as [mrs'' e''].
  destruct (shr_m mrs'') as [|p|p]; try discriminate.
  destruct (e'' <=? emax - prec); [|discriminate].
  intros H. inversion H. reflexivity.
Qed.

Lemma of_decimal_sign :
  forall (sx : bool) (M E : Z) (m : positive) (e : Z),
    of_decimal false M E = S754_finite false m e ->
    of_decimal sx M E = S754_finite sx m e.
Proof.
  intros sx M E m e. unfold of_decimal.
  destruct (normal_decimal M E) as [M' E'].
  destruct M' as [|p|p]; try discriminate.
  destruct (0 <=? E').
  - unfold binary_round. destruct (shl_align _ _ _) as [mz ez].
    apply binary_round_aux_sign.
  - destruct (SFdiv_core_binary prec emax (Zpos p) 0 (10 ^ (- E')) 0) as [[q e'] l].
    apply binary_round_aux_sign.
Qed.

Lemma format_repr_first :
  forall D decpt : Z,
    exists c t, format_repr (digits_of D) decpt = String c t /\
                ((decpt <=? -4) || (16 <? decpt) = false -> is_digit c = true).
Proof.
  intros D decpt. unfold format_repr.
  destruct (digits_of_first D) as (c & t & E & Hc). rewrite E.
  destruct ((decpt <=? -4) || (16 <? decpt)).
  - cbn [String.substring append]. eexists _, _. split; [reflexivity | discriminate].
  - destruct (decpt <=? 0) eqn:E0.
    + eexists _, _. split; [reflexivity | reflexivity].
    + destruct (Z.of_nat (String.length (String c t)) <=? decpt).
      * cbn [append]. eexists _, _. split; [reflexivity | intros _; exact Hc].
      * apply Z.leb_gt in E0.
        destruct (Z.to_nat decpt) as [|n] eqn:En; [lia|].
        cbn [String.substring append]. eexists _, _.
        split; [reflexivity | intros _; exact Hc].
Qed.

(** [float] reads what [str] writes: for a binary64 number whose [str] is in
    positional notation, [float(str(v))] is [v]. *)
Lemma float_of_str_repr :
  forall v : float,
    valid_binary prec emax v = true ->
    positional v = true ->
    float_of_str (str_of_float v) = Ok v.
Proof.
  intros v Hv Hp.
  destruct (str_of_float_positional v Hp) as [Hs Hne].
  destruct v as [s|s| |s m e]; try discriminate Hp.
  { destruct s; reflexivity. }
  cbn [valid_binary] in Hv.
  assert (Hstr : strtod (str_of_float (S754_finite s m e)) = Some (S754_finite s m e)).
  { cbn [positional] in Hp. apply negb_true_iff in Hp.
    unfold str_of_float in *. unfold shortest in *.
    destruct (fraction m e) as [num den].
    set (p := decpt_of num den) in *.
    set (F := Z.to_nat (Z.max 16 (p - Z.min e 0))) in *.
    pose proof (shortest_from_reads_back F 1 m e p Hv ltac:(unfold F; lia)
                  ltac:(unfold F; lia)) as Hback.
    destruct (shortest_from F 1 m e p) as [d k]. cbn [fst snd] in Hback, Hp.
    pose proof (of_decimal_finite_pos _ _ _ _ _ _ Hback) as Hd.
    destruct (normal_decimal_spec d k Hd) as (HD & _ & Hz & Hval).
    rewrite <- (strip_zeros_normal d k) in HD, Hval.
    set (D := strip_zeros d) in *. set (E' := snd (normal_decimal d k)) in *.
    assert (Hnd : ndigits10 d = ndigits10 D + (E' - k)).
    { rewrite Hval at 1. apply ndigits10_shift; lia. }
    assert (Hof : forall neg, of_decimal neg D (ndigits10 d + k - ndigits10 D) =
                              S754_finite neg m e).
    { intros neg. apply of_decimal_sign. rewrite <- Hback. apply of_decimal_normal.
      apply (normal_decimal_eq _ _ _ _ k); try lia.
      rewrite Z.sub_diag, Z.pow_0_r, Z.mul_1_r. rewrite Hval at 2. f_equal. f_equal. lia. }
    rewrite <- (Hof s).
    apply strtod_format_repr; [exact HD | exact Hp |].
    destruct s; [reflexivity|].
    destruct (format_repr_first D (ndigits10 d + k)) as (c & t & Ef & Hc).
    cbn [append]. rewrite Ef. apply take_sign_digit, Hc, Hp. }
  unfold float_of_str.
  rewrite lstrip_by_none, rstrip_by_none;
    try (eapply all_chars_impl; [|exact Hs]; intros c Hc; apply plain_char_numeral, Hc).
  destruct (String.eqb (str_of_float (S754_finite s m e)) "") eqn:Ee.
  { apply String.eqb_eq in Ee. contradiction. }
  rewrite remove_underscores_plain by exact Hs. rewrite Hstr. reflexivity.
Qed.

(** ** What [float] reads is a binary64 number *)

Lemma Zdigits2_bounds :
  forall z : Z, 0 < z -> 2 ^ (Zdigits2 z - 1) <= z < 2 ^ Zdigits2 z.
Proof. intros [|p|p] H; try lia. apply digits2_bounds. Qed.

Lemma Zdigits2_unique :
  forall z d : Z, 0 < z -> 2 ^ (d - 1) <= z < 2 ^ d -> Zdigits2 z = d.
Proof. intros [|p|p] d H B; try lia. apply digits2_unique. exact B. Qed.

Lemma Zdigits2_pos : forall z : Z, 0 < z -> 1 <= Zdigits2 z.
Proof. intros [|p|p] H; try lia. cbn [Zdigits2]. lia. Qed.

Lemma Zdigits2_ge :
  forall z a : Z, 0 < z -> 2 ^ a <= z -> a + 1 <= Zdigits2 z.
Proof.
  intros z a Hz H. destruct (Zdigits2_bounds z Hz) as [_ U].
  destruct (Z.le_gt_cases (a + 1) (Zdigits2 z)) as [|Hlt]; [assumption|].
  assert (2 ^ Zdigits2 z <= 2 ^ a) by (apply Z.pow_le_mono_r; lia). lia.
Qed.

Lemma shr_1_div2 :
  forall r : shr_record, 0 <= shr_m r -> shr_m (shr_1 r) = shr_m r / 2.
Proof.
  intros [m rr s] H. cbn [shr_m] in *. rewrite <- Z.div2_div.
  destruct m as [|p|p]; [reflexivity| |lia]. destruct p; reflexivity.
Qed.

Lemma iter_shr_div :
  forall (k : nat) (r : shr_record),
    0 <= shr_m r -> shr_m (Nat.iter k shr_1 r) = shr_m r / 2 ^ Z.of_nat k.
Proof.
  induction k as [|k IH]; intros r H.
  - change (Nat.iter 0 shr_1 r) with r. cbn [Z.of_nat]. rewrite Z.pow_0_r, Z.div_1_r.
    reflexivity.
  - change (Nat.iter (S k) shr_1 r) with (shr_1 (Nat.iter k shr_1 r)).
    assert (H2 : 0 < 2 ^ Z.of_nat k) by (apply Z.pow_pos_nonneg; lia).
    rewrite shr_1_div2 by (rewrite IH by exact H; apply Z.div_pos; lia).
    rewrite IH by exact H. rewrite Z.div_div by lia.
    rewrite Nat2Z.inj_succ, Z.pow_succ_r by lia. f_equal. lia.
Qed.

Lemma shr_m_of_loc : forall (m : Z) (l : location), shr_m (shr_record_of_loc m l) = m.
Proof. intros m [|[]]; reflexivity. Qed.

Lemma shr_fexp_result :
  forall (mx ex : Z) (l : location),
    0 <= mx ->
    let n := fexp prec emax (Zdigits2 mx + ex) - ex in
    (0 < n ->
     shr_m (fst (shr_fexp prec emax mx ex l)) = mx / 2 ^ n /\
     snd (shr_fexp prec emax mx ex l) = ex + n) /\
    (n <= 0 ->
     shr_m (fst (shr_fexp prec emax mx ex l)) = mx /\
     snd (shr_fexp prec emax mx ex l) = ex).
Proof.
  intros mx ex l H n. unfold shr_fexp, shr. fold n.
  destruct n as [|p|p] eqn:En; cbn [fst snd].
  - split; [lia|]. intros _. split; [apply shr_m_of_loc | reflexivity].
  - split; [|lia]. intros _. split; [|reflexivity].
    rewrite iter_pos_nat, iter_shr_div by (rewrite shr_m_of_loc; exact H).
    rewrite shr_m_of_loc, positive_nat_Z. reflexivity.
  - split; [lia|]. intros _. split; [apply shr_m_of_loc | reflexivity].
Qed.

(** The mantissa fits the exponent; a zero mantissa stands at the least
    exponent. *)
Lemma shr_fexp_fits :
  forall (mx ex : Z) (l : location),
    0 <= mx ->
    ex <= fexp prec emax (Zdigits2 mx + ex) ->
    0 <= shr_m (fst (shr_fexp prec emax mx ex l)) /\
    fexp prec emax (Zdigits2 (shr_m (fst (shr_fexp prec emax mx ex l)))
                    + snd (shr_fexp prec emax mx ex l))
    = snd (shr_fexp prec emax mx ex l).
Proof.
  intros mx ex l H Ha.
  destruct (shr_fexp_result mx ex l H) as [Hpos Hneg].
  set (n := fexp prec emax (Zdigits2 mx + ex) - ex) in *.
  destruct (Z.ltb_spec 0 n) as [Hn|Hn].
  - destruct (Hpos Hn) as [Em Ee]. rewrite Em, Ee.
    assert (H2 : 0 < 2 ^ n) by (apply Z.pow_pos_nonneg; lia).
    split; [apply Z.div_pos; lia|].
    replace (ex + n) with (fexp prec emax (Zdigits2 mx + ex)) by (unfold n; lia).
    destruct (Z.eq_dec (mx / 2 ^ n) 0) as [E0|E0].
    + rewrite E0. cbn [Zdigits2].
      assert (Hlt : mx < 2 ^ n).
      { destruct (Z.ltb_spec mx (2 ^ n)) as [|Hge]; [assumption|].
        assert (1 <= mx / 2 ^ n); [|lia].
        apply Z.div_le_lower_bound; lia. }
      assert (Hd : Zdigits2 mx <= n).
      { destruct (Z.eq_dec mx 0) as [->|]; [cbn; lia|].
        destruct (Zdigits2_bounds mx ltac:(lia)) as [L _].
        destruct (Z.le_gt_cases (Zdigits2 mx) n) as [|Hgt]; [assumption|].
        assert (2 ^ n <= 2 ^ (Zdigits2 mx - 1)) by (apply Z.pow_le_mono_r; lia). lia. }
      unfold n in Hd. unfold fexp, emin, prec, emax in *. lia.
    + assert (Hq : 0 < mx / 2 ^ n) by (pose proof (Z.div_pos mx (2 ^ n)); lia).
      assert (Hmx : 0 < mx).
      { destruct (Z.eq_dec mx 0) as [->|]; [rewrite Z.div_0_l in Hq; lia | lia]. }
      destruct (Zdigits2_bounds mx Hmx) as [L U].
      assert (Hdn : n < Zdigits2 mx).
      { destruct (Z.lt_ge_cases n (Zdigits2 mx)) as [|Hge]; [assumption|].
        assert (2 ^ Zdigits2 mx <= 2 ^ n) by (apply Z.pow_le_mono_r; lia).
        rewrite Z.div_small in Hq by lia. lia. }
      rewrite (Zdigits2_unique (mx / 2 ^ n) (Zdigits2 mx - n) Hq).
      * f_equal. unfold n. lia.
      * split.
        -- apply Z.div_le_lower_bound; [lia|].
           rewrite <- Z.pow_add_r by lia.
           replace (n + (Zdigits2 mx - n - 1)) with (Zdigits2 mx - 1) by lia. exact L.
        -- apply Z.div_lt_upper_bound; [lia|].
           rewrite <- Z.pow_add_r by lia.
           replace (n + (Zdigits2 mx - n)) with (Zdigits2 mx) by lia. exact U.
  - destruct (Hneg Hn) as [Em Ee]. rewrite Em, Ee. split; [exact H|].
    unfold n in Hn. lia.
Qed.

Lemma Zdigits2_succ :
  forall z : Z,
    0 <= z ->
    Zdigits2 (z + 1) = Zdigits2 z \/
    (Zdigits2 (z + 1) = Zdigits2 z + 1 /\ z + 1 = 2 ^ Zdigits2 z).
Proof.
  intros z Hz. destruct (Z.eq_dec z 0) as [->|Hne]; [right; split; reflexivity|].
  destruct (Zdigits2_bounds z ltac:(lia)) as [L U].
  pose proof (Zdigits2_pos z ltac:(lia)) as P.
  destruct (Z.eq_dec (z + 1) (2 ^ Zdigits2 z)) as [E|E].
  - right. split; [|exact E]. apply Zdigits2_unique; [lia|].
    replace (Zdigits2 z + 1 - 1) with (Zdigits2 z) by lia.
    replace (Zdigits2 z + 1) with (Z.succ (Zdigits2 z)) by lia.
    rewrite Z.pow_succ_r by lia. lia.
  - left. apply Zdigits2_unique; lia.
Qed.

Lemma binary_round_aux_valid :
  forall (sx : bool) (mx ex : Z) (lx : location),
    0 <= mx ->
    ex <= fexp prec emax (Zdigits2 mx + ex) ->
    valid_binary prec emax (binary_round_aux prec emax sx mx ex lx) = true.
Proof.
  intros sx mx ex lx H Ha. unfold binary_round_aux.
  destruct (shr_fexp_fits mx ex lx H Ha) as [H1 F1].
  destruct (shr_fexp prec emax mx ex lx) as [mrs' e']. cbn [fst snd] in H1, F1.
  set (m1 := shr_m mrs') in *.
  set (m2 := round_nearest_even m1 (loc_of_shr_record mrs')).
  assert (Hm2 : m2 = m1 \/ m2 = m1 + 1).
  { unfold m2, round_nearest_even. destruct (loc_of_shr_record mrs') as [|[]]; try tauto.
    destruct (Z.even m1); tauto. }
  assert (H2 : 0 <= m2) by lia.
  assert (Ha2 : e' <= fexp prec emax (Zdigits2 m2 + e')).
  { destruct Hm2 as [->| ->]; [lia|].
    destruct (Zdigits2_succ m1 H1) as [E | [E _]]; rewrite E; [lia|].
    unfold fexp in *. lia. }
  destruct (shr_fexp_fits m2 e' loc_Exact H2 Ha2) as [H3 F3].
  destruct (shr_fexp prec emax m2 e' loc_Exact) as [mrs'' e'']. cbn [fst snd] in H3, F3.
  destruct (shr_m mrs'') as [|m|m]; [reflexivity| |lia].
  destruct (e'' <=? emax - prec) eqn:E; [|reflexivity].
  cbn [valid_binary]. unfold bounded, canonical_mantissa. cbn [Zdigits2] in F3.
  rewrite F3, Z.eqb_refl, E. reflexivity.
Qed.

Lemma of_decimal_valid :
  forall (sx : bool) (M E : Z), valid_binary prec emax (of_decimal sx M E) = true.
Proof.
  intros sx M E. unfold of_decimal.
  destruct (normal_decimal M E) as [M' E'].
  destruct M' as [|p|p]; try reflexivity.
  destruct (0 <=? E') eqn:E0.
  - unfold binary_round, shl_align.
    set (N := (p * Z.to_pos (10 ^ E'))%positive).
    destruct (fexp prec emax (Zpos (digits2_pos N) + 0) - 0) as [|d|d] eqn:Ed.
    + apply binary_round_aux_valid; [lia|]. cbn [Zdigits2]. lia.
    + apply binary_round_aux_valid; [lia|]. cbn [Zdigits2]. lia.
    + apply binary_round_aux_valid; [lia|]. cbn [Zdigits2].
      rewrite (digits2_shift N (Pos.iter xO N d) (Zpos d)) by (lia || apply pos_iter_xO).
      replace (Zpos (digits2_pos N) + Zpos d + fexp prec emax (Zpos (digits2_pos N) + 0))
        with (Zpos (digits2_pos N) + 0) by lia.
      lia.
  - apply Z.leb_gt in E0.
    assert (HT : 0 < 10 ^ (- E')) by (apply Z.pow_pos_nonneg; lia).
    destruct (10 ^ (- E')) as [|T|T] eqn:ET; try lia.
    unfold SFdiv_core_binary. cbn [Zdigits2].
    rewrite !Z.add_0_r, Z.sub_diag.
    set (e' := Z.min (fexp prec emax (Zpos (digits2_pos p) - Zpos (digits2_pos T))) 0).
    assert (He0 : e' <= 0) by (unfold e'; lia).
    assert (Hm' : match 0 - e' with
                  | 0 => Zpos p
                  | Zpos _ => Z.shiftl (Zpos p) (0 - e')
                  | Zneg _ => 0
                  end = Zpos p * 2 ^ (- e')).
    { destruct (0 - e') as [|s|s] eqn:Es; try lia.
      - replace (- e') with 0 by lia. rewrite Z.pow_0_r. lia.
      - rewrite Z.shiftl_mul_pow2 by lia. replace (- e') with (Zpos s) by lia. reflexivity. }
    rewrite Hm'.
    pose proof (Z_div_mod (Zpos p * 2 ^ (- e')) (Zpos T) ltac:(lia)) as Hdm.
    destruct (Z.div_eucl (Zpos p * 2 ^ (- e')) (Zpos T)) as [q r].
    destruct Hdm as [Hqr Hr].
    assert (H2 : 0 < 2 ^ (- e')) by (apply Z.pow_pos_nonneg; lia).
    assert (Hq : 0 <= q) by nia.
    apply binary_round_aux_valid; [exact Hq|].
    pose proof (digits2_bounds p) as [Lp _].
    pose proof (digits2_bounds T) as [_ UT].
    set (d1 := Zpos (digits2_pos p)) in *. set (d2 := Zpos (digits2_pos T)) in *.
    assert (Hlow : 2 ^ (d1 - 1 + - e') <= Zpos p * 2 ^ (- e')).
    { rewrite Z.pow_add_r by (unfold d1; lia). nia. }
    destruct (Z.eq_dec q 0) as [->|Hq0].
    + cbn [Zdigits2].
      assert (Hlt : 2 ^ (d1 - 1 + - e') < 2 ^ d2) by lia.
      apply Z.pow_lt_mono_r_iff in Hlt; [|lia|unfold d2; lia].
      unfold e', fexp, emin, prec, emax in *. lia.
    + assert (Hd : d1 - d2 - e' <= Zdigits2 q).
      { destruct (Z.le_gt_cases (d1 - d2 - e') 0) as [Hle|Hgt].
        - pose proof (Zdigits2_pos q ltac:(lia)). lia.
        - assert (2 ^ (d1 - d2 - e' - 1) <= q).
          { assert (Hlt : 2 ^ (d1 - 1 + - e') < (q + 1) * 2 ^ d2) by nia.
            replace (d1 - 1 + - e') with ((d1 - d2 - e' - 1) + d2) in Hlt by lia.
            rewrite Z.pow_add_r in Hlt by (unfold d2; lia).
            assert (0 < 2 ^ d2) by (apply Z.pow_pos_nonneg; unfold d2; lia).
            nia. }
          pose proof (Zdigits2_ge q (d1 - d2 - e' - 1) ltac:(lia) H). lia. }
      unfold e' in *. unfold fexp, emin, prec, emax in *. lia.
Qed.

Lemma strtod_valid :
  forall (u : string) (f : float), strtod u = Some f -> valid_binary prec emax f = true.
Proof.
  intros u f. unfold strtod.
  destruct (take_sign u) as [neg r].
  destruct (digits r 0 0) as [[ip ni] r1].
  destruct (match r1 with
            | String "." t => digits t ip 0
            | _ => (ip, 0, r1)
            end) as [[m nf] r2].
  destruct (ni + nf =? 0); [discriminate|].
  destruct r2 as [|c t].
  - intros H. inversion H. apply of_decimal_valid.
  - destruct (Ascii.eqb c "e" || Ascii.eqb c "E"); [|discriminate].
    destruct (take_sign t) as [eneg t1].
    destruct (digits t1 0 0) as [[ev ne] t2].
    destruct ((ne =? 0) || negb (String.eqb t2 "")); [discriminate|].
    intros H. inversion H. apply of_decimal_valid.
Qed.

Lemma float_of_str_valid :
  forall (s : string) (f : float),
    float_of_str s = Ok f -> valid_binary prec emax f = true.
Proof.
  intros s f. unfold float_of_str.
  destruct (String.eqb _ ""); [discriminate|].
  destruct (remove_underscores false false _) as [u|]; [|discriminate].
  destruct (strtod u) as [g|] eqn:Es.
  - intros H. inversion H; subst. apply (strtod_valid u). exact Es.
  - unfold parse_inf_or_nan. destruct (take_sign u) as [neg r].
    destruct (String.eqb (lower r) "inf" || String.eqb (lower r) "infinity").
    + intros H. inversion H. reflexivity.
    + destruct (String.eqb (lower r) "nan"); [|discriminate].
      intros H. inversion H. reflexivity.
Qed.

Lemma clean_value_valid :
  forall (x : pyvalue) (v : float),
    clean_value x = Some v -> valid_binary prec emax v = true.
Proof.
  intros x v. unfold clean_value.
  destruct (isna x); [discriminate|].
  destruct (str_in _ missing_tokens); [discriminate|].
  destruct (String.eqb _ ""); [discriminate|].
  destruct (float_of_str _) as [f|e] eqn:E; [|discriminate].
  intros H. inversion H; subst. apply (float_of_str_valid _ _ E).
Qed.

(** C8, amended.  For every raw cell [x] that cleans to a value [v] whose
    string form is written in positional notation (a finite float, no
    exponent), cleaning that string again, or the float itself, returns [v]
    and finds no flag: nothing is deleted from [str(v)], and [float] reads
    in it the very number that [repr] wrote. *)
Theorem clean_value_idempotent_positional :
  forall (x : pyvalue) (v : float),
    clean_value x = Some v ->
    positional v = true ->
    extract_flags (Str (str_of_float v)) = [] /\
    clean_value (Str (str_of_float v)) = Some v /\
    clean_value (Flt v) = Some v /\
    float_of_str (str_of_float v) = Ok v.
Proof.
  intros x v Hx Hp.
  destruct (str_of_float_positional v Hp) as [Hs Hne].
  destruct (clean_value_plain (str_of_float v) Hs Hne) as [Hc Hf].
  pose proof (float_of_str_repr v (clean_value_valid x v Hx) Hp) as Hr.
  assert (Hn : is_nan v = false) by (destruct v; try discriminate Hp; reflexivity).
  assert (Hv : clean_value (Flt v) = clean_value (Str (str_of_float v))).
  { unfold clean_value. cbn [isna py_str]. rewrite Hn. reflexivity. }
  rewrite Hv, Hc, Hr. repeat split. exact Hf.
Qed.

Lemma clean_value_idempotent_positional_witness :
  clean_value (Str "12.5 e") = Some (of_decimal false 125 (-1)) /\
  str_of_float (of_decimal false 125 (-1)) = "12.5" /\
  clean_value (Str "12.5") = Some (of_decimal false 125 (-1)) /\
  extract_flags (Str "12.5") = [].
Proof.
  split; [reflexivity|]. split; [reflexivity|].
  destruct (clean_value_idempotent_positional (Str "12.5 e") (of_decimal false 125 (-1))
              eq_refl eq_refl) as (Hf & Hc & _).
  split; [exact Hc | exact Hf].
Defined.

(* ================================================================== *)
(** * Further properties of the two scripts *)

(** ** Strings *)

Lemma split_not_nil : forall (sep : ascii) (s : string), split sep s <> [].
Proof.
  intros sep s. induction s as [|c s IH]; cbn [split]; [discriminate|].
  destruct (Ascii.eqb c sep); [discriminate|].
  destruct (split sep s); discriminate.
Qed.

Lemma split_length :
  forall (sep : ascii) (s : string),
    List.length (split sep s) = S (count_char sep s).
Proof.
  intros sep s. induction s as [|c s IH]; [reflexivity|].
  cbn [split count_char]. destruct (Ascii.eqb c sep).
  - cbn [List.length]. rewrite IH. reflexivity.
  - destruct (split sep s) as [|f fs] eqn:E; [exfalso; eapply split_not_nil; exact E|].
    cbn [List.length] in *. exact IH.
Qed.

Lemma split_parts_no_sep :
  forall (sep : ascii) (s : string),
    Forall (fun f => contains sep f = false) (split sep s).
Proof.
  intros sep s. induction s as [|c s IH]; cbn [split].
  - repeat constructor.
  - destruct (Ascii.eqb c sep) eqn:E.
    + constructor; [reflexivity | exact IH].
    + destruct (split sep s) as [|f fs]; [repeat constructor; cbn; rewrite E; reflexivity|].
      inversion IH; subst. constructor; [|assumption].
      cbn [contains]. rewrite E. assumption.
Qed.

(** A character of the first part of a split is a character of the
    string. *)
Lemma split_hd_contains :
  forall (sep c : ascii) (s : string),
    contains c (hd EmptyString (split sep s)) = true -> contains c s = true.
Proof.
  intros sep c s. induction s as [|d s IH]; cbn [split]; [intros H; exact H|].
  destruct (Ascii.eqb d sep).
  - cbn. discriminate.
  - destruct (split sep s) as [|f fs] eqn:E; cbn [hd contains] in *.
    + rewrite orb_false_r. intros H. rewrite H. reflexivity.
    + intros H. apply orb_prop in H. destruct H as [H | H].
      * rewrite H. reflexivity.
      * rewrite (IH H), orb_true_r. reflexivity.
Qed.

Lemma lstrip_by_contains :
  forall (p : ascii -> bool) (c : ascii) (s : string),
    contains c (lstrip_by p s) = true -> contains c s = true.
Proof.
  intros p c s. induction s as [|d s IH]; [intros H; exact H|].
  cbn [lstrip_by]. destruct (p d); [|intros H; exact H].
  intros H. cbn [contains]. rewrite (IH H), orb_true_r. reflexivity.
Qed.

Lemma rstrip_by_contains :
  forall (p : ascii -> bool) (c : ascii) (s : string),
    contains c (rstrip_by p s) = true -> contains c s = true.
Proof.
  intros p c s. induction s as [|d s IH]; [intros H; exact H|].
  cbn [rstrip_by]. destruct (rstrip_by p s) as [|e r] eqn:E.
  - destruct (p d); cbn [contains]; [discriminate|].
    rewrite orb_false_r. intros H. rewrite H. reflexivity.
  - cbn [contains] in *. intros H. apply orb_prop in H. destruct H as [H | H].
    + rewrite H. reflexivity.
    + rewrite (IH H), orb_true_r. reflexivity.
Qed.

Lemma strip_contains :
  forall (c : ascii) (s : string), contains c (strip s) = true -> contains c s = true.
Proof.
  intros c s H. unfold strip in H.
  apply lstrip_by_contains with is_space. apply rstrip_by_contains with is_space. exact H.
Qed.

Lemma strip_not_contains :
  forall (c : ascii) (s : string), contains c s = false -> contains c (strip s) = false.
Proof.
  intros c s H. destruct (contains c (strip s)) eqn:E; [|reflexivity].
  apply strip_contains in E. congruence.
Qed.

Lemma rstrip_by_cons_keep :
  forall (p : ascii -> bool) (c : ascii) (s : string),
    p c = false -> rstrip_by p (String c s) = String c (rstrip_by p s).
Proof.
  intros p c s H. cbn [rstrip_by]. rewrite H. destruct (rstrip_by p s); reflexivity.
Qed.

Lemma rstrip_by_unfold :
  forall (p : ascii -> bool) (c : ascii) (s : string),
    rstrip_by p (String c s) =
    match rstrip_by p s with
    | EmptyString => if p c then EmptyString else String c EmptyString
    | t => String c t
    end.
Proof. reflexivity. Qed.

Lemma rstrip_by_idempotent :
  forall (p : ascii -> bool) (s : string),
    rstrip_by p (rstrip_by p s) = rstrip_by p s.
Proof.
  intros p s. induction s as [|c s IH]; [reflexivity|].
  rewrite (rstrip_by_unfold p c s). destruct (rstrip_by p s) as [|d r] eqn:E.
  - destruct (p c) eqn:Ep; [reflexivity|]. cbn [rstrip_by]. rewrite Ep. reflexivity.
  - rewrite (rstrip_by_unfold p c (String d r)), IH. reflexivity.
Qed.

Lemma lstrip_by_head :
  forall (p : ascii -> bool) (s : string),
    lstrip_by p s = EmptyString \/
    exists c t, lstrip_by p s = String c t /\ p c = false.
Proof.
  intros p s. induction s as [|c s IH]; [left; reflexivity|].
  cbn [lstrip_by]. destruct (p c) eqn:E; [exact IH|].
  right. exists c, s. split; [reflexivity | exact E].
Qed.

(** Trimming twice is trimming once. *)
Lemma strip_idempotent : forall s : string, strip (strip s) = strip s.
Proof.
  intros s. unfold strip.
  destruct (lstrip_by_head is_space s) as [E | (c & t & E & Hc)]; rewrite E.
  - reflexivity.
  - rewrite (rstrip_by_cons_keep _ _ _ Hc). cbn [lstrip_by]. rewrite Hc.
    rewrite <- (rstrip_by_cons_keep _ _ _ Hc). apply rstrip_by_idempotent.
Qed.

(** ** More on the decomposition of the key *)

(** What one run of the loop of [parse_metadata] adds to its list: records
    with rising row indices from [idx] on, each made from the key of the row
    it names. *)
Lemma parse_metadata_loop_spec :
  forall (rows : list raw_row) (idx : Z) (parsed out : list meta_row),
    parse_metadata_loop rows idx parsed = Ok out ->
    exists new : list meta_row,
      out = (parsed ++ new)%list /\
      StronglySorted (fun a b => row_idx a < row_idx b) new /\
      Forall (fun m =>
                idx <= row_idx m /\
                exists r k,
                  nth_error rows (Z.to_nat (row_idx m - idx)) = Some r /\
                  key r = Str k /\
                  (4 <= List.length (split "," k))%nat /\
                  m = record_of_key (row_idx m, k)) new.
Proof.
  induction rows as [|r rows IH]; intros idx parsed out H.
  - cbn in H. inversion H; subst. exists []. rewrite app_nil_r.
    repeat split; constructor.
  - cbn [parse_metadata_loop] in H.
    destruct (key r) as [|k| |] eqn:Ek; try discriminate H.
    apply IH in H. destruct H as (new & Hout & Hs & Hf).
    assert (Hf' : Forall (fun m =>
                idx <= row_idx m /\
                exists r0 k0,
                  nth_error (r :: rows) (Z.to_nat (row_idx m - idx)) = Some r0 /\
                  key r0 = Str k0 /\
                  (4 <= List.length (split "," k0))%nat /\
                  m = record_of_key (row_idx m, k0)) new).
    { eapply Forall_impl; [|exact Hf]. cbn beta.
      intros m (Hle & r0 & k0 & Hn & Hk & H4 & Hm).
      split; [lia|]. exists r0, k0. repeat split; try assumption.
      replace (Z.to_nat (row_idx m - idx)) with (S (Z.to_nat (row_idx m - (idx + 1)))) by lia.
      exact Hn. }
    unfold parse_metadata_step in Hout.
    destruct (4 <=? List.length (split "," k))%nat eqn:E4.
    + exists (record_of_key (idx, k) :: new).
      rewrite <- app_assoc in Hout. split; [exact Hout|]. split.
      * constructor; [exact Hs|].
        eapply Forall_impl; [|exact Hf]. cbn. intros m (Hle & _). lia.
      * constructor; [|exact Hf'].
        cbn [record_of_key row_idx fst]. split; [lia|].
        exists r, k. rewrite Z.sub_diag. repeat split; try assumption.
        apply Nat.leb_le. exact E4.
    + exists new. repeat split; assumption.
Qed.

Lemma parse_metadata_loop_aborts :
  forall (rows : list raw_row) (idx : Z) (parsed : list meta_row),
    (exists r, In r rows /\ key_string r = None) ->
    parse_metadata_loop rows idx parsed = Raise AttributeError.
Proof.
  induction rows as [|r rows IH]; intros idx parsed (r0 & Hin & Hk); [contradiction Hin|].
  cbn [parse_metadata_loop]. unfold key_string in Hk.
  destruct (key r) as [|k| |] eqn:Ek; try reflexivity.
  apply IH. destruct Hin as [-> | Hin].
  - rewrite Ek in Hk. discriminate Hk.
  - exists r0. split; assumption.
Qed.

Lemma nth_split_no_comma :
  forall (i : nat) (k : string),
    contains "," (nth i (split "," k) EmptyString) = false.
Proof.
  intros i k. pose proof (split_parts_no_sep "," k) as H.
  rewrite Forall_forall in H.
  destruct (nth_in_or_default i (split "," k) EmptyString) as [Hin | ->].
  - apply H. exact Hin.
  - reflexivity.
Qed.

Lemma record_of_key_trimmed :
  forall (idx : Z) (k : string), trimmed_dims (id_vars (record_of_key (idx, k))).
Proof.
  intros idx k. unfold trimmed_dims, trimmed_field, record_of_key.
  cbn [id_vars freq unit tra_mode geo fst snd].
  repeat split; try apply strip_idempotent;
    apply strip_not_contains; apply nth_split_no_comma.
Qed.

(** X1. Whatever [parse_metadata] returns, its records are in the order of
    the file, with strictly rising row indices, and each is made from the
    key of the very row its [row_idx] names, a string of four parts or
    more: no record is invented, doubled or moved. *)
Theorem parse_metadata_records_from_rows :
  forall (self : t) (rows : list raw_row) (metas : list meta_row),
    df self = Some rows ->
    fst (parse_metadata self) = Ok metas ->
    StronglySorted (fun a b => row_idx a < row_idx b) metas /\
    (List.length metas <= List.length rows)%nat /\
    Forall (fun m =>
              exists r k,
                0 <= row_idx m /\
                nth_error rows (Z.to_nat (row_idx m)) = Some r /\
                key r = Str k /\
                (4 <= List.length (split "," k))%nat /\
                m = record_of_key (row_idx m, k)) metas.
Proof.
  intros self rows metas Hdf H. unfold parse_metadata in H. rewrite Hdf in H. cbn [fst] in H.
  apply parse_metadata_loop_spec in H. destruct H as (new & Hout & Hs & Hf).
  cbn [app] in Hout. subst new.
  assert (Hf' : Forall (fun m =>
              exists r k,
                0 <= row_idx m /\
                nth_error rows (Z.to_nat (row_idx m)) = Some r /\
                key r = Str k /\
                (4 <= List.length (split "," k))%nat /\
                m = record_of_key (row_idx m, k)) metas).
  { eapply Forall_impl; [|exact Hf]. cbn beta.
    intros m (Hle & r & k & Hn & Hk & H4 & Hm).
    exists r, k. rewrite Z.sub_0_r in Hn. repeat split; assumption. }
  split; [exact Hs|]. split; [|exact Hf'].
  (* distinct indices below the number of rows *)
  assert (Hb : Forall (fun m => 0 <= row_idx m < Z.of_nat (List.length rows)) metas).
  { eapply Forall_impl; [|exact Hf']. cbn beta.
    intros m (r & k & H0 & Hn & _).
    assert (Hlt : (Z.to_nat (row_idx m) < List.length rows)%nat)
      by (apply nth_error_Some; rewrite Hn; discriminate).
    lia. }
  clear Hf Hf' Hdf. revert Hb. generalize (List.length rows) as n.
  induction Hs as [|m l Hs IH Hm]; intros n Hb; [cbn; lia|].
  inversion Hb as [|? ? Hm0 Hl]; subst.
  cbn [List.length].
  assert (Hl' : Forall (fun x => 0 <= row_idx x - (row_idx m + 1)
                                 < Z.of_nat (n - S (Z.to_nat (row_idx m)))) l).
  { rewrite Forall_forall in *. intros x Hx.
    specialize (Hm x Hx). specialize (Hl x Hx). lia. }
  assert (Hlen : (List.length l <= n - S (Z.to_nat (row_idx m)))%nat).
  { clear -Hs Hl'. revert Hl'. generalize (n - S (Z.to_nat (row_idx m)))%nat as b.
    generalize (row_idx m + 1) as base.
    induction Hs as [|y l Hs IH Hy]; intros base b Hl; [cbn; lia|].
    inversion Hl as [|? ? Hy0 Hl0]; subst. cbn [List.length].
    assert (H1 : (List.length l <= b - S (Z.to_nat (row_idx y - base)))%nat).
    { apply (IH (row_idx y + 1)). rewrite Forall_forall in *. intros x Hx.
      specialize (Hy x Hx). specialize (Hl0 x Hx). lia. }
    lia. }
  lia.
Qed.

Lemma parse_metadata_records_from_rows_witness :
  exists metas : list meta_row,
    fst (parse_metadata mixed_keys_instance) = Ok metas /\
    map row_idx metas = [0; 2] /\
    StronglySorted (fun a b => row_idx a < row_idx b) metas /\
    Forall (fun m =>
              exists r k,
                0 <= row_idx m /\
                nth_error mixed_keys_rows (Z.to_nat (row_idx m)) = Some r /\
                key r = Str k /\
                (4 <= List.length (split "," k))%nat /\
                m = record_of_key (row_idx m, k)) metas.
Proof.
  destruct (fst (parse_metadata mixed_keys_instance)) as [metas|e] eqn:E;
    [|vm_compute in E; discriminate E].
  exists metas. split; [reflexivity|].
  destruct (parse_metadata_records_from_rows mixed_keys_instance mixed_keys_rows metas
              eq_refl E) as (Hs & _ & Hr).
  split; [|split; assumption].
  vm_compute in E. inversion E. reflexivity.
Defined.

(** X2. Every field of every record that [parse_metadata] returns is
    trimmed: it has no white space at either end, and it holds no comma. *)
Theorem parse_metadata_fields_trimmed :
  forall (self : t) (metas : list meta_row),
    fst (parse_metadata self) = Ok metas ->
    Forall (fun m => trimmed_dims (id_vars m)) metas.
Proof.
  intros self metas H. unfold parse_metadata in H.
  destruct (df self) as [rows|]; [|discriminate H]. cbn [fst] in H.
  apply parse_metadata_loop_spec in H. destruct H as (new & Hout & _ & Hf).
  cbn [app] in Hout. subst new.
  eapply Forall_impl; [|exact Hf]. cbn beta.
  intros m (_ & r & k & _ & _ & _ & Hm). rewrite Hm. apply record_of_key_trimmed.
Qed.

Lemma parse_metadata_fields_trimmed_witness :
  trimmed_dims (mk_dims "A" "PC" "IWW" "BE").
Proof.
  assert (H : fst (parse_metadata
                     (loaded_instance "estat.csv" "key" ["2020"]
                        [mk_raw_row (Str " A , PC,IWW ,BE ,x") [Str "10"]])) =
              Ok [mk_meta_row 0 (mk_dims "A" "PC" "IWW" "BE")]) by reflexivity.
  pose proof (parse_metadata_fields_trimmed _ _ H) as F.
  inversion F; subst. assumption.
Defined.

(** X3. One key that is no string (an empty key cell is read as NaN) makes
    [parse_metadata] raise [AttributeError], wherever the row stands and
    whatever the other keys are; the instance is left as it was. *)
Theorem parse_metadata_aborts_on_missing_key :
  forall (self : t) (rows : list raw_row),
    df self = Some rows ->
    (exists r, In r rows /\ key_string r = None) ->
    parse_metadata self = (Raise AttributeError, self).
Proof.
  intros self rows Hdf H. unfold parse_metadata. rewrite Hdf.
  rewrite parse_metadata_loop_aborts by exact H. reflexivity.
Qed.

Lemma parse_metadata_aborts_on_missing_key_witness :
  parse_metadata missing_key_instance = (Raise AttributeError, missing_key_instance).
Proof.
  apply (parse_metadata_aborts_on_missing_key missing_key_instance missing_key_rows eq_refl).
  exists (mk_raw_row NA [Str "11"]). split; [right; left; reflexivity | reflexivity].
Defined.

(** X4. [parse_eurostat_header] accepts a key if and only if it has exactly
    three commas; the geography it returns then holds neither a backslash
    nor a comma, and no other field holds a comma. *)
Theorem parse_eurostat_header_exactly_four :
  forall s : string,
    (count_char "," s = 3%nat ->
     exists d,
       AnalyzeEurostat.parse_eurostat_header s = Some d /\
       contains "\" (geo d) = false /\
       contains "," (geo d) = false /\
       contains "," (freq d) = false /\
       contains "," (unit d) = false /\
       contains "," (tra_mode d) = false) /\
    (count_char "," s <> 3%nat -> AnalyzeEurostat.parse_eurostat_header s = None).
Proof.
  intros s. pose proof (split_length "," s) as Hlen.
  pose proof (split_parts_no_sep "," s) as Hno.
  unfold AnalyzeEurostat.parse_eurostat_header.
  destruct (split "," s) as [|a [|b [|c [|g [|x l]]]]] eqn:E; cbn [List.length] in Hlen;
    (split; [intros H3|intros H3]); try reflexivity; try lia.
  inversion Hno as [|? ? Ha Hno1]; subst.
  inversion Hno1 as [|? ? Hb Hno2]; subst.
  inversion Hno2 as [|? ? Hc Hno3]; subst.
  inversion Hno3 as [|? ? Hg _]; subst.
  eexists. split; [reflexivity|]. cbn [geo freq unit tra_mode].
  repeat split; try assumption.
  - pose proof (split_parts_no_sep "\" g) as Hs.
    destruct (split "\" g) as [|h t] eqn:Eg; [reflexivity|].
    inversion Hs; subst. assumption.
  - destruct (contains "," (hd "" (split "\" g))) eqn:Ec; [|reflexivity].
    apply split_hd_contains in Ec. congruence.
Qed.

Lemma parse_eurostat_header_exactly_four_witness :
  AnalyzeEurostat.parse_eurostat_header "A,PC,IWW,BE\TIME_PERIOD" =
    Some (mk_dims "A" "PC" "IWW" "BE") /\
  AnalyzeEurostat.parse_eurostat_header "A,PC,IWW,BE,extra" = None.
Proof.
  split.
  - destruct (proj1 (parse_eurostat_header_exactly_four "A,PC,IWW,BE\TIME_PERIOD") eq_refl)
      as (d & Hd & _).
    rewrite Hd. vm_compute in Hd. symmetry. exact Hd.
  - apply (proj2 (parse_eurostat_header_exactly_four "A,PC,IWW,BE,extra")).
    cbn. discriminate.
Defined.

Lemma analyze_meta_matches :
  forall (keys : list string) (idxs : list Z),
    List.length idxs = List.length keys ->
    map id_vars (map record_of_key (filter has_four_parts (combine idxs keys))) =
    map strip_dims (AnalyzeEurostat.analyze_eurostat_file_meta keys).
Proof.
  induction keys as [|k keys IH]; intros [|i idxs] H; try discriminate H; [reflexivity|].
  cbn [combine filter AnalyzeEurostat.analyze_eurostat_file_meta].
  unfold has_four_parts at 1. cbn [snd].
  destruct (4 <=? List.length (split "," k))%nat.
  - cbn [map]. rewrite IH by (cbn in H; lia). reflexivity.
  - apply IH. cbn in H. lia.
Qed.

(** X5. On every file whose keys are strings, the two scripts decompose the
    same keys into the same fields, up to the trimming that only
    [parse_metadata] does: the records of [parse_metadata] are, in order,
    the trimmed records of the loop of [analyze_eurostat_file]. *)
Theorem parse_metadata_matches_analysis_loop :
  forall l : list (string * list pyvalue),
    exists metas : list meta_row,
      parse_metadata_loop (rows_of_keys l) 0 [] = Ok metas /\
      map id_vars metas =
        map strip_dims (AnalyzeEurostat.analyze_eurostat_file_meta (map fst l)).
Proof.
  intros l. eexists. split; [apply parse_metadata_loop_keys|].
  cbn [app]. apply analyze_meta_matches.
  rewrite !length_map, length_seq. reflexivity.
Qed.

(** ** More on cleaning a cell *)

Lemma all_chars_lstrip_by :
  forall (q p : ascii -> bool) (s : string),
    all_chars q s = true -> all_chars q (lstrip_by p s) = true.
Proof.
  intros q p s. induction s as [|c s IH]; [reflexivity|].
  cbn [lstrip_by]. destruct (p c); [|intros H; exact H].
  cbn [all_chars]. intros H. apply andb_prop in H. apply IH, H.
Qed.

Lemma all_chars_rstrip_by :
  forall (q p : ascii -> bool) (s : string),
    all_chars q s = true -> all_chars q (rstrip_by p s) = true.
Proof.
  intros q p s. induction s as [|c s IH]; [reflexivity|].
  intros H. cbn [all_chars] in H. apply andb_prop in H. destruct H as [Hc Hs].
  rewrite rstrip_by_unfold. specialize (IH Hs).
  destruct (rstrip_by p s) as [|d r].
  - destruct (p c); [reflexivity|]. cbn [all_chars]. rewrite Hc. reflexivity.
  - change (all_chars q (String c (String d r)) = true).
    cbn [all_chars] in *. rewrite Hc. exact IH.
Qed.

Lemma all_chars_strip :
  forall (q : ascii -> bool) (s : string),
    all_chars q s = true -> all_chars q (strip s) = true.
Proof.
  intros q s H. unfold strip. apply all_chars_rstrip_by, all_chars_lstrip_by, H.
Qed.

Lemma all_chars_filter_chars :
  forall (p : ascii -> bool) (s : string), all_chars p (filter_chars p s) = true.
Proof.
  intros p s. induction s as [|c s IH]; [reflexivity|].
  cbn [filter_chars]. destruct (p c) eqn:E; [|exact IH].
  cbn [all_chars]. rewrite E, IH. reflexivity.
Qed.

Lemma all_chars_filter_chars_keep :
  forall (q p : ascii -> bool) (s : string),
    all_chars q s = true -> all_chars q (filter_chars p s) = true.
Proof.
  intros q p s. induction s as [|c s IH]; [reflexivity|].
  intros H. cbn [all_chars] in H. apply andb_prop in H. destruct H as [Hc Hs].
  cbn [filter_chars]. destruct (p c); [|exact (IH Hs)].
  cbn [all_chars]. rewrite Hc, (IH Hs). reflexivity.
Qed.

Lemma all_chars_and :
  forall (p q : ascii -> bool) (s : string),
    all_chars p s = true -> all_chars q s = true ->
    all_chars (fun c => p c && q c) s = true.
Proof.
  intros p q s. induction s as [|c s IH]; [reflexivity|].
  cbn [all_chars]. intros Hp Hq.
  apply andb_prop in Hp. apply andb_prop in Hq.
  destruct Hp as [Hp1 Hp2]. destruct Hq as [Hq1 Hq2].
  rewrite Hp1, Hq1, (IH Hp2 Hq2). reflexivity.
Qed.

Lemma all_chars_remove_underscores :
  forall (q : ascii -> bool) (s u : string) (pd pu : bool),
    all_chars q s = true ->
    remove_underscores pd pu s = Some u ->
    all_chars q u = true.
Proof.
  intros q s. induction s as [|c s IH]; intros u pd pu H Hu.
  - cbn in Hu. destruct pu; inversion Hu. reflexivity.
  - cbn [all_chars] in H. apply andb_prop in H. destruct H as [Hc Hs].
    cbn [remove_underscores] in Hu.
    destruct (Ascii.eqb c "_").
    + destruct pd; [|discriminate Hu]. eapply IH; eassumption.
    + destruct (pu && negb (is_digit c)); [discriminate Hu|].
      destruct (remove_underscores (is_digit c) false s) as [u'|] eqn:E; [|discriminate Hu].
      cbn in Hu. inversion Hu; subst. cbn [all_chars].
      rewrite Hc, (IH u' _ _ Hs E). reflexivity.
Qed.

Lemma all_chars_take_sign :
  forall (q : ascii -> bool) (s : string),
    all_chars q s = true -> all_chars q (snd (take_sign s)) = true.
Proof.
  intros q s H. unfold take_sign.
  destruct s as [|c s]; [exact H|].
  cbn [all_chars] in H. pose proof H as H0. apply andb_prop in H. destruct H as [_ Hs].
  destruct c as [[] [] [] [] [] [] [] []]; (exact H0 || exact Hs).
Qed.

Lemma lower_no_letter :
  forall s : string,
    all_chars (fun c => negb (is_letter c)) s = true -> lower s = s.
Proof.
  induction s as [|c s IH]; [reflexivity|].
  cbn [all_chars]. intros H. apply andb_prop in H. destruct H as [Hc Hs].
  unfold lower in *. cbn [map_chars]. rewrite (IH Hs). f_equal.
  unfold lower_char. unfold is_letter in Hc.
  destruct (is_upper c); [|reflexivity].
  rewrite orb_true_r in Hc. discriminate Hc.
Qed.

(** Without a letter there is neither an infinity nor a NaN to read. *)
Lemma parse_inf_or_nan_no_letter :
  forall u : string,
    all_chars (fun c => negb (is_letter c)) u = true -> parse_inf_or_nan u = None.
Proof.
  intros u H. unfold parse_inf_or_nan.
  pose proof (all_chars_take_sign _ u H) as Hr.
  destruct (take_sign u) as [neg r]. cbn [snd] in Hr.
  rewrite (lower_no_letter r Hr).
  destruct (String.eqb r "inf") eqn:E1.
  { apply String.eqb_eq in E1. subst r. discriminate Hr. }
  destruct (String.eqb r "infinity") eqn:E2.
  { apply String.eqb_eq in E2. subst r. discriminate Hr. }
  destruct (String.eqb r "nan") eqn:E3.
  { apply String.eqb_eq in E3. subst r. discriminate Hr. }
  reflexivity.
Qed.

Lemma digits_no_digit :
  forall (s : string) (acc n : Z),
    all_chars (fun c => negb (is_digit c)) s = true -> digits s acc n = (acc, n, s).
Proof.
  intros [|c s] acc n H; [reflexivity|].
  cbn [all_chars] in H. apply andb_prop in H. destruct H as [Hc _].
  apply negb_true_iff in Hc. cbn [digits]. rewrite Hc. reflexivity.
Qed.

Lemma strtod_no_digit :
  forall u : string,
    all_chars (fun c => negb (is_digit c)) u = true -> strtod u = None.
Proof.
  intros u H. unfold strtod.
  pose proof (all_chars_take_sign _ u H) as Hr.
  destruct (take_sign u) as [neg r]. cbn [snd] in Hr.
  rewrite (digits_no_digit r 0 0 Hr).
  destruct r as [|c t]; [reflexivity|].
  cbn [all_chars] in Hr. apply andb_prop in Hr. destruct Hr as [_ Ht].
  destruct (Ascii.eqb c ".") eqn:Ec.
  - apply Ascii.eqb_eq in Ec. subst c. rewrite (digits_no_digit t 0 0 Ht). reflexivity.
  - destruct c as [[] [] [] [] [] [] [] []]; try reflexivity. discriminate Ec.
Qed.

Lemma float_of_str_no_digit :
  forall s : string,
    all_chars (fun c => negb (is_digit c) && negb (is_letter c)) s = true ->
    float_of_str s = Raise ValueError.
Proof.
  intros s H. unfold float_of_str.
  set (t := rstrip_by is_cspace (lstrip_by is_cspace s)).
  assert (Ht : all_chars (fun c => negb (is_digit c) && negb (is_letter c)) t = true)
    by (apply all_chars_rstrip_by, all_chars_lstrip_by, H).
  destruct (String.eqb t "") ; [reflexivity|].
  destruct (remove_underscores false false t) as [u|] eqn:Eu; [|reflexivity].
  pose proof (all_chars_remove_underscores _ _ _ _ _ Ht Eu) as Hu.
  rewrite strtod_no_digit, parse_inf_or_nan_no_letter; [reflexivity | |];
    (eapply all_chars_impl; [|exact Hu]); cbn; intros c Hc;
    apply andb_prop in Hc; tauto.
Qed.

Lemma flag_class_letter :
  forall c : ascii, negb (flag_class c) = true -> negb (is_letter c) = true.
Proof.
  intros c. unfold flag_class, is_letter.
  destruct (is_lower c), (is_upper c); cbn; intros H; try discriminate H; reflexivity.
Qed.

(** X6. A cell without any digit is unavailable, whatever else it holds:
    [clean_value] returns [None] for every string in which no digit
    stands. *)
Theorem clean_value_without_digit :
  forall s : string,
    all_chars (fun c => negb (is_digit c)) s = true ->
    clean_value (Str s) = None.
Proof.
  intros s H. unfold clean_value. cbn [isna py_str].
  destruct (str_in (strip s) missing_tokens); [reflexivity|].
  destruct (String.eqb (re_sub_class flag_class (strip s)) ""); [reflexivity|].
  rewrite float_of_str_no_digit; [reflexivity|].
  unfold re_sub_class. apply all_chars_and.
  - apply all_chars_filter_chars_keep, all_chars_strip, H.
  - eapply all_chars_impl; [|apply all_chars_filter_chars].
    apply flag_class_letter.
Qed.

Lemma clean_value_without_digit_witness :
  clean_value (Str "n/a (see note)") = None.
Proof.
  apply clean_value_without_digit. reflexivity.
Defined.

(** *** Rounding never makes a NaN of a number *)

Lemma shr_1_nonneg :
  forall mrs : shr_record, 0 <= shr_m mrs -> 0 <= shr_m (shr_1 mrs).
Proof.
  intros [m r s] H. cbn [shr_m] in H.
  destruct m as [|p|p]; [| |lia]; [|destruct p]; cbn; lia.
Qed.

Lemma iter_pos_shr_1_nonneg :
  forall (n : positive) (mrs : shr_record),
    0 <= shr_m mrs -> 0 <= shr_m (iter_pos shr_1 n mrs).
Proof.
  induction n as [n IH|n IH|]; intros mrs H; cbn [iter_pos].
  - apply IH, IH, shr_1_nonneg, H.
  - apply IH, IH, H.
  - apply shr_1_nonneg, H.
Qed.

Lemma shr_fexp_nonneg :
  forall (m e : Z) (l : location),
    0 <= m -> 0 <= shr_m (fst (shr_fexp prec emax m e l)).
Proof.
  intros m e l H. unfold shr_fexp, shr.
  assert (H0 : 0 <= shr_m (shr_record_of_loc m l))
    by (destruct l as [|[]]; exact H).
  destruct (fexp prec emax (Zdigits2 m + e) - e) as [|p|p]; cbn [fst];
    [exact H0 | apply iter_pos_shr_1_nonneg, H0 | exact H0].
Qed.

Lemma round_nearest_even_nonneg :
  forall (m : Z) (l : location), 0 <= m -> 0 <= round_nearest_even m l.
Proof.
  intros m l H. unfold round_nearest_even.
  destruct l as [|[]]; try lia. destruct (Z.even m); lia.
Qed.

Lemma binary_round_aux_not_nan :
  forall (sx : bool) (mx ex : Z) (lx : location),
    0 <= mx -> is_nan (binary_round_aux prec emax sx mx ex lx) = false.
Proof.
  intros sx mx ex lx H. unfold binary_round_aux.
  pose proof (shr_fexp_nonneg mx ex lx H) as H1.
  destruct (shr_fexp prec emax mx ex lx) as [mrs' e']. cbn [fst] in H1.
  pose proof (shr_fexp_nonneg _ e' loc_Exact
                (round_nearest_even_nonneg _ (loc_of_shr_record mrs') H1)) as H2.
  destruct (shr_fexp prec emax (round_nearest_even (shr_m mrs') (loc_of_shr_record mrs'))
              e' loc_Exact) as [mrs'' e''].
  cbn [fst] in H2.
  destruct (shr_m mrs'') as [|p|p]; [reflexivity | | lia].
  destruct (e'' <=? emax - prec); reflexivity.
Qed.

Lemma of_decimal_not_nan :
  forall (neg : bool) (m e : Z), is_nan (of_decimal neg m e) = false.
Proof.
  intros neg m0 e0. unfold of_decimal.
  destruct (normal_decimal m0 e0) as [m e].
  destruct m as [|p|p]; try reflexivity.
  destruct (0 <=? e) eqn:E0.
  - unfold binary_round.
    destruct (shl_align _ _ _) as [mz ez].
    apply binary_round_aux_not_nan. lia.
  - unfold SFdiv_core_binary.
    set (m' := match _ - _ - _ with Z0 => _ | Zpos _ => _ | Zneg _ => _ end).
    assert (Hm : 0 <= m').
    { subst m'. destruct (_ - _ - _); [lia | | lia]. apply Z.shiftl_nonneg. lia. }
    apply Z.leb_gt in E0.
    assert (Hd : 10 ^ (- e) > 0) by (apply Z.lt_gt, Z.pow_pos_nonneg; lia).
    pose proof (Z_div_mod m' (10 ^ (- e)) Hd) as Hq.
    destruct (Z.div_eucl m' (10 ^ (- e))) as [q r].
    apply binary_round_aux_not_nan. nia.
Qed.

Lemma strtod_not_nan :
  forall (u : string) (f : float), strtod u = Some f -> is_nan f = false.
Proof.
  intros u f. unfold strtod.
  destruct (take_sign u) as [neg r].
  destruct (digits r 0 0) as [[ip ni] r1].
  destruct (match r1 with
            | String "." t => digits t ip 0
            | _ => (ip, 0, r1)
            end) as [[m nf] r2].
  destruct (ni + nf =? 0); [discriminate|].
  destruct r2 as [|c t].
  - intros H. inversion H. apply of_decimal_not_nan.
  - destruct (Ascii.eqb c "e" || Ascii.eqb c "E"); [|discriminate].
    destruct (take_sign t) as [eneg t1].
    destruct (digits t1 0 0) as [[ev ne] t2].
    destruct ((ne =? 0) || negb (String.eqb t2 "")); [discriminate|].
    intros H. inversion H. apply of_decimal_not_nan.
Qed.

Lemma float_of_str_no_letter :
  forall (s : string) (f : float),
    all_chars (fun c => negb (is_letter c)) s = true ->
    float_of_str s = Ok f ->
    is_nan f = false.
Proof.
  intros s f H. unfold float_of_str.
  set (t := rstrip_by is_cspace (lstrip_by is_cspace s)).
  assert (Ht : all_chars (fun c => negb (is_letter c)) t = true)
    by (apply all_chars_rstrip_by, all_chars_lstrip_by, H).
  destruct (String.eqb t ""); [discriminate|].
  destruct (remove_underscores false false t) as [u|] eqn:Eu; [|discriminate].
  pose proof (all_chars_remove_underscores _ _ _ _ _ Ht Eu) as Hu.
  destruct (strtod u) as [g|] eqn:Es.
  - intros E. inversion E; subst. eapply strtod_not_nan. exact Es.
  - rewrite (parse_inf_or_nan_no_letter u Hu). discriminate.
Qed.

(** X7. A value that [clean_value] returns is never NaN, whatever the cell
    (text or number): the letters of [nan] are stripped like any flag, so a
    missing value is always [None] and a returned float is a number or an
    infinity. *)
Theorem clean_value_never_nan :
  forall (v : pyvalue) (f : float), clean_value v = Some f -> is_nan f = false.
Proof.
  intros v f. unfold clean_value.
  destruct (isna v); [discriminate|].
  destruct (str_in (strip (py_str v)) missing_tokens); [discriminate|].
  destruct (String.eqb (re_sub_class flag_class (strip (py_str v))) ""); [discriminate|].
  destruct (float_of_str (re_sub_class flag_class (strip (py_str v)))) as [g|e] eqn:E;
    [|discriminate].
  intros H. inversion H; subst.
  eapply float_of_str_no_letter; [|exact E].
  unfold re_sub_class.
  eapply all_chars_impl; [|apply all_chars_filter_chars]. apply flag_class_letter.
Qed.

Lemma clean_value_never_nan_witness :
  clean_value (Str "7 nan") = Some (of_Z 7) /\ is_nan (of_Z 7) = false.
Proof.
  split; [reflexivity|].
  apply (clean_value_never_nan (Str "7 nan")). reflexivity.
Defined.

Lemma filter_chars_agree :
  forall (p q : ascii -> bool) (s : string),
    all_chars (fun c => Bool.eqb (p c) (q c)) s = true ->
    filter_chars p s = filter_chars q s.
Proof.
  intros p q s. induction s as [|c s IH]; [reflexivity|].
  cbn [all_chars]. intros H. apply andb_prop in H. destruct H as [Hc Hs].
  apply Bool.eqb_prop in Hc. cbn [filter_chars]. rewrite Hc, (IH Hs). reflexivity.
Qed.

Lemma missing_token_shape :
  forall x : string,
    str_in x missing_tokens = true -> x = EmptyString \/ contains ":" x = true.
Proof.
  intros x H. apply str_in_In in H. cbn in H.
  destruct H as [H | [H | [H | [H | [H | []]]]]]; subst; auto.
Qed.

(** X8. On every text cell that holds neither the marker [:] nor a capital
    letter, the two cleaners agree: [clean_eurostat_value] of the analysis
    script returns what [clean_value] returns. *)
Theorem cleaners_agree_without_marker_and_capital :
  forall s : string,
    contains ":" s = false ->
    all_chars (fun c => negb (is_upper c)) s = true ->
    AnalyzeEurostat.clean_eurostat_value (Str s) = Ok (clean_value (Str s)).
Proof.
  intros s Hc Hu. unfold AnalyzeEurostat.clean_eurostat_value, clean_value.
  cbn [isna py_str]. rewrite Hc, orb_false_r.
  destruct (String.eqb (strip s) "") eqn:Ee.
  - apply String.eqb_eq in Ee. rewrite Ee. reflexivity.
  - assert (Hin : str_in (strip s) missing_tokens = false).
    { destruct (str_in (strip s) missing_tokens) eqn:E; [|reflexivity].
      apply missing_token_shape in E. destruct E as [E | E].
      - rewrite E in Ee. discriminate Ee.
      - rewrite (strip_not_contains ":" s Hc) in E. discriminate E. }
    rewrite Hin.
    assert (Hf : re_sub_class AnalyzeEurostat.flag_class (strip s) =
                 re_sub_class flag_class (strip s)).
    { unfold re_sub_class. apply filter_chars_agree.
      eapply all_chars_impl; [|apply all_chars_strip; exact Hu].
      intros c Hcu. cbn beta in Hcu. apply negb_true_iff in Hcu.
      unfold AnalyzeEurostat.flag_class, flag_class. rewrite Hcu, orb_false_r.
      apply Bool.eqb_reflx. }
    rewrite Hf.
    destruct (String.eqb (re_sub_class flag_class (strip s)) "") eqn:E0.
    + apply String.eqb_eq in E0. rewrite E0. reflexivity.
    + destruct (float_of_str (re_sub_class flag_class (strip s))); reflexivity.
Qed.

Lemma cleaners_agree_without_marker_and_capital_witness :
  AnalyzeEurostat.clean_eurostat_value (Str "12.5 e") = Ok (Some (of_decimal false 125 (-1))).
Proof.
  rewrite (cleaners_agree_without_marker_and_capital "12.5 e" eq_refl eq_refl).
  reflexivity.
Defined.

(** ** More on the filters *)

Lemma filter_filter_comm :
  forall (A : Type) (f g : A -> bool) (l : list A),
    filter f (filter g l) = filter g (filter f l).
Proof.
  intros A f g l. induction l as [|a l IH]; [reflexivity|].
  cbn [filter]. destruct (f a) eqn:Ef, (g a) eqn:Eg; cbn [filter];
    rewrite ?Ef, ?Eg, IH; reflexivity.
Qed.

Lemma filter_filter_same :
  forall (A : Type) (f : A -> bool) (l : list A),
    filter f (filter f l) = filter f l.
Proof.
  intros A f l. induction l as [|a l IH]; [reflexivity|].
  cbn [filter]. destruct (f a) eqn:Ef; cbn [filter]; rewrite ?Ef, IH; reflexivity.
Qed.

(** X9. The two filters commute, and a filter applied twice is the filter
    applied once: filtering by countries and then by modes leaves the
    instance that filtering by modes and then by countries leaves. *)
Theorem filters_commute_and_repeat :
  forall (self : t) (countries modes : list string),
    filter_mode modes (snd (filter_geo countries self)) =
      filter_geo countries (snd (filter_mode modes self)) /\
    filter_geo countries (snd (filter_geo countries self)) = filter_geo countries self /\
    filter_mode modes (snd (filter_mode modes self)) = filter_mode modes self.
Proof.
  intros self countries modes. unfold filter_geo, filter_mode.
  destruct (cleaned_df self) as [c|] eqn:E; cbn [snd]; rewrite ?E.
  - cbn [snd set_cleaned_df cleaned_df csv_path df metadata_col year_cols long_df].
    unfold set_cleaned_df.
    cbn [cleaned_df csv_path df metadata_col year_cols long_df].
    rewrite filter_filter_comm, !filter_filter_same. repeat split.
  - repeat split.
Qed.

(** ** More on the long table *)

Lemma filter_const :
  forall (A : Type) (f : A -> bool) (b : bool) (l : list A),
    (forall x, In x l -> f x = b) -> filter f l = if b then l else [].
Proof.
  intros A f b l. induction l as [|a l IH]; intros H; [destruct b; reflexivity|].
  cbn [filter]. rewrite (H a (or_introl eq_refl)).
  rewrite IH by (intros x Hx; apply H; right; exact Hx).
  destruct b; reflexivity.
Qed.

Lemma observation_long_id :
  forall (d : dims) (l : list (string * option float)) (x : long_row),
    In x (flat_map (fun yv => observation d (fst yv) (snd yv)) l) -> long_id x = d.
Proof.
  intros d l x H. apply in_flat_map in H. destruct H as ([y v] & _ & H).
  unfold observation in H. cbn [fst snd] in H.
  destruct v as [f|]; [destruct (is_nan f)|]; cbn in H; try contradiction.
  destruct H as [<- | []]. reflexivity.
Qed.

(** Filtering the rows of the table by a test on the dimensions, or
    filtering its observations by the same test: the same list. *)
Lemma observations_filter :
  forall (ys : list string) (test : dims -> bool) (c : list cleaned_row),
    observations ys (filter (fun r => test (id_vars (meta r))) c) =
    filter (fun x => test (long_id x)) (observations ys c).
Proof.
  intros ys test c. unfold observations. induction c as [|r c IH]; [reflexivity|].
  cbn [filter flat_map]. rewrite filter_app.
  rewrite (filter_const _ (fun x => test (long_id x)) (test (id_vars (meta r)))
             (flat_map (fun yv => observation (id_vars (meta r)) (fst yv) (snd yv))
                       (combine ys (cells r)))).
  - destruct (test (id_vars (meta r))); cbn [flat_map app]; rewrite IH; reflexivity.
  - intros x Hx. apply observation_long_id in Hx. rewrite Hx. reflexivity.
Qed.

Lemma well_formed_filter :
  forall (ys : list string) (f : cleaned_row -> bool) (c : list cleaned_row),
    well_formed ys c -> well_formed ys (filter f c).
Proof.
  intros ys f c H. unfold well_formed in *. rewrite Forall_forall in *.
  intros r Hr. apply filter_In in Hr. apply H, Hr.
Qed.

(** X10. Filtering and reshaping compose: on a cleaned table with integer
    periods, the long table made after [filter_geo] holds exactly the rows
    of the long table made before it whose [geo] passes the filter, and it
    is sorted like it. *)
Theorem filter_geo_then_to_long_format :
  forall (self : t) (c : list cleaned_row) (ys countries : list string),
    cleaned_df self = Some c ->
    year_cols self = Some ys ->
    well_formed ys c ->
    integer_labels ys ->
    exists long long_f : list long_row,
      fst (to_long_format self) = Ok long /\
      fst (to_long_format (snd (filter_geo countries self))) = Ok long_f /\
      Permutation long_f
        (filter (fun x => str_in (upper (geo (long_id x))) (map upper countries)) long) /\
      StronglySorted key_le long_f.
Proof.
  intros self c ys countries Hc Hy Hwf Hint.
  pose proof (to_long_format_ok self c ys Hc Hy Hwf Hint) as H1. cbv zeta in H1.
  set (mask := fun r : cleaned_row =>
                 str_in (upper (geo (id_vars (meta r)))) (map upper countries)).
  assert (Hs : snd (filter_geo countries self) = set_cleaned_df (filter mask c) self)
    by (unfold filter_geo; rewrite Hc; reflexivity).
  pose proof (to_long_format_ok (snd (filter_geo countries self)) (filter mask c) ys
                ltac:(rewrite Hs; reflexivity) ltac:(rewrite Hs; exact Hy)
                (well_formed_filter ys mask c Hwf) Hint) as H2.
  cbv zeta in H2.
  do 2 eexists. rewrite H1, H2. cbn [fst].
  split; [reflexivity|]. split; [reflexivity|]. split; [|apply sort_values_sorted].
  apply Permutation_trans with (observations ys (filter mask c)).
  - rewrite sort_values_perm. apply melted_observations, well_formed_filter, Hwf.
  - unfold mask.
    rewrite (observations_filter ys
               (fun d => str_in (upper (geo d)) (map upper countries)) c).
    apply Permutation_filter_same. symmetry.
    rewrite sort_values_perm. apply melted_observations. exact Hwf.
Qed.

Lemma filter_geo_then_to_long_format_witness :
  exists long long_f : list long_row,
    fst (to_long_format sample_instance) = Ok long /\
    fst (to_long_format (snd (filter_geo ["be"] sample_instance))) = Ok long_f /\
    Permutation long_f
      (filter (fun x => str_in (upper (geo (long_id x))) ["BE"]) long).
Proof.
  destruct (filter_geo_then_to_long_format sample_instance sample_geo
              ["2020"; "2021"; "2022"] ["be"] eq_refl eq_refl
              sample_well_formed sample_integer_labels)
    as (long & long_f & H1 & H2 & H3 & _).
  exists long, long_f. repeat split; assumption.
Defined.

Lemma mapM_raises :
  forall (A B : Type) (f : A -> result B) (l : list A) (a : A),
    In a l -> (forall b, f a <> Ok b) ->
    exists e a', In a' l /\ f a' = Raise e /\ mapM f l = Raise e.
Proof.
  intros A B f l. induction l as [|x l IH]; intros a Hin Ha; [contradiction Hin|].
  cbn [mapM]. destruct (f x) as [b|e] eqn:Ex.
  - destruct Hin as [-> | Hin]; [exfalso; apply (Ha b); exact Ex|].
    destruct (IH a Hin Ha) as (e & a' & Hin' & Hf & Hm).
    exists e, a'. cbn [bind]. rewrite Hm. repeat split; [right; exact Hin' | exact Hf].
  - exists e, x. repeat split; [left; reflexivity | exact Ex].
Qed.

Lemma mapM_inv :
  forall (A B : Type) (f : A -> result B) (l : list A) (out : list B),
    mapM f l = Ok out -> Forall2 (fun a b => f a = Ok b) l out.
Proof.
  intros A B f l. induction l as [|a l IH]; intros out H.
  - cbn in H. inversion H. constructor.
  - cbn [mapM] in H. destruct (f a) as [b|e] eqn:Ea; [|discriminate H].
    cbn [bind] in H. destruct (mapM f l) as [bs|e]; [|discriminate H].
    cbn [bind] in H. inversion H; subst. constructor; [exact Ea | apply IH; reflexivity].
Qed.

Lemma to_int64_exn :
  forall (y : string) (e : exn),
    PyInt.to_int64 y = Raise e -> e = ValueError \/ e = OverflowError.
Proof.
  intros y e. unfold PyInt.to_int64, PyInt.int_of_str.
  destruct (take_sign _) as [neg r].
  destruct (remove_underscores false false r) as [u|].
  - destruct (digits u 0 0) as [[v n] rest].
    destruct ((n =? 0) || negb (String.eqb rest "")); cbn [bind].
    + intros H. inversion H. left. reflexivity.
    + destruct (_ && _); intros H; inversion H. right. reflexivity.
  - cbn [bind]. intros H. inversion H. left. reflexivity.
Qed.

Lemma melted_has_label :
  forall (ys : list string) (j : nat) (r : cleaned_row) (c : list cleaned_row) (y : string),
    In y ys -> exists v, In (id_vars (meta r), y, v) (melted j ys (r :: c)).
Proof.
  induction ys as [|y0 ys IH]; intros j r c y Hin; [contradiction Hin|].
  unfold melted. cbn [List.length seq combine flat_map map fst snd].
  destruct Hin as [-> | Hin].
  - eexists. left. reflexivity.
  - destruct (IH (S j) r c y Hin) as (v & Hv). exists v.
    right. apply in_or_app. right. exact Hv.
Qed.

(** X11. A period label that is no integer makes [to_long_format] raise
    ([ValueError], or [OverflowError] for an integer too large) as soon as
    the table has a row, and the instance is left as it was; on a table
    without rows nothing is converted and the empty long table is
    returned. *)
Theorem to_long_format_bad_period_label :
  forall (self : t) (c : list cleaned_row) (ys : list string),
    cleaned_df self = Some c ->
    year_cols self = Some ys ->
    well_formed ys c ->
    (exists y, In y ys /\ forall z, PyInt.to_int64 y <> Ok z) ->
    (c = [] -> to_long_format self = (Ok [], set_long_df [] self)) /\
    (c <> [] ->
     exists e, (e = ValueError \/ e = OverflowError) /\
               to_long_format self = (Raise e, self)).
Proof.
  intros self c ys Hc Hy Hwf (y & Hin & Hbad). unfold to_long_format.
  rewrite Hc, Hy. unfold melt. rewrite melt_from_ok.
  2:{ eapply Forall_impl; [|exact Hwf]. cbn. intros r Hr. lia. }
  cbn [bind]. split.
  - intros ->. unfold melted. cbn [map]. rewrite flat_map_nil_fun. reflexivity.
  - intros Hne. destruct c as [|r c]; [contradiction Hne; reflexivity|].
    destruct (melted_has_label ys 0 r c y Hin) as (v & Hv).
    destruct (mapM_raises _ _
                (fun '(d, y, v) => yi <- PyInt.to_int64 y ;; Ok (d, yi, v))
                (melted 0 ys (r :: c)) (id_vars (meta r), y, v) Hv)
      as (e & [[d' y'] v'] & _ & Hf & Hm).
    { intros b. destruct (PyInt.to_int64 y) as [z|e] eqn:Ez.
      - exfalso. apply (Hbad z). reflexivity.
      - cbn. discriminate. }
    exists e. split.
    + destruct (PyInt.to_int64 y') as [z|e'] eqn:Ez; [discriminate Hf|].
      cbn in Hf. inversion Hf; subst. eapply to_int64_exn. exact Ez.
    + unfold year_astype_int. rewrite Hm. reflexivity.
Qed.

Lemma to_long_format_bad_period_label_witness :
  exists e,
    to_long_format
      (cleaned_instance "estat.csv" [] ["2020"; "2021Q1"]
         [row_of "BE" "IWW" 0 [Some (of_Z 1); Some (of_Z 2)]]) =
    (Raise e,
     cleaned_instance "estat.csv" [] ["2020"; "2021Q1"]
       [row_of "BE" "IWW" 0 [Some (of_Z 1); Some (of_Z 2)]]).
Proof.
  assert (Hwf : well_formed ["2020"; "2021Q1"]
                  [row_of "BE" "IWW" 0 [Some (of_Z 1); Some (of_Z 2)]])
    by (repeat constructor).
  destruct (to_long_format_bad_period_label
              (cleaned_instance "estat.csv" [] ["2020"; "2021Q1"]
                 [row_of "BE" "IWW" 0 [Some (of_Z 1); Some (of_Z 2)]])
              [row_of "BE" "IWW" 0 [Some (of_Z 1); Some (of_Z 2)]]
              ["2020"; "2021Q1"] eq_refl eq_refl Hwf) as (_ & H).
  - exists "2021Q1". split; [right; left; reflexivity|].
    intros z. vm_compute. discriminate.
  - destruct (H ltac:(discriminate)) as (e & _ & He). exists e. exact He.
Defined.

Lemma Forall2_In_r :
  forall (A B : Type) (R : A -> B -> Prop) (l : list A) (l' : list B) (b : B),
    Forall2 R l l' -> In b l' -> exists a, In a l /\ R a b.
Proof.
  intros A B R l l' b H. induction H as [|x y l l' Hxy H IH]; intros Hin;
    [contradiction Hin|].
  destruct Hin as [<- | Hin].
  - exists x. split; [left; reflexivity | exact Hxy].
  - destruct (IH Hin) as (a & Ha & Hr). exists a. split; [right; exact Ha | exact Hr].
Qed.

Lemma melt_from_inv :
  forall (ys : list string) (j : nat) (c : list cleaned_row)
         (l : list (dims * string * option float)) (d : dims) (y : string)
         (v : option float),
    melt_from j ys c = Ok l ->
    In (d, y, v) l ->
    exists r i,
      In r c /\ nth_error ys i = Some y /\
      nth_error (cells r) (j + i) = Some v /\ d = id_vars (meta r).
Proof.
  induction ys as [|y0 ys IH]; intros j c l d y v H Hin.
  - cbn in H. inversion H; subst. contradiction Hin.
  - cbn [melt_from] in H.
    destruct (melt_column j y0 c) as [col|e] eqn:Ec; [|discriminate H].
    cbn [bind] in H.
    destruct (melt_from (S j) ys c) as [rest|e] eqn:Er; [|discriminate H].
    cbn [bind] in H. inversion H; subst. apply in_app_or in Hin.
    destruct Hin as [Hin | Hin].
    + unfold melt_column in Ec. apply mapM_inv in Ec.
      destruct (Forall2_In_r _ _ _ _ _ _ Ec Hin) as (r & Hr & Hv).
      destruct (nth_error (cells r) j) as [v0|] eqn:En; [|discriminate Hv].
      inversion Hv; subst. exists r, 0%nat.
      rewrite Nat.add_0_r. repeat split; assumption.
    + destruct (IH (S j) c rest d y v Er Hin) as (r & i & Hr & Hy & Hn & Hd).
      exists r, (S i). rewrite Nat.add_succ_r. repeat split; assumption.
Qed.

Lemma dropna_value_In :
  forall (l : list (dims * Z * option float)) (x : long_row),
    In x (dropna_value l) ->
    is_nan (value x) = false /\ In (long_id x, year x, Some (value x)) l.
Proof.
  induction l as [|[[d y] v] l IH]; intros x H; [contradiction H|].
  cbn [dropna_value] in H.
  destruct v as [f|].
  - destruct (is_nan f) eqn:N.
    + destruct (IH x H) as [H1 H2]. split; [exact H1 | right; exact H2].
    + destruct H as [<- | H].
      * cbn [value long_id year]. split; [exact N | left; reflexivity].
      * destruct (IH x H) as [H1 H2]. split; [exact H1 | right; exact H2].
  - destruct (IH x H) as [H1 H2]. split; [exact H1 | right; exact H2].
Qed.

(** X12. Every row of the long table that [to_long_format] returns stands
    for one cell of the cleaned table: its value is the cell of some row at
    some period, a number that is not NaN, its dimensions are those of that
    row and its year is the integer of that period's label.  No observation
    is invented. *)
Theorem to_long_format_rows_from_cells :
  forall (self : t) (c : list cleaned_row) (ys : list string) (long : list long_row),
    cleaned_df self = Some c ->
    year_cols self = Some ys ->
    fst (to_long_format self) = Ok long ->
    Forall (fun x =>
              is_nan (value x) = false /\
              exists r j y,
                In r c /\ nth_error ys j = Some y /\
                nth_error (cells r) j = Some (Some (value x)) /\
                long_id x = id_vars (meta r) /\
                PyInt.to_int64 y = Ok (year x)) long.
Proof.
  intros self c ys long Hc Hy H. unfold to_long_format in H. rewrite Hc, Hy in H.
  unfold melt in H.
  destruct (melt_from 0 ys c) as [m|e] eqn:Em; [|discriminate H].
  cbn [bind] in H.
  destruct (year_astype_int m) as [l|e] eqn:El; [|discriminate H].
  cbn [fst] in H. inversion H; subst long. clear H.
  apply Forall_forall. intros x Hx.
  apply (Permutation_in _ (sort_values_perm _)) in Hx.
  apply dropna_value_In in Hx. destruct Hx as [Hn Hx]. split; [exact Hn|].
  unfold year_astype_int in El. apply mapM_inv in El.
  destruct (Forall2_In_r _ _ _ _ _ _ El Hx) as ([[d y] v] & Hm & Hconv).
  destruct (PyInt.to_int64 y) as [z|e] eqn:Ez; [|discriminate Hconv].
  cbn in Hconv. inversion Hconv; subst.
  destruct (melt_from_inv ys 0 c m _ _ _ Em Hm) as (r & i & Hr & Hyi & Hcell & Hd).
  exists r, i, y. cbn [Nat.add] in Hcell. repeat split; assumption.
Qed.

Lemma to_long_format_rows_from_cells_witness :
  exists long : list long_row,
    fst (to_long_format sample_instance) = Ok long /\
    Forall (fun x => is_nan (value x) = false) long.
Proof.
  destruct (to_long_format sample_instance) as [res s] eqn:E.
  assert (Hres : exists long, res = Ok long).
  { vm_compute in E. inversion E. eexists. reflexivity. }
  destruct Hres as (long & ->). exists long. split; [reflexivity|].
  pose proof (to_long_format_rows_from_cells sample_instance sample_geo
                ["2020"; "2021"; "2022"] long eq_refl eq_refl) as H.
  rewrite E in H. specialize (H eq_refl).
  eapply Forall_impl; [|exact H]. cbn beta. tauto.
Defined.

(** ** Exports *)

Lemma to_long_format_state :
  forall (self s' : t) (long : list long_row),
    to_long_format self = (Ok long, s') -> s' = set_long_df long self.
Proof.
  intros self s' long. unfold to_long_format.
  destruct (cleaned_df self); [|discriminate].
  destruct (m <- _ ;; year_astype_int m); [|discriminate].
  intros H. inversion H. reflexivity.
Qed.

(** X13. [export_long] writes the long table that the instance keeps: the
    first call makes it with [to_long_format]; once it is there, a later
    [filter_geo] or [filter_mode] does not renew it, so that [export_long]
    still writes the long table of before the filter while [export_wide]
    writes the filtered table. *)
Theorem export_long_keeps_first_long_table :
  forall (self : t) (c : list cleaned_row) (long : list long_row)
         (countries : list string) (suffix : string),
    cleaned_df self = Some c ->
    long_df self = None ->
    fst (to_long_format self) = Ok long ->
    let made := snd (export_long suffix self) in
    let filtered := snd (filter_geo countries made) in
    fst (export_long suffix self) = Ok (writer_for suffix, long) /\
    fst (export_long suffix filtered) = Ok (writer_for suffix, long) /\
    fst (export_wide suffix filtered) =
      Ok (writer_for suffix,
          filter (fun r => str_in (upper (geo (id_vars (meta r)))) (map upper countries)) c).
Proof.
  intros self c long countries suffix Hc Hl H made filtered.
  destruct (to_long_format self) as [res s'] eqn:E. cbn [fst] in H. subst res.
  pose proof (to_long_format_state _ _ _ E) as Hs. subst s'.
  assert (Hm : export_long suffix self = (Ok (writer_for suffix, long), set_long_df long self)).
  { unfold export_long. rewrite Hl, E. reflexivity. }
  subst filtered made. rewrite Hm. cbn [fst snd].
  unfold filter_geo. cbn [set_long_df cleaned_df]. rewrite Hc. cbn [snd].
  repeat split.
Qed.

Lemma export_long_keeps_first_long_table_witness :
  exists long : list long_row,
    fst (export_long ".csv" sample_instance) = Ok (to_csv, long) /\
    fst (export_long ".csv"
           (snd (filter_geo ["BE"] (snd (export_long ".csv" sample_instance))))) =
      Ok (to_csv, long) /\
    List.length long = 6%nat.
Proof.
  destruct (to_long_format sample_instance) as [res s] eqn:E.
  assert (Hres : exists long, res = Ok long /\ List.length long = 6%nat).
  { vm_compute in E. inversion E. eexists. split; reflexivity. }
  destruct Hres as (long & -> & Hn). exists long.
  pose proof (export_long_keeps_first_long_table sample_instance sample_geo long
                ["BE"] ".csv" eq_refl eq_refl) as H.
  rewrite E in H. destruct (H eq_refl) as (H1 & H2 & _).
  repeat split; assumption.
Defined.

(** ** Every value is counted once *)

Lemma dropna_length :
  forall l : list (option float), List.length (dropna l) = List.length (filter notna l).
Proof.
  induction l as [|v l IH]; [reflexivity|].
  cbn [dropna filter]. unfold notna at 1.
  destruct v as [f|]; [destruct (is_nan f)|]; cbn [negb List.length]; rewrite IH; reflexivity.
Qed.

Lemma total_app : forall a b : list nat, total (a ++ b) = (total a + total b)%nat.
Proof.
  intros a b. unfold total. induction a as [|x a IH]; [reflexivity|].
  cbn [app fold_right]. rewrite IH. lia.
Qed.

Lemma total_map_add :
  forall (A : Type) (f g : A -> nat) (l : list A),
    total (map (fun x => (f x + g x)%nat) l) = (total (map f l) + total (map g l))%nat.
Proof.
  intros A f g l. unfold total. induction l as [|a l IH]; [reflexivity|].
  cbn [map fold_right]. rewrite IH. lia.
Qed.

Lemma total_zero :
  forall (A : Type) (l : list A), total (map (fun _ => O) l) = O.
Proof. intros A l. unfold total. induction l as [|a l IH]; [reflexivity | exact IH]. Qed.

(** The cells with a value, counted row by row. *)
Lemma non_missing_rows :
  forall c : list cleaned_row,
    non_missing c = total (map (fun r => List.length (filter notna (cells r))) c).
Proof.
  intros c. unfold non_missing. induction c as [|r c IH]; [reflexivity|].
  cbn [map List.concat]. rewrite filter_app, length_app, IH. reflexivity.
Qed.

Lemma count_by_position :
  forall cs : list (option float),
    total (map (fun j => List.length (filter notna [nth j cs None]))
               (seq 0 (List.length cs))) =
    List.length (filter notna cs).
Proof.
  induction cs as [|v cs IH]; [reflexivity|].
  cbn [List.length seq map]. rewrite <- seq_shift, map_map.
  rewrite (map_ext _ (fun j => List.length (filter notna [nth j cs None])))
    by (intros; reflexivity).
  change (total (?x :: ?l)) with (x + total l)%nat.
  rewrite IH. cbn [nth filter]. destruct (notna v); reflexivity.
Qed.

(** The cells with a value, counted column by column. *)
Lemma non_missing_columns :
  forall (n : nat) (c : list cleaned_row),
    Forall (fun r => List.length (cells r) = n) c ->
    total (map (fun j => List.length (dropna (col j c))) (seq 0 n)) = non_missing c.
Proof.
  intros n c H. rewrite non_missing_rows.
  induction H as [|r c Hr Hc IH].
  - cbn [map col]. apply total_zero.
  - cbn [map]. change (total (?x :: ?l)) with (x + total l)%nat.
    rewrite <- IH, <- (count_by_position (cells r)), Hr, <- total_map_add.
    f_equal. apply map_ext. intros j. unfold col. cbn [map].
    rewrite !dropna_length. cbn [filter]. destruct (notna _); reflexivity.
Qed.

Lemma year_lines_total :
  forall (c : list cleaned_row) (idx : list (nat * string)),
    total (map Count (flat_map (year_line c) idx)) =
    total (map (fun jy => List.length (dropna (col (fst jy) c))) idx).
Proof.
  intros c idx. induction idx as [|jy idx IH]; [reflexivity|].
  cbn [flat_map map]. rewrite map_app, total_app, IH.
  change (total (?x :: ?l)) with (x + total l)%nat. f_equal.
  unfold year_line. destruct (dropna (col (fst jy) c)); [reflexivity|].
  unfold total. cbn [map fold_right Count]. lia.
Qed.

Lemma map_fst_combine_seq :
  forall (ys : list string) (j : nat),
    map fst (combine (seq j (List.length ys)) ys) = seq j (List.length ys).
Proof.
  induction ys as [|y ys IH]; intros j; [reflexivity|].
  cbn [List.length seq combine map fst]. rewrite IH. reflexivity.
Qed.

Lemma group_lines_total :
  forall (dim : dims -> string) (c : list cleaned_row) (keys : list string),
    total (map Data_Points (flat_map (group_line dim c) keys)) =
    total (map (fun k => List.length (group_values dim c k)) keys).
Proof.
  intros dim c keys. induction keys as [|k keys IH]; [reflexivity|].
  cbn [flat_map map]. rewrite map_app, total_app, IH.
  change (total (?x :: ?l)) with (x + total l)%nat. f_equal.
  unfold group_line. destruct (group_values dim c k); [reflexivity|].
  unfold total. cbn [map fold_right Data_Points]. lia.
Qed.

Lemma total_single :
  forall (keys : list string) (x : string) (a : nat),
    NoDup keys -> In x keys ->
    total (map (fun k => if String.eqb x k then a else O) keys) = a.
Proof.
  intros keys x a Hnd. induction Hnd as [|k keys Hk Hnd IH]; intros Hin; [contradiction Hin|].
  cbn [map]. change (total (?y :: ?l)) with (y + total l)%nat.
  destruct (String.eqb x k) eqn:E.
  - apply String.eqb_eq in E. subst k.
    rewrite (map_ext_in _ (fun _ => O)), total_zero; [lia|].
    intros k Hk'. destruct (String.eqb x k) eqn:E'; [|reflexivity].
    apply String.eqb_eq in E'. subst k. contradiction.
  - destruct Hin as [-> | Hin]; [rewrite String.eqb_refl in E; discriminate E|].
    rewrite (IH Hin). reflexivity.
Qed.

(** The rows of a table fall into the groups of a dimension, each row into
    one group. *)
Lemma groups_partition :
  forall (dim : dims -> string) (keys : list string) (c : list cleaned_row),
    NoDup keys ->
    (forall r, In r c -> In (dim (id_vars (meta r))) keys) ->
    total (map (fun k => List.length (group_values dim c k)) keys) = non_missing c.
Proof.
  intros dim keys c Hnd. rewrite non_missing_rows.
  induction c as [|r c IH]; intros Hin.
  - cbn [map]. unfold group_values. cbn. apply total_zero.
  - cbn [map]. change (total (?x :: ?l)) with (x + total l)%nat.
    rewrite <- IH by (intros r' Hr'; apply Hin; right; exact Hr').
    rewrite <- (total_single keys (dim (id_vars (meta r)))
                  (List.length (filter notna (cells r))) Hnd)
      by (apply Hin; left; reflexivity).
    rewrite <- total_map_add. f_equal. apply map_ext. intros k.
    unfold group_values. rewrite !dropna_length. cbn [filter].
    destruct (String.eqb (dim (id_vars (meta r))) k).
    + cbn [map List.concat]. rewrite filter_app, length_app. reflexivity.
    + reflexivity.
Qed.

Lemma sorted_unique_spec :
  forall l : list string,
    NoDup (sorted_unique l) /\ (forall x, In x l -> In x (sorted_unique l)).
Proof.
  intros l. unfold sorted_unique.
  pose proof (sort_perm _ str_leb (nodup string_dec l)) as Hp. split.
  - apply (Permutation_NoDup (Permutation_sym Hp)). apply NoDup_nodup.
  - intros x Hx. apply (Permutation_in _ (Permutation_sym Hp)).
    apply nodup_In. exact Hx.
Qed.

(** X14. On a cleaned table with at least one period, the three tables
    account for every cell with a value exactly once: the counts of the
    year-over-year lines of [analyze_trends], the data points of the
    countries and the data points of the transport modes of
    [summary_stats] each add up to the number of cells with a value. *)
Theorem every_value_counted_once :
  forall (self : t) (c : list cleaned_row) (ys : list string),
    cleaned_df self = Some c ->
    year_cols self = Some ys ->
    ys <> [] ->
    well_formed ys c ->
    exists yearly tr sm,
      analyze_trends self = (Ok (yearly, tr), self) /\
      summary_stats self = (Ok sm, self) /\
      total (map Count yearly) = non_missing c /\
      total (map Data_Points (country_stats sm)) = non_missing c /\
      total (map Data_Points (mode_stats sm)) = non_missing c.
Proof.
  intros self c ys Hc Hy Hne Hwf.
  assert (Ha : exists tr,
             analyze_trends self =
               (Ok (flat_map (year_line c) (combine (seq 0 (List.length ys)) ys), tr), self)).
  { unfold analyze_trends. rewrite Hc, Hy. rewrite yearly_from_ok.
    2:{ eapply Forall_impl; [|exact Hwf]. cbn. intros r Hr. lia. }
    cbn [bind]. destruct ys as [|fy ys']; [contradiction Hne; reflexivity|].
    rewrite !column_ok.
    2,3: eapply Forall_impl; [|exact Hwf]; cbn; intros r Hr; lia.
    cbn [bind]. eexists. reflexivity. }
  destruct Ha as (tr & Ha).
  assert (Hs : exists sm,
             summary_stats self = (Ok sm, self) /\
             country_stats sm =
               flat_map (group_line geo c)
                 (sorted_unique (map (fun r => geo (id_vars (meta r))) c)) /\
             mode_stats sm =
               flat_map (group_line tra_mode c)
                 (sorted_unique (map (fun r => tra_mode (id_vars (meta r))) c))).
  { unfold summary_stats. rewrite Hc, Hy. rewrite !group_stats_ok by exact Hwf.
    cbn [bind]. eexists. repeat split. }
  destruct Hs as (sm & Hs & Hcs & Hms).
  exists (flat_map (year_line c) (combine (seq 0 (List.length ys)) ys)), tr, sm.
  split; [exact Ha|]. split; [exact Hs|]. split; [|split].
  - rewrite year_lines_total.
    rewrite <- (map_map fst (fun j => List.length (dropna (col j c)))).
    rewrite map_fst_combine_seq. apply non_missing_columns. exact Hwf.
  - rewrite Hcs, group_lines_total.
    destruct (sorted_unique_spec (map (fun r => geo (id_vars (meta r))) c)) as [Hnd Hin].
    apply groups_partition; [exact Hnd|].
    intros r Hr. apply Hin. apply (in_map (fun r => geo (id_vars (meta r)))). exact Hr.
  - rewrite Hms, group_lines_total.
    destruct (sorted_unique_spec (map (fun r => tra_mode (id_vars (meta r))) c)) as [Hnd Hin].
    apply groups_partition; [exact Hnd|].
    intros r Hr. apply Hin. apply (in_map (fun r => tra_mode (id_vars (meta r)))). exact Hr.
Qed.

Lemma every_value_counted_once_witness :
  exists yearly tr sm,
    analyze_trends sample_instance = (Ok (yearly, tr), sample_instance) /\
    summary_stats sample_instance = (Ok sm, sample_instance) /\
    total (map Count yearly) = 6%nat /\
    total (map Data_Points (country_stats sm)) = 6%nat.
Proof.
  destruct (every_value_counted_once sample_instance sample_geo ["2020"; "2021"; "2022"]
              eq_refl eq_refl ltac:(discriminate) sample_well_formed)
    as (yearly & tr & sm & Ha & Hs & H1 & H2 & _).
  exists yearly, tr, sm. repeat split; assumption.
Defined.

(** ** The overall trend *)

(** X15. When the first or the last period column holds no value at all,
    [analyze_trends] raises nothing and prints the year-over-year lines
    only: the overall trend is left out without a word. *)
Theorem analyze_trends_no_trend_for_empty_period :
  forall (self : t) (c : list cleaned_row) (ys : list string),
    cleaned_df self = Some c ->
    year_cols self = Some ys ->
    ys <> [] ->
    well_formed ys c ->
    dropna (col 0 c) = [] \/ dropna (col (List.length ys - 1) c) = [] ->
    exists yearly, analyze_trends self = (Ok (yearly, None), self).
Proof.
  intros self c ys Hc Hy Hne Hwf He.
  unfold analyze_trends. rewrite Hc, Hy.
  rewrite yearly_from_ok.
  2:{ eapply Forall_impl; [|exact Hwf]. cbn. intros r Hr. lia. }
  cbn [bind]. destruct ys as [|fy ys']; [contradiction Hne; reflexivity|].
  rewrite !column_ok.
  2,3: eapply Forall_impl; [|exact Hwf]; cbn; intros r Hr; lia.
  cbn [bind]. eexists. f_equal. f_equal. f_equal.
  unfold overall_trend. destruct He as [He | He]; rewrite He.
  - reflexivity.
  - change (is_nan (Stats.mean [])) with true. cbn [negb]. rewrite andb_false_r. reflexivity.
Qed.

Lemma analyze_trends_no_trend_for_empty_period_witness :
  exists yearly,
    analyze_trends empty_first_period_instance =
      (Ok (yearly, None), empty_first_period_instance).
Proof.
  apply (analyze_trends_no_trend_for_empty_period empty_first_period_instance
           [row_of "BE" "IWW" 0 [None; Some (of_Z 10)]] ["2020"; "2021"]
           eq_refl eq_refl).
  - discriminate.
  - repeat constructor.
  - left. reflexivity.
Defined.

(** ** The counts of the analysis script *)

Lemma quality_step_counts :
  forall (q : AnalyzeEurostat.quality) (v : pyvalue),
    let q' := AnalyzeEurostat.quality_step q v in
    (AnalyzeEurostat.missing_count q' + AnalyzeEurostat.valid_count q' =
     S (AnalyzeEurostat.missing_count q + AnalyzeEurostat.valid_count q))%nat /\
    (AnalyzeEurostat.estimated_count q + AnalyzeEurostat.break_count q
     <= AnalyzeEurostat.valid_count q ->
     AnalyzeEurostat.estimated_count q' + AnalyzeEurostat.break_count q'
     <= AnalyzeEurostat.valid_count q')%nat.
Proof.
  intros q v. unfold AnalyzeEurostat.quality_step.
  destruct (_ || _ || _); [|destruct (contains "e" _); [|destruct (contains "b" _)]];
    cbn; split; lia.
Qed.

Lemma quality_column_counts :
  forall (l : list pyvalue) (q : AnalyzeEurostat.quality),
    let q' := fold_left AnalyzeEurostat.quality_step l q in
    (AnalyzeEurostat.missing_count q' + AnalyzeEurostat.valid_count q' =
     AnalyzeEurostat.missing_count q + AnalyzeEurostat.valid_count q + List.length l)%nat /\
    (AnalyzeEurostat.estimated_count q + AnalyzeEurostat.break_count q
     <= AnalyzeEurostat.valid_count q ->
     AnalyzeEurostat.estimated_count q' + AnalyzeEurostat.break_count q'
     <= AnalyzeEurostat.valid_count q')%nat.
Proof.
  intros l. induction l as [|v l IH]; intros q; cbn [fold_left List.length].
  - split; [lia | tauto].
  - destruct (quality_step_counts q v) as [H1 H2].
    destruct (IH (AnalyzeEurostat.quality_step q v)) as [H3 H4].
    cbv zeta in *. split; [lia|]. intros H. apply H4, H2, H.
Qed.

(** X16. The counts of [analyze_eurostat_file] add up: every cell of the
    period columns is counted either as missing or as valid, so that the two
    counts sum to the number of cells, and the cells counted as estimated or
    as break in series are at most the valid ones. *)
Theorem quality_counts_add_up :
  forall year_columns : list (list pyvalue),
    let q := AnalyzeEurostat.analyze_eurostat_file_quality year_columns in
    (AnalyzeEurostat.missing_count q + AnalyzeEurostat.valid_count q =
     total (map (@List.length pyvalue) year_columns))%nat /\
    (AnalyzeEurostat.estimated_count q + AnalyzeEurostat.break_count q
     <= AnalyzeEurostat.valid_count q)%nat.
Proof.
  intros year_columns. unfold AnalyzeEurostat.analyze_eurostat_file_quality.
  assert (G : forall (cols : list (list pyvalue)) (q0 : AnalyzeEurostat.quality),
             let q' := fold_left (fun q col => fold_left AnalyzeEurostat.quality_step col q)
                                 cols q0 in
             (AnalyzeEurostat.missing_count q' + AnalyzeEurostat.valid_count q' =
              AnalyzeEurostat.missing_count q0 + AnalyzeEurostat.valid_count q0
              + total (map (@List.length pyvalue) cols))%nat /\
             (AnalyzeEurostat.estimated_count q0 + AnalyzeEurostat.break_count q0
              <= AnalyzeEurostat.valid_count q0 ->
              AnalyzeEurostat.estimated_count q' + AnalyzeEurostat.break_count q'
              <= AnalyzeEurostat.valid_count q')%nat).
  { induction cols as [|col cols IH]; intros q0; cbn [fold_left map].
    - unfold total. cbn. split; [lia | tauto].
    - destruct (quality_column_counts col q0) as [H1 H2].
      destruct (IH (fold_left AnalyzeEurostat.quality_step col q0)) as [H3 H4].
      cbv zeta in *. change (total (?x :: ?l)) with (x + total l)%nat.
      split; [lia|]. intros H. apply H4, H2, H. }
  destruct (G year_columns (AnalyzeEurostat.mk_quality 0 0 0 0)) as [H1 H2].
  cbv zeta in *. cbn in H1, H2. split; [exact H1 | apply H2; lia].
Qed.

(** X17. A text cell, or a missing one, that the analysis script counts as
    missing is cleaned to [None] by its [clean_eurostat_value]; the converse
    fails, a cell such as [abc] being counted as valid and cleaned to
    [None]. *)
Theorem counted_missing_is_cleaned_to_none :
  (forall v : pyvalue,
     v = NA \/ (exists s, v = Str s) ->
     AnalyzeEurostat.quality_step (AnalyzeEurostat.mk_quality 0 0 0 0) v =
       AnalyzeEurostat.mk_quality 1 0 0 0 ->
     AnalyzeEurostat.clean_eurostat_value v = Ok None) /\
  (AnalyzeEurostat.quality_step (AnalyzeEurostat.mk_quality 0 0 0 0) (Str "abc") =
     AnalyzeEurostat.mk_quality 0 0 1 1 /\
   AnalyzeEurostat.clean_eurostat_value (Str "abc") = Ok None).
Proof.
  split; [|split; reflexivity].
  intros v [-> | (s & ->)] H; [reflexivity|].
  unfold AnalyzeEurostat.quality_step in H. cbn [py_str] in H.
  unfold AnalyzeEurostat.clean_eurostat_value. cbn [isna].
  destruct (contains ":" (strip s)) eqn:Ec.
  - apply strip_contains in Ec. rewrite Ec, orb_true_r. reflexivity.
  - cbn [orb] in H. destruct (String.eqb (strip s) "nan") eqn:En.
    + apply String.eqb_eq in En. rewrite En.
      destruct (String.eqb "nan" "" || contains ":" s); reflexivity.
    + cbn [orb] in H. destruct (String.eqb (strip s) "") eqn:Ee; [reflexivity|].
      destruct (contains "e" (strip s)); [discriminate H|].
      destruct (contains "b" (strip s)); discriminate H.
Qed.

Lemma counted_missing_is_cleaned_to_none_witness :
  AnalyzeEurostat.clean_eurostat_value (Str " : c ") = Ok None.
Proof.
  apply (proj1 counted_missing_is_cleaned_to_none).
  - right. exists " : c ". reflexivity.
  - reflexivity.
Defined.

(** ** [clean_data] *)

Lemma nth_error_combine :
  forall (A B : Type) (l : list A) (l' : list B) (i : nat) (a : A) (b : B),
    nth_error (combine l l') i = Some (a, b) ->
    nth_error l i = Some a /\ nth_error l' i = Some b.
Proof.
  intros A B l. induction l as [|x l IH]; intros l' i a b H.
  - destruct i; discriminate H.
  - destruct l' as [|y l']; [destruct i; discriminate H|].
    destruct i as [|i]; cbn in *.
    + inversion H. split; reflexivity.
    + apply IH. exact H.
Qed.

Lemma sorted_nth_gap :
  forall metas : list meta_row,
    StronglySorted (fun a b => row_idx a < row_idx b) metas ->
    forall (j i : nat) (mj mi : meta_row),
      (j <= i)%nat ->
      nth_error metas j = Some mj ->
      nth_error metas i = Some mi ->
      row_idx mj + Z.of_nat (i - j) <= row_idx mi.
Proof.
  intros metas H. induction H as [|m l Hs IH Hm]; intros j i mj mi Hji Hj Hi.
  - destruct j; discriminate Hj.
  - destruct j as [|j]; destruct i as [|i]; cbn in Hj, Hi.
    + inversion Hj; inversion Hi; subst. lia.
    + inversion Hj; subst.
      destruct l as [|m0 l0]; [destruct i; discriminate Hi|].
      pose proof (IH 0%nat i m0 mi ltac:(lia) eq_refl Hi) as Hg.
      inversion Hm; subst. lia.
    + lia.
    + pose proof (IH j i mj mi ltac:(lia) Hj Hi). lia.
Qed.


(** What [clean_data] returns, when it returns a frame. *)
Lemma clean_data_frame :
  forall (self s' : t) (rows : list raw_row) (cleaned : list cleaned_row)
         (rep : clean_report),
    df self = Some rows ->
    clean_data self = Some (Ok (cleaned, rep), s') ->
    exists (metas : list meta_row) (ys : list string),
      parse_metadata_loop rows 0 [] = Ok metas /\
      year_cols self = Some ys /\
      frame_in_model ys rows metas = true /\
      cleaned = assign_years metas rows /\
      s' = set_cleaned_df cleaned self /\
      total_cells rep = Z.of_nat (List.length cleaned) * Z.of_nat (List.length ys) /\
      valid_values rep = Z.of_nat (non_missing cleaned).
Proof.
  intros self s' rows cleaned rep Hdf H. unfold clean_data in H. rewrite Hdf in H.
  destruct (parse_metadata_loop rows 0 []) as [metas|e] eqn:Ep; [|discriminate H].
  destruct (year_cols self) as [ys|]; [|discriminate H].
  destruct (frame_in_model ys rows metas) eqn:Ef; [|discriminate H].
  inversion H; subst. exists metas, ys.
  split; [reflexivity|]. split; [reflexivity|]. split; [exact Ef|].
  repeat split.
Qed.

(** X18. [clean_data] pairs keys and values by position, not by row: the
    row at position [i] of the cleaned table holds the cleaned cells of the
    source row at position [i], while its key fields are those of the source
    row that its [row_idx] names, a row at position [i] or after it.  As
    soon as a key at or before position [i] was skipped, [row_idx] lies
    after [i]: the row shows the key of one source row beside the values of
    an earlier one. *)
Theorem clean_data_pairs_by_position :
  forall (self s' : t) (rows : list raw_row) (cleaned : list cleaned_row)
         (rep : clean_report) (i : nat) (r : cleaned_row),
    df self = Some rows ->
    clean_data self = Some (Ok (cleaned, rep), s') ->
    nth_error cleaned i = Some r ->
    (exists raw, nth_error rows i = Some raw /\
                 cells r = map clean_value (raw_cells raw)) /\
    (exists src k, nth_error rows (Z.to_nat (row_idx (meta r))) = Some src /\
                   key src = Str k /\
                   meta r = record_of_key (row_idx (meta r), k)) /\
    Z.of_nat i <= row_idx (meta r) /\
    (forall (j : nat) (raw_j : raw_row) (k_j : string),
       (j <= i)%nat ->
       nth_error rows j = Some raw_j ->
       key raw_j = Str k_j ->
       (List.length (split "," k_j) < 4)%nat ->
       Z.of_nat i < row_idx (meta r)).
Proof.
  intros self s' rows cleaned rep i r Hdf H Hi.
  destruct (clean_data_frame _ _ _ _ _ Hdf H)
    as (metas & ys & Hp & _ & _ & Hcl & _).
  subst cleaned. unfold assign_years in Hi. rewrite nth_error_map in Hi.
  destruct (nth_error (combine metas rows) i) as [[m raw]|] eqn:Ec; [|discriminate Hi].
  cbn in Hi. inversion Hi; subst r. clear Hi. cbn [meta cells].
  apply nth_error_combine in Ec. destruct Ec as [Hm Hraw].
  apply parse_metadata_loop_spec in Hp. destruct Hp as (new & Hout & Hs & Hf).
  cbn [app] in Hout. subst new.
  assert (Hprov : forall (n : nat) (mn : meta_row),
             nth_error metas n = Some mn ->
             Z.of_nat n <= row_idx mn /\
             exists src k,
               nth_error rows (Z.to_nat (row_idx mn)) = Some src /\
               key src = Str k /\
               (4 <= List.length (split "," k))%nat /\
               mn = record_of_key (row_idx mn, k)).
  { intros n mn Hn. rewrite Forall_forall in Hf.
    destruct (Hf mn (nth_error_In _ _ Hn)) as (H0 & src & k & Hsrc & Hk & H4 & Hrec).
    rewrite Z.sub_0_r in Hsrc. split.
    - destruct metas as [|m0 metas0] eqn:Em; [destruct n; discriminate Hn|].
      pose proof (sorted_nth_gap _ Hs 0%nat n m0 mn ltac:(lia) eq_refl Hn) as Hg.
      destruct (Hf m0 (or_introl eq_refl)) as (H00 & _). lia.
    - exists src, k. repeat split; assumption. }
  destruct (Hprov i m Hm) as (Hge & src & k & Hsrc & Hk & H4 & Hrec).
  split; [exists raw; split; [exact Hraw | reflexivity]|].
  split; [exists src, k; repeat split; assumption|].
  split; [exact Hge|].
  intros j raw_j k_j Hji Hj Hkj Hshort.
  destruct (Z.eq_dec (row_idx m) (Z.of_nat i)) as [Heq | Hneq]; [|lia].
  exfalso.
  assert (Hjm : exists mj, nth_error metas j = Some mj).
  { destruct (nth_error metas j) as [mj|] eqn:E; [eexists; reflexivity|].
    apply nth_error_None in E.
    assert (i < List.length metas)%nat by (apply nth_error_Some; rewrite Hm; discriminate).
    lia. }
  destruct Hjm as (mj & Hmj).
  pose proof (sorted_nth_gap _ Hs j i mj m Hji Hmj Hm) as Hg.
  destruct (Hprov j mj Hmj) as (Hgej & srcj & kj & Hsrcj & Hkj' & H4j & _).
  assert (Hidx : row_idx mj = Z.of_nat j) by lia.
  rewrite Hidx, Nat2Z.id, Hj in Hsrcj. inversion Hsrcj; subst srcj.
  rewrite Hkj in Hkj'. inversion Hkj'; subst kj. lia.
Qed.

Lemma clean_data_pairs_by_position_witness :
  exists (cleaned : list cleaned_row) (rep : clean_report) (s' : t) (r : cleaned_row),
    clean_data skipped_first_instance = Some (Ok (cleaned, rep), s') /\
    nth_error cleaned 0 = Some r /\
    geo (id_vars (meta r)) = "BE" /\
    cells r = [clean_value (Str "1")] /\
    0 < row_idx (meta r).
Proof.
  destruct (clean_data skipped_first_instance) as [[[[cleaned rep]|e] s']|] eqn:E;
    try (vm_compute in E; discriminate E).
  assert (Hr : exists r, nth_error cleaned 0 = Some r /\ geo (id_vars (meta r)) = "BE").
  { vm_compute in E. inversion E. eexists. split; reflexivity. }
  destruct Hr as (r & Hr & Hg).
  destruct (clean_data_pairs_by_position skipped_first_instance s' skipped_first_rows
              cleaned rep 0 r eq_refl E Hr) as ((raw & Hraw & Hcells) & _ & _ & Hskip).
  exists cleaned, rep, s', r. split; [reflexivity|]. split; [exact Hr|]. split; [exact Hg|].
  cbn in Hraw. inversion Hraw; subst raw. split; [exact Hcells|].
  apply (Hskip 0%nat (mk_raw_row (Str "A,PC,IWW") [Str "1"]) "A,PC,IWW");
    [lia | reflexivity | reflexivity | cbn; lia].
Defined.




(** ** [summary_stats]: the lines of the country table *)

Lemma str_leb_total : forall a b : string, str_leb a b = false -> str_leb b a = true.
Proof.
  intros a b H. unfold str_leb in *.
  destruct (str_compare_cases a b) as [(E & _) | [(_ & E) | (_ & E)]];
    rewrite E in *; try discriminate H; reflexivity.
Qed.

Lemma str_leb_trans :
  forall a b c : string, str_leb a b = true -> str_leb b c = true -> str_leb a c = true.
Proof.
  intros a b c H1 H2. unfold str_leb in *.
  destruct (str_compare_cases a b) as [(E1 & _) | [(-> & _) | (E1 & _)]].
  - destruct (str_compare_cases b c) as [(E2 & _) | [(<- & _) | (E2 & _)]].
    + rewrite (str_lt_trans a b c E1 E2). reflexivity.
    + rewrite E1. reflexivity.
    + rewrite E2 in H2. discriminate H2.
  - exact H2.
  - rewrite E1 in H1. discriminate H1.
Qed.

Lemma sorted_unique_ascending :
  forall l : list string,
    StronglySorted (fun a b => String.compare a b = Lt) (sorted_unique l).
Proof.
  intros l. destruct (sorted_unique_spec l) as [Hnd _]. unfold sorted_unique in *.
  pose proof (sort_sorted _ str_leb str_leb_total str_leb_trans (nodup string_dec l)) as Hs.
  induction Hs as [|a keys Hs IH Ha]; [constructor|].
  inversion Hnd as [|? ? Hnot Hnd']; subst.
  constructor; [apply IH; exact Hnd'|].
  rewrite Forall_forall in *. intros b Hb. specialize (Ha b Hb). unfold str_leb in Ha.
  destruct (str_compare_cases a b) as [(E & _) | [(-> & _) | (E & _)]].
  - exact E.
  - contradiction.
  - rewrite E in Ha. discriminate Ha.
Qed.

Lemma group_line_cases :
  forall (dim : dims -> string) (c : list cleaned_row) (k : string),
    (group_values dim c k = [] /\ group_line dim c k = []) \/
    (group_values dim c k <> [] /\
     exists l, group_line dim c k = [l] /\ Group l = k /\ (1 <= Data_Points l)%nat).
Proof.
  intros dim c k. unfold group_line. destruct (group_values dim c k) as [|v vs].
  - left. split; reflexivity.
  - right. split; [discriminate|]. eexists. split; [reflexivity|].
    cbn [Group Data_Points List.length]. split; [reflexivity | lia].
Qed.

Lemma group_lines_groups :
  forall (dim : dims -> string) (c : list cleaned_row) (keys : list string) (l : stats_row),
    In l (flat_map (group_line dim c) keys) ->
    In (Group l) keys /\ group_values dim c (Group l) <> [] /\ (1 <= Data_Points l)%nat.
Proof.
  intros dim c keys l H. apply in_flat_map in H. destruct H as (k & Hk & Hl).
  destruct (group_line_cases dim c k) as [(_ & E) | (Hv & l' & E & Hg & Hd)];
    rewrite E in Hl; [contradiction Hl|].
  destruct Hl as [<- | []]. rewrite Hg. repeat split; assumption.
Qed.

Lemma group_lines_ascending :
  forall (dim : dims -> string) (c : list cleaned_row) (keys : list string),
    StronglySorted (fun a b => String.compare a b = Lt) keys ->
    StronglySorted (fun a b => String.compare (Group a) (Group b) = Lt)
                   (flat_map (group_line dim c) keys).
Proof.
  intros dim c keys H. induction H as [|k keys Hs IH Hk]; [constructor|].
  cbn [flat_map].
  destruct (group_line_cases dim c k) as [(_ & E) | (_ & l & E & Hg & _)]; rewrite E.
  - exact IH.
  - cbn [app]. constructor; [exact IH|].
    rewrite Forall_forall in *. intros l' Hl'.
    apply group_lines_groups in Hl'. rewrite Hg. apply Hk. tauto.
Qed.

Lemma dropna_not_nil :
  forall l : list (option float), dropna l <> [] <-> existsb notna l = true.
Proof.
  induction l as [|v l IH]; [cbn; split; [congruence | discriminate]|].
  cbn [dropna existsb]. unfold notna at 1.
  destruct v as [f|]; [destruct (is_nan f)|]; cbn [negb orb]; try exact IH.
  split; [reflexivity | discriminate].
Qed.

Lemma group_values_not_nil :
  forall (dim : dims -> string) (c : list cleaned_row) (k : string),
    group_values dim c k <> [] <->
    exists r, In r c /\ dim (id_vars (meta r)) = k /\ existsb notna (cells r) = true.
Proof.
  intros dim c k. unfold group_values. rewrite dropna_not_nil, existsb_exists. split.
  - intros (v & Hv & Hn). apply in_concat in Hv. destruct Hv as (cs & Hcs & Hv).
    apply in_map_iff in Hcs. destruct Hcs as (r & <- & Hr).
    apply filter_In in Hr. destruct Hr as [Hr He]. apply String.eqb_eq in He.
    exists r. split; [exact Hr|]. split; [exact He|].
    apply existsb_exists. exists v. split; assumption.
  - intros (r & Hr & He & Hn). apply existsb_exists in Hn. destruct Hn as (v & Hv & Hn).
    exists v. split; [|exact Hn]. apply in_concat. exists (cells r). split; [|exact Hv].
    apply in_map. apply filter_In. split; [exact Hr|]. apply String.eqb_eq. exact He.
Qed.

Lemma group_lines_length :
  forall (dim : dims -> string) (c : list cleaned_row) (keys : list string),
    (List.length (flat_map (group_line dim c) keys) <= List.length keys)%nat.
Proof.
  intros dim c keys. induction keys as [|k keys IH]; [cbn; lia|].
  cbn [flat_map]. rewrite length_app. cbn [List.length].
  destruct (group_line_cases dim c k) as [(_ & E) | (_ & l & E & _)]; rewrite E;
    cbn [List.length]; lia.
Qed.

(** X20. On a cleaned table with one cell per period, the country table
    of [summary_stats] is in strictly ascending order of the country
    (no country twice), a country has a line exactly when one of its rows
    has a value, every line counts at least one data point, and the number
    of countries printed in the overview counts the countries without a
    value too, so it is at least the number of lines. *)
Theorem summary_stats_country_lines :
  forall (self : t) (c : list cleaned_row) (ys : list string),
    cleaned_df self = Some c ->
    year_cols self = Some ys ->
    well_formed ys c ->
    exists sm : summary,
      summary_stats self = (Ok sm, self) /\
      StronglySorted (fun a b => String.compare (Group a) (Group b) = Lt)
                     (country_stats sm) /\
      (forall k : string,
          In k (map Group (country_stats sm)) <->
          exists r, In r c /\ geo (id_vars (meta r)) = k /\
                    existsb notna (cells r) = true) /\
      Forall (fun l => (1 <= Data_Points l)%nat) (country_stats sm) /\
      (List.length (country_stats sm) <= Countries sm)%nat.
Proof.
  intros self c ys Hc Hy Hwf.
  set (keys := sorted_unique (map (fun r => geo (id_vars (meta r))) c)).
  exists (mk_summary
            (List.length (nodup string_dec (map (fun r => geo (id_vars (meta r))) c)))
            (List.length (nodup string_dec (map (fun r => tra_mode (id_vars (meta r))) c)))
            (List.length ys)
            (flat_map (group_line geo c) keys)
            (flat_map (group_line tra_mode c)
               (sorted_unique (map (fun r => tra_mode (id_vars (meta r))) c)))).
  cbn [country_stats Countries]. split; [|split; [|split; [|split]]].
  - unfold summary_stats. rewrite Hc, Hy. rewrite !group_stats_ok by exact Hwf.
    reflexivity.
  - apply group_lines_ascending. apply sorted_unique_ascending.
  - intros k. rewrite <- group_values_not_nil. split.
    + intros H. apply in_map_iff in H. destruct H as (l & <- & Hl).
      apply group_lines_groups in Hl. tauto.
    + intros H. pose proof H as Hv. apply group_values_not_nil in H.
      destruct H as (r & Hr & Hg & _).
      destruct (group_line_cases geo c k) as [(E & _) | (_ & l & E & Hl & _)];
        [contradiction|].
      apply in_map_iff. exists l. split; [exact Hl|].
      apply in_flat_map. exists k. split; [|rewrite E; left; reflexivity].
      apply (proj2 (sorted_unique_spec _)). rewrite <- Hg.
      apply (in_map (fun r => geo (id_vars (meta r)))). exact Hr.
  - apply Forall_forall. intros l Hl. apply group_lines_groups in Hl. tauto.
  - etransitivity; [apply group_lines_length|]. unfold keys, sorted_unique.
    rewrite (Permutation_length (sort_perm _ str_leb _)). lia.
Qed.

Lemma summary_stats_country_lines_witness :
  exists sm : summary,
    summary_stats silent_country_instance = (Ok sm, silent_country_instance) /\
    map Group (country_stats sm) = ["BE"; "NL"] /\
    Countries sm = 3%nat /\
    StronglySorted (fun a b => String.compare (Group a) (Group b) = Lt)
                   (country_stats sm).
Proof.
  assert (Hwf : well_formed ["2020"; "2021"]
                  [ row_of "NL" "RAIL" 0 [Some (of_Z 20); None];
                    row_of "XK" "RAIL" 1 [None; None];
                    row_of "BE" "IWW" 2 [None; Some (of_Z 10)] ])
    by (repeat constructor).
  destruct (summary_stats_country_lines silent_country_instance _ _ eq_refl eq_refl Hwf)
    as (sm & Hs & Hsorted & _).
  exists sm. split; [exact Hs|].
  assert (Hg : map Group (country_stats sm) = ["BE"; "NL"] /\ Countries sm = 3%nat).
  { vm_compute in Hs. inversion Hs. split; reflexivity. }
  destruct Hg as [Hg Hn]. repeat split; assumption.
Defined.

(** ** [main] *)









(** ** [analyze_eurostat_file]: when the analysis returns *)

Lemma mapM_returns :
  forall (A B : Type) (f : A -> result B) (l : list A),
    (exists out, mapM f l = Ok out) <-> Forall (fun a => exists b, f a = Ok b) l.
Proof.
  intros A B f l. split.
  - intros (out & H). apply mapM_inv in H.
    induction H as [|a b l out Hab _ IH]; constructor; [exists b; exact Hab | exact IH].
  - intros H. induction H as [|a l (b & Hb) _ (out & IH)].
    + exists []. reflexivity.
    + exists (b :: out). cbn [mapM]. rewrite Hb. cbn [bind]. rewrite IH. reflexivity.
Qed.

Lemma Forall_equiv :
  forall (A : Type) (P Q : A -> Prop) (l : list A),
    (forall a, P a <-> Q a) -> (Forall P l <-> Forall Q l).
Proof.
  intros A P Q l H. split; intros HF; eapply Forall_impl; try exact HF;
    intros a Ha; apply H; exact Ha.
Qed.

Lemma nth_seq_cells :
  forall (A : Type) (d : A) (l : list A),
    map (fun j => nth j l d) (seq 0 (List.length l)) = l.
Proof.
  intros A d l. apply (nth_ext _ _ d d).
  - rewrite length_map, length_seq. reflexivity.
  - intros i Hi. rewrite length_map, length_seq in Hi.
    rewrite (nth_indep _ d (nth 0 l d)) by (rewrite length_map, length_seq; exact Hi).
    rewrite (map_nth (fun j => nth j l d)). rewrite seq_nth by exact Hi. reflexivity.
Qed.

Lemma cells_by_position :
  forall (ys : list string) (cs : list pyvalue),
    List.length cs = List.length ys ->
    map (fun jy : nat * string => nth (fst jy) cs NA)
        (combine (seq 0 (List.length ys)) ys) = cs.
Proof.
  intros ys cs H.
  rewrite <- (map_map fst (fun j => nth j cs NA)), map_fst_combine_seq, <- H.
  apply nth_seq_cells.
Qed.

Lemma cell_in_range :
  forall (j : nat) (r : raw_row),
    (j < List.length (raw_cells r))%nat ->
    AnalyzeEurostat.cell j r = Ok (nth j (raw_cells r) NA).
Proof.
  intros j r H. unfold AnalyzeEurostat.cell.
  destruct (nth_error (raw_cells r) j) as [v|] eqn:E.
  - rewrite (nth_error_nth _ _ NA E). reflexivity.
  - apply nth_error_None in E. lia.
Qed.

Lemma format_s_returns :
  forall v : pyvalue, (exists s, AnalyzeEurostat.format_s v = Ok s) <-> is_text v.
Proof.
  intros v. unfold is_text. split.
  - intros (s & H). destruct v; try discriminate H. eexists. reflexivity.
  - intros (s & ->). exists s. reflexivity.
Qed.

Lemma sample_line_returns :
  forall (ys : list string) (r : raw_row) (k : string),
    key r = Str k ->
    List.length (raw_cells r) = List.length ys ->
    ((exists o, AnalyzeEurostat.sample_line ys r = Ok o) <->
     Forall is_text (recent_cells r)).
Proof.
  intros ys r k Hk Hlen. unfold AnalyzeEurostat.sample_line. rewrite Hk. cbv zeta.
  rewrite (mapM_ok _ _ _ (fun jy : nat * string => nth (fst jy) (raw_cells r) NA)).
  2:{ intros [j y] Hin. cbn [fst]. apply cell_in_range.
      assert (Hc : In (j, y) (combine (seq 0 (List.length ys)) ys)).
      { rewrite <- (firstn_skipn (List.length ys - 3)). apply in_or_app. right. exact Hin. }
      apply in_combine_l, in_seq in Hc. lia. }
  cbn [bind]. rewrite <- skipn_map, cells_by_position by exact Hlen.
  unfold recent_cells. rewrite Hlen.
  rewrite <- (Forall_equiv _ _ _ _ format_s_returns), <- mapM_returns.
  split.
  - intros (o & H). destruct (mapM AnalyzeEurostat.format_s _) as [sh|e];
      [exists sh; reflexivity | discriminate H].
  - intros (sh & H). rewrite H. cbn [bind]. eexists. reflexivity.
Qed.

Lemma firstn_subset :
  forall (A : Type) (n : nat) (l : list A) (x : A), In x (firstn n l) -> In x l.
Proof.
  intros A n l x H. rewrite <- (firstn_skipn n l). apply in_or_app. left. exact H.
Qed.

Lemma key_text_returns :
  forall r : raw_row,
    (exists k, match key r with Str meta_str => Ok meta_str | _ => Raise AttributeError end
               = Ok k) <-> is_text (key r).
Proof.
  intros r. unfold is_text. split.
  - intros (k & H). destruct (key r); try discriminate H. eexists. reflexivity.
  - intros (k & ->). exists k. reflexivity.
Qed.

Lemma meta_not_empty :
  forall (rows : list raw_row) (keys : list string),
    Forall2 (fun r k =>
               match key r with Str meta_str => Ok meta_str | _ => Raise AttributeError end
               = Ok k) rows keys ->
    (AnalyzeEurostat.analyze_eurostat_file_meta keys <> [] <->
     Exists (fun r => exists k, key r = Str k /\ (4 <= List.length (split "," k))%nat) rows).
Proof.
  intros rows keys H. induction H as [|r k rows keys Hrk _ IH].
  - cbn. split; [congruence | intros HE; inversion HE].
  - assert (Hk : key r = Str k) by (destruct (key r); inversion Hrk; reflexivity).
    cbn [AnalyzeEurostat.analyze_eurostat_file_meta].
    destruct (4 <=? List.length (split "," k))%nat eqn:E.
    + split; [|discriminate]. intros _. apply Exists_cons_hd. exists k.
      split; [exact Hk|]. apply Nat.leb_le. exact E.
    + rewrite IH. split.
      * intros HE. apply Exists_cons_tl. exact HE.
      * intros HE. inversion HE as [? ? (k' & Hk' & H4) | ? ? HE']; subst; [|exact HE'].
        rewrite Hk in Hk'. inversion Hk'; subst k'. apply Nat.leb_gt in E. lia.
Qed.

Lemma year_columns_ok :
  forall (n : nat) (rows : list raw_row),
    Forall (fun r => List.length (raw_cells r) = n) rows ->
    mapM (fun j => mapM (AnalyzeEurostat.cell j) rows) (seq 0 n) =
    Ok (map (fun j => map (fun r => nth j (raw_cells r) NA) rows) (seq 0 n)).
Proof.
  intros n rows H. apply mapM_ok. intros j Hj. apply in_seq in Hj.
  apply mapM_ok. intros r Hr. rewrite Forall_forall in H.
  apply cell_in_range. rewrite (H r Hr). lia.
Qed.

Lemma clean_eurostat_value_returns :
  forall v : pyvalue,
    (exists b, AnalyzeEurostat.clean_eurostat_value v = Ok b) <->
    (isna v = true \/ is_text v).
Proof.
  intros v. unfold AnalyzeEurostat.clean_eurostat_value, is_text.
  destruct (isna v) eqn:En.
  - split; [intros _; left; reflexivity | intros _; eexists; reflexivity].
  - destruct v as [|s|f|z].
    + discriminate En.
    + split; [intros _; right; eexists; reflexivity|]. intros _.
      destruct (String.eqb (strip s) "" || contains ":" s); [eexists; reflexivity|].
      destruct (float_of_str _); eexists; reflexivity.
    + split; [intros (b & H); discriminate H|].
      intros [H | (s & H)]; discriminate H.
    + split; [intros (b & H); discriminate H|].
      intros [H | (s & H)]; discriminate H.
Qed.

Lemma numeric_df_returns :
  forall (n : nat) (rows : list raw_row),
    Forall (fun r => List.length (raw_cells r) = n) rows ->
    ((exists out,
         mapM (mapM AnalyzeEurostat.clean_eurostat_value)
              (map (fun j => map (fun r => nth j (raw_cells r) NA) rows) (seq 0 n)) = Ok out) <->
     Forall (fun r => Forall (fun v => isna v = true \/ is_text v) (raw_cells r)) rows).
Proof.
  intros n rows Hlen. rewrite mapM_returns.
  rewrite (Forall_equiv _ _ _ _ (fun l => mapM_returns _ _ _ l)).
  rewrite (Forall_equiv _ _ _ _
             (fun l => Forall_equiv _ _ _ l clean_eurostat_value_returns)).
  rewrite !Forall_forall. rewrite Forall_forall in Hlen. split.
  - intros H r Hr. apply Forall_forall. intros v Hv.
    destruct (In_nth _ _ NA Hv) as (j & Hj & <-).
    assert (Hc : In (map (fun r => nth j (raw_cells r) NA) rows)
                    (map (fun j => map (fun r => nth j (raw_cells r) NA) rows) (seq 0 n))).
    { apply in_map_iff. exists j. split; [reflexivity|]. apply in_seq.
      rewrite (Hlen r Hr) in Hj. lia. }
    specialize (H _ Hc). rewrite Forall_forall in H. apply H.
    apply (in_map (fun r => nth j (raw_cells r) NA)). exact Hr.
  - intros H l Hl. apply in_map_iff in Hl. destruct Hl as (j & <- & Hj).
    apply in_seq in Hj. apply Forall_forall. intros v Hv.
    apply in_map_iff in Hv. destruct Hv as (r & <- & Hr).
    specialize (H r Hr). rewrite Forall_forall in H. apply H.
    apply nth_In. rewrite (Hlen r Hr). lia.
Qed.

(** X22. When the analysis script gets through a file.  On the frame of
    a file (one cell per period column in every row),
    [analyze_eurostat_file] returns exactly when the file has a period
    column, every key is text and one of them has four parts or more, the
    cells of the first ten rows under the last three periods are text, and
    every other cell is text or empty; in every other case an exception
    leaves it.  So a file with an empty cell among the ones displayed, or
    with a number that [read_csv] parsed, is not analysed. *)
Theorem analyze_eurostat_file_returns_iff :
  forall (columns : list string) (rows : list raw_row),
    rectangular columns rows ->
    ((exists a, AnalyzeEurostat.analyze_eurostat_file columns rows = Ok a) <->
     (2 <= List.length columns)%nat /\
     Forall (fun r => is_text (key r)) rows /\
     Exists (fun r => exists k, key r = Str k /\ (4 <= List.length (split "," k))%nat) rows /\
     Forall (fun r => Forall is_text (recent_cells r)) (firstn 10 rows) /\
     Forall (fun r => Forall (fun v => isna v = true \/ is_text v) (raw_cells r)) rows).
Proof.
  intros columns rows Hrect. unfold rectangular in Hrect.
  unfold AnalyzeEurostat.analyze_eurostat_file.
  destruct columns as [|c0 ys].
  { split; [intros (a & H); discriminate H | intros (H & _); cbn in H; lia]. }
  destruct ys as [|y ys].
  { split; [intros (a & H); discriminate H | intros (H & _); cbn in H; lia]. }
  set (yc := y :: ys) in *.
  assert (Hlen : Forall (fun r => List.length (raw_cells r) = List.length yc) rows).
  { eapply Forall_impl; [|exact Hrect]. cbn. intros r Hr. lia. }
  clear Hrect.
  pose proof (mapM_returns _ _
                (fun row : raw_row =>
                   match key row with Str meta_str => Ok meta_str | _ => Raise AttributeError end)
                rows) as HA.
  rewrite (Forall_equiv _ _ _ _ key_text_returns) in HA.
  destruct (mapM _ rows) as [keys|e] eqn:Ek.
  2:{ cbn [bind]. split; [intros (a & H); discriminate H|].
      intros (_ & Hk & _). apply HA in Hk. destruct Hk as (out & Hout). discriminate Hout. }
  cbn [bind]. pose proof (meta_not_empty rows keys (mapM_inv _ _ _ _ _ Ek)) as HB.
  assert (Hkeys : Forall (fun r => is_text (key r)) rows) by (apply HA; eexists; reflexivity).
  destruct (AnalyzeEurostat.analyze_eurostat_file_meta keys) as [|d ds] eqn:Em.
  { split; [intros (a & H); discriminate H|].
    intros (_ & _ & HE & _). apply HB in HE. contradiction HE. reflexivity. }
  rewrite (year_columns_ok _ rows Hlen). cbn [bind].
  assert (HC : (exists o, mapM (AnalyzeEurostat.sample_line yc) (firstn 10 rows) = Ok o) <->
               Forall (fun r => Forall is_text (recent_cells r)) (firstn 10 rows)).
  { rewrite mapM_returns, !Forall_forall. rewrite Forall_forall in Hlen, Hkeys.
    split; intros H r Hr.
    - pose proof (firstn_subset _ _ _ _ Hr) as Hr'. destruct (Hkeys r Hr') as (k & Hk).
      apply (sample_line_returns yc r k Hk (Hlen r Hr')). apply H. exact Hr.
    - pose proof (firstn_subset _ _ _ _ Hr) as Hr'. destruct (Hkeys r Hr') as (k & Hk).
      apply (sample_line_returns yc r k Hk (Hlen r Hr')). apply H. exact Hr. }
  pose proof (numeric_df_returns _ rows Hlen) as HD.
  destruct (mapM (AnalyzeEurostat.sample_line yc) (firstn 10 rows)) as [lines|e] eqn:Es.
  2:{ cbn [bind]. split; [intros (a & H); discriminate H|].
      intros (_ & _ & _ & Hs & _). apply HC in Hs. destruct Hs as (o & Ho). discriminate Ho. }
  cbn [bind].
  destruct (mapM (mapM AnalyzeEurostat.clean_eurostat_value) _) as [numeric|e] eqn:En.
  2:{ cbn [bind]. split; [intros (a & H); discriminate H|].
      intros (_ & _ & _ & _ & Hn). apply HD in Hn. destruct Hn as (o & Ho). discriminate Ho. }
  cbn [bind]. split; [|intros _; eexists; reflexivity].
  intros _. split; [cbn; lia|]. split; [exact Hkeys|].
  split; [apply HB; discriminate|].
  split; [apply HC; eexists; reflexivity | apply HD; eexists; reflexivity].
Qed.

Lemma analyze_eurostat_file_returns_iff_witness :
  (exists a,
      AnalyzeEurostat.analyze_eurostat_file example_columns two_country_rows = Ok a /\
      map geo (AnalyzeEurostat.meta_df a) = ["BE"; "NL"] /\
      map AnalyzeEurostat.Count (AnalyzeEurostat.year_lines a) = [2; 1; 1]%nat) /\
  AnalyzeEurostat.analyze_eurostat_file example_columns empty_cell_rows = Raise ValueError.
Proof.
  split.
  - assert (H : exists a,
               AnalyzeEurostat.analyze_eurostat_file example_columns two_country_rows = Ok a).
    { apply (analyze_eurostat_file_returns_iff example_columns two_country_rows).
      + repeat constructor.
      + split; [cbn; lia|].
        split; [repeat constructor; eexists; reflexivity|].
        split; [apply Exists_cons_hd; eexists; split; [reflexivity | cbn; lia]|].
        split.
        * repeat constructor; eexists; reflexivity.
        * repeat (apply Forall_cons || apply Forall_nil); right; eexists; reflexivity. }
    destruct H as (a & Ha). exists a. split; [exact Ha|].
    vm_compute in Ha. inversion Ha. split; reflexivity.
  - vm_compute. reflexivity.
Defined.
